(** * Synthetic e-commerce data pipeline: generation, ingestion, analysis

    A shallow embedding of the three scripts of the repository

      - [generate_ecommerce_data.py]  (module [Generate]),
      - [ingest_data_to_sqlite.py]    (module [Ingest]),
      - [analyze_ecommerce.py]        (module [Analyze]),

    together with the properties of the data-generation and
    referential-consistency engine.

    Python code that raises is modelled in a state-and-exception monad: a
    computation takes the state of the process and returns either a value or
    the exception raised, always with the state reached (Python keeps the
    mutations made before an exception). Libraries the scripts call but do not
    contain (the [random] module, Faker, NumPy sampling, rounding of floats,
    the SQLite engine) are interfaces: type classes whose laws are the part of
    their contract the scripts rely on. *)

From Stdlib Require Import ZArith Floats.
From stdpp Require Import gmap strings list fin_maps.

Open Scope Z_scope.

(** ** Exceptions and the state-and-exception monad *)

(** The SQLite errors that are subclasses of [sqlite3.DatabaseError]. *)
Inductive DatabaseErrorKind :=
| IntegrityError
| OperationalError
| ProgrammingError.

(** [ParseError] is Faker's (a [ValueError] raised by its parser of dates);
    [PandasDatabaseError] is [pandas.errors.DatabaseError], which is not a
    subclass of [sqlite3.DatabaseError]. *)
Inductive Exception :=
| IndexError
| KeyError
| ValueError
| TypeError
| UniquenessException
| DatabaseError (kind : DatabaseErrorKind)
| FileNotFoundError
| RuntimeError (message : string) (cause : Exception)
| OverflowError
| OSError
| ParseError
| PandasDatabaseError.

Inductive Outcome (A : Type) :=
| Returns (a : A)
| Raises (e : Exception).
Arguments Returns {A} a.
Arguments Raises {A} e.

Definition Py (S A : Type) : Type := S → Outcome A * S.

Definition ret {S A} (a : A) : Py S A := λ s, (Returns a, s).

Definition raise {S A} (e : Exception) : Py S A := λ s, (Raises e, s).

Definition bind {S A B} (c : Py S A) (k : A → Py S B) : Py S B :=
  λ s, match c s with
       | (Returns a, s') => k a s'
       | (Raises e, s') => (Raises e, s')
       end.

Definition get {S} : Py S S := λ s, (Returns s, s).

Definition put {S} (s : S) : Py S unit := λ _, (Returns tt, s).

(** [try: c except <handled>: handler] *)
Definition try_except {S A} (c : Py S A) (handled : Exception → bool)
    (handler : Exception → Py S A) : Py S A :=
  λ s, match c s with
       | (Returns a, s') => (Returns a, s')
       | (Raises e, s') => if handled e then handler e s' else (Raises e, s')
       end.

Global Instance Py_ret {S} : MRet (Py S) := λ A, @ret S A.
Global Instance Py_bind {S} : MBind (Py S) := λ A B k c, @bind S A B c k.

(** [wpx c s Q E]: run from [s], the computation [c] returns a value and a
    state that satisfy [Q], or raises an exception in a state that satisfy
    [E]. With [E] empty it is total correctness. *)
Definition wpx {S A} (c : Py S A) (s : S) (Q : A → S → Prop)
    (E : Exception → S → Prop) : Prop :=
  match c s with
  | (Returns a, s') => Q a s'
  | (Raises e, s') => E e s'
  end.

Definition never {S} : Exception → S → Prop := λ _ _, False.

(** The run ended with a [return]. *)
Definition returned {S A} (run : Outcome A * S) : Prop :=
  match run.1 with
  | Returns _ => True
  | Raises _ => False
  end.

(** [for x in xs: body x], collecting what each iteration appends. *)
Fixpoint for_each {S A B} (xs : list A) (body : A → Py S B) : Py S (list B) :=
  match xs with
  | [] => ret []
  | x :: xs' => y ← body x; ys ← for_each xs' body; ret (y :: ys)
  end.

(** ** Calendar dates

    A [datetime.date] is represented by its proleptic Gregorian ordinal
    ([date.toordinal()]); the comparison of dates is the comparison of
    ordinals. *)

Definition date := Z.

Definition is_leap (y : Z) : bool :=
  (y mod 4 =? 0) && (negb (y mod 100 =? 0) || (y mod 400 =? 0)).

Definition days_before_year (y : Z) : Z :=
  let p := y - 1 in p * 365 + p / 4 - p / 100 + p / 400.

Definition days_before_month (y m : Z) : Z :=
  nth (Z.to_nat m) [0; 0; 31; 59; 90; 120; 151; 181; 212; 243; 273; 304; 334] 0
  + (if (2 <? m) && is_leap y then 1 else 0).

Definition mkdate (y m d : Z) : date :=
  days_before_year y + days_before_month y m + d.

(** ** Floats

    A Python [float] is an IEEE 754 binary64 number: Rocq's primitive
    floats. [float_of_int] is the conversion Python applies to the integer
    operand of [int * float]. *)

Definition float_of_int (z : Z) : float :=
  if z <? 0 then PrimFloat.opp (PrimFloat.of_uint63 (Uint63.of_Z (- z)))
  else PrimFloat.of_uint63 (Uint63.of_Z z).

(** The multiple of [2 ^ e] nearest to [a], the even one of two at the same
    distance: the rounding of binary64. *)
Definition round_half_even (a e : Z) : Z :=
  let q := a / 2 ^ e in
  let r := a mod 2 ^ e in
  let half := 2 ^ (e - 1) in
  if r <? half then q * 2 ^ e
  else if half <? r then (q + 1) * 2 ^ e
  else if Z.even q then q * 2 ^ e else (q + 1) * 2 ^ e.

(** [int(x)] for [x] the float64 that NumPy makes of the 64-bit integer [z]:
    [z] kept to 53 significant bits. An integer up to [2 ^ 53] in absolute
    value comes back as it is, a larger one as the nearest float64. *)
Definition float64_int (z : Z) : Z :=
  let a := Z.abs z in
  if a <? 2 ^ 53 then z
  else Z.sgn z * round_half_even a (Z.log2 a - 52).

(** ** Library interfaces *)

(** The Faker providers that return text. *)
Inductive Provider :=
| first_name | last_name | email | phone_number | street_address | city
| state | postcode | country | catch_phrase | text_120 | company
| paragraph_3.

Class Libraries := {
  (** [random.Random]: the generator state, [seed], and the two primitives
      all other methods are written with, [_randbelow(n)] and [random()]. *)
  rstate : Type;
  seed : Z → rstate;
  randbelow : Z → rstate → Z * rstate;
  random_unit : rstate → float * rstate;
  randbelow_bound : ∀ n s, 0 < n → 0 ≤ (randbelow n s).1 < n;
  (** Faker's text providers, each a function of Faker's generator. *)
  provider : Provider → rstate → string * rstate;
  (** the builtin [round(x, 2)] and pandas' [Series.round(2)] *)
  round2 : float → float;
  series_round2 : float → float;
  (** NumPy's [RandomState(seed).choice(n, size=k, replace=True)], through
      which [DataFrame.sample] picks row positions *)
  np_choice : Z → nat → nat → list nat;
  np_choice_length : ∀ sd n k, length (np_choice sd n k) = k;
  np_choice_bound : ∀ sd n k i, (0 < n)%nat → i ∈ np_choice sd n k → (i < n)%nat
}.

(** ** The data model (the columns of the five CSV files) *)

Module Customer.
Record t := mk {
  customer_id : Z;
  first_name : string;
  last_name : string;
  email : string;
  phone : string;
  address : string;
  city : string;
  state : string;
  zip_code : string;
  country : string;
  registration_date : date
}.
End Customer.

Module Product.
Record t := mk {
  product_id : Z;
  product_name : string;
  category : string;
  description : string;
  price : float;
  stock_quantity : Z;
  supplier : string;
  created_date : date
}.
End Product.

Module Order.
Record t := mk {
  order_id : Z;
  customer_id : Z;
  order_date : date;
  total_amount : float;
  status : string;
  payment_method : string
}.

(** the assignment of one cell of the [total_amount] column *)
Definition with_total_amount (o : t) (x : float) : t :=
  mk (order_id o) (customer_id o) (order_date o) x (status o)
     (payment_method o).
End Order.

Module OrderItem.
Record t := mk {
  order_item_id : Z;
  order_id : Z;
  product_id : Z;
  quantity : Z;
  unit_price : float;
  subtotal : float
}.
End OrderItem.

Module Review.
Record t := mk {
  review_id : Z;
  product_id : Z;
  customer_id : Z;
  rating : Z;
  review_text : string;
  review_date : date
}.
End Review.

(** A [DataFrame] built by [pd.DataFrame(records)] is represented by its
    rows. Built from an empty list it has no columns at all, so that naming a
    column of it ([set_index], [df["col"]]) raises [KeyError]. *)
Definition set_index {S A} (df : list A) : Py S (list A) :=
  match df with
  | [] => raise KeyError
  | _ => ret df
  end.

(** [df.loc[k]] on a frame indexed by [key]: the row labelled [k]. A missing
    label raises [KeyError]; a label carried by several rows selects a frame
    rather than a row, on which the callers ([float(...)], a date argument)
    fail with a type error. *)
Definition loc {S A} (key : A → Z) (df : list A) (k : Z) : Py S A :=
  match filter (λ r, key r = k) df with
  | [] => raise KeyError
  | [r] => ret r
  | _ => raise TypeError
  end.

(** [df.loc[k]] where the caller goes on with whatever is selected: the rows
    labelled [k], a row when there is one and a frame when there are
    several; a missing label raises [KeyError]. *)
Definition loc_rows {S A} (key : A → Z) (df : list A) (k : Z) : Py S (list A) :=
  match filter (λ r, key r = k) df with
  | [] => raise KeyError
  | rows => ret rows
  end.

(** * [generate_ecommerce_data.py] *)

Module Generate.

Definition CUSTOMER_COUNT : Z := 1000.
Definition PRODUCT_COUNT : Z := 500.
Definition ORDER_COUNT : Z := 2000.
Definition ORDER_ITEM_COUNT : Z := 5000.
Definition REVIEW_COUNT : Z := 1500.
Definition REGISTRATION_START : date := mkdate 2023 1 1.
Definition DATA_END_DATE : date := mkdate 2024 11 30.

Section Generators.
Context `{Libraries}.

(** The state the generators run in: the module-level generator of [random],
    the generator shared by Faker instances, the values [fake.unique] has
    handed out for [email], and the mutable frames. Only the orders frame is
    assigned to after its construction, so it is the one kept in a store and
    passed by reference; [setitem_log] records every column assignment
    [df[col] = ...] as (frame, column). The other frames are values. *)
Record World := mkWorld {
  py_random : rstate;
  faker_random : rstate;
  unique_seen : gset string;
  frames : list (list Order.t);
  setitem_log : list (nat * string)
}.

Definition set_py_random (r : rstate) (w : World) : World :=
  mkWorld r (faker_random w) (unique_seen w) (frames w) (setitem_log w).
Definition set_faker_random (r : rstate) (w : World) : World :=
  mkWorld (py_random w) r (unique_seen w) (frames w) (setitem_log w).
Definition set_unique_seen (s : gset string) (w : World) : World :=
  mkWorld (py_random w) (faker_random w) s (frames w) (setitem_log w).
Definition set_frames (fs : list (list Order.t)) (w : World) : World :=
  mkWorld (py_random w) (faker_random w) (unique_seen w) fs (setitem_log w).
Definition set_setitem_log (lg : list (nat * string)) (w : World) : World :=
  mkWorld (py_random w) (faker_random w) (unique_seen w) (frames w) lg.

(** [drawn w w']: from [w] to [w'] only the two generators moved. *)
Definition drawn (w w' : World) : Prop :=
  unique_seen w' = unique_seen w ∧ frames w' = frames w
  ∧ setitem_log w' = setitem_log w.

(** *** The [random] module *)

Definition random_randbelow (n : Z) : Py World Z :=
  λ w, let '(i, r) := randbelow n (py_random w) in (Returns i, set_py_random r w).

Definition random_random : Py World float :=
  λ w, let '(x, r) := random_unit (py_random w) in (Returns x, set_py_random r w).

(** [random.choice(seq)] is [seq[_randbelow(len(seq))]], [IndexError] on
    an empty sequence. *)
Definition random_choice {A} (seq : list A) : Py World A :=
  match seq with
  | [] => raise IndexError
  | x :: _ => i ← random_randbelow (Z.of_nat (length seq));
              ret (nth (Z.to_nat i) seq x)
  end.

(** [random.randint(a, b)] is [a + _randbelow(b - a + 1)]. *)
Definition random_randint (a b : Z) : Py World Z :=
  if b <? a then raise ValueError
  else i ← random_randbelow (b - a + 1); ret (a + i).

(** [random.uniform(a, b)] is [a + (b - a) * random()]. *)
Definition random_uniform (a b : float) : Py World float :=
  x ← random_random; ret (a + (b - a) * x)%float.

(** *** Faker *)

Definition fake (p : Provider) : Py World string :=
  λ w, let '(v, r) := provider p (faker_random w) in
       (Returns v, set_faker_random r w).

Definition faker_randbelow (n : Z) : Py World Z :=
  λ w, let '(i, r) := randbelow n (faker_random w) in
       (Returns i, set_faker_random r w).

(** Modelled from the spec: Faker's [date_between_dates] is a library
    function, absent from the repository. The date is "drawn uniformly from
    the interval [start, end]" (both ends included), with Faker's generator;
    an end before the start is a precondition error, "fatal ... never
    silently clamped". *)
Definition date_between_dates (date_start date_end : date) : Py World date :=
  if date_end <? date_start then raise ValueError
  else i ← faker_randbelow (date_end - date_start + 1); ret (date_start + i).

(** Modelled from the spec: the [fake.unique] proxy of Faker is a library
    object, absent from the repository. "Customer email uniqueness is a hard
    constraint": the proxy remembers the values it returned and calls the
    provider again while the value drawn was returned before; "exhaustion of
    the uniqueness source ... is fatal": after [UNIQUE_ATTEMPTS] iterations
    without a fresh value it raises [UniquenessException]. The iteration is
    Faker's: test the last value, leave the loop when it is fresh, draw
    otherwise; the loop running to its end is the failure. *)
Definition UNIQUE_ATTEMPTS : nat := 1000.

(** Modelled from the spec: the retry loop of the [fake.unique] proxy (see
    above). [retval] is the value drawn last, none before the first draw. *)
Fixpoint unique_attempts (attempts : nat) (function : Py World string)
    (generated : gset string) (retval : option string) : Py World string :=
  match attempts with
  | O => raise UniquenessException
  | S n =>
      match retval with
      | Some v =>
          if decide (v ∈ generated) then
            v' ← function; unique_attempts n function generated (Some v')
          else ret v
      | None => v' ← function; unique_attempts n function generated (Some v')
      end
  end.

(** Modelled from the spec: a call [fake.unique.<provider>()]. The value
    returned was never returned before, and is remembered. *)
Definition fake_unique (p : Provider) : Py World string :=
  w ← get;
  retval ← unique_attempts UNIQUE_ATTEMPTS (fake p) (unique_seen w) None;
  w' ← get;
  put (set_unique_seen ({[retval]} ∪ unique_seen w') w');;
  ret retval.

(** *** The store of mutable frames *)

(** [pd.DataFrame(records)] for the orders: a new frame, and a reference
    to it. *)
Definition new_frame (records : list Order.t) : Py World nat :=
  w ← get; put (set_frames (frames w ++ [records]) w);; ret (length (frames w)).

(** Reading through a reference. References are only made by [new_frame],
    so they are never dangling; a location outside the store reads as the
    frame without rows or columns. *)
Definition read_frame (l : nat) : Py World (list Order.t) :=
  w ← get; ret (default [] (frames w !! l)).

(** [df["total_amount"] = values], where [values] is aligned with the rows
    of [df]: the rows are kept, in their order, and each gets its new cell. *)
Definition setitem_total_amount (l : nat) (values : list float) : Py World unit :=
  w ← get;
  let df := default [] (frames w !! l) in
  put (set_setitem_log (setitem_log w ++ [(l, "total_amount"%string)])
         (set_frames (<[l := zip_with Order.with_total_amount df values]> (frames w)) w)).

(** *** [generate_customers] *)

Definition generate_customers (count : Z) : Py World (list Customer.t) :=
  for_each (seqZ 1 count) (λ customer_id,
    registration_date ← date_between_dates REGISTRATION_START DATA_END_DATE;
    first_name ← fake first_name;
    last_name ← fake last_name;
    email ← fake_unique email;
    phone ← fake phone_number;
    address ← fake street_address;
    city ← fake city;
    state ← fake state;
    zip_code ← fake postcode;
    country ← fake country;
    ret (Customer.mk customer_id first_name last_name email phone address
           city state zip_code country registration_date)).

(** *** [generate_products] *)

Definition categories : list string :=
  ["Electronics"; "Clothing"; "Home & Garden"; "Sports"; "Books"]%string.

Definition generate_products (count : Z) : Py World (list Product.t) :=
  for_each (seqZ 1 count) (λ product_id,
    x ← random_uniform 5 500;
    let price := round2 x in
    product_name ← fake catch_phrase;
    category ← random_choice categories;
    description ← fake text_120;
    stock_quantity ← random_randint 0 1000;
    supplier ← fake company;
    created_date ← date_between_dates REGISTRATION_START DATA_END_DATE;
    ret (Product.mk product_id product_name category description price
           stock_quantity supplier created_date)).

(** *** [generate_orders] *)

Definition statuses : list string :=
  ["Pending"; "Processing"; "Shipped"; "Delivered"; "Cancelled"]%string.

Definition payment_methods : list string :=
  ["Credit Card"; "Debit Card"; "PayPal"; "Cash on Delivery"]%string.

Definition generate_orders (customers_df : list Customer.t) (count : Z)
    : Py World nat :=
  let customers := customers_df in
  orders ← for_each (seqZ 1 count) (λ order_id,
    customer ← random_choice customers;
    order_date ← date_between_dates (Customer.registration_date customer)
                   DATA_END_DATE;
    status ← random_choice statuses;
    payment_method ← random_choice payment_methods;
    ret (Order.mk order_id (Customer.customer_id customer) order_date 0
           status payment_method));
  new_frame orders.

(** *** [generate_order_items] *)

(** [order_totals[order_id] += subtotal] *)
Definition add_to_total (order_totals : gmap Z float) (order_id : Z)
    (subtotal : float) : Py World (gmap Z float) :=
  match order_totals !! order_id with
  | None => raise KeyError
  | Some total => ret (<[order_id := (total + subtotal)%float]> order_totals)
  end.

(** The helper [build_item]. It is a closure over [products_df], [products]
    and the dictionary [order_totals], which it updates: the dictionary is
    passed in and handed back. *)
Definition build_item (products_df products : list Product.t)
    (order_totals : gmap Z float) (record_id order_id : Z)
    : Py World (OrderItem.t * gmap Z float) :=
  product_id ← random_choice (Product.product_id <$> products_df);
  product ← loc Product.product_id products product_id;
  let price := Product.price product in
  quantity ← random_randint 1 5;
  let subtotal := round2 (float_of_int quantity * price)%float in
  order_totals ← add_to_total order_totals order_id subtotal;
  ret (OrderItem.mk record_id order_id product_id quantity price subtotal,
       order_totals).

(** [for order_id in orders.index: order_items.append(build_item(record_id,
    order_id)); record_id += 1]; returns the items appended, [record_id] and
    the dictionary as the loop leaves them. *)
Fixpoint seed_items (products_df products : list Product.t)
    (index : list Z) (order_totals : gmap Z float) (record_id : Z)
    : Py World (list OrderItem.t * gmap Z float * Z) :=
  match index with
  | [] => ret ([], order_totals, record_id)
  | order_id :: index' =>
      '(item, order_totals) ←
        build_item products_df products order_totals record_id order_id;
      '(items, order_totals, record_id') ←
        seed_items products_df products index' order_totals (record_id + 1);
      ret (item :: items, order_totals, record_id')
  end.

(** [while record_id <= count: ...]. The loop adds one to [record_id] at
    each turn, so it takes [count + 1 - record_id] turns when that is
    positive and none otherwise: [turns] is given that value. *)
Fixpoint fill_items (turns : nat) (products_df products : list Product.t)
    (order_ids : list Z) (count : Z) (order_totals : gmap Z float)
    (record_id : Z) : Py World (list OrderItem.t * gmap Z float) :=
  match turns with
  | O => ret ([], order_totals)
  | S turns' =>
      if record_id <=? count then
        random_order_id ← random_choice order_ids;
        '(item, order_totals) ←
          build_item products_df products order_totals record_id random_order_id;
        '(items, order_totals) ←
          fill_items turns' products_df products order_ids count order_totals
            (record_id + 1);
        ret (item :: items, order_totals)
      else ret ([], order_totals)
  end.

(** [Series.map(order_totals)]: the value of the dictionary at each label,
    NaN where the label is missing. *)
Definition series_map (order_totals : gmap Z float) (labels : list Z)
    : list float :=
  (λ k, default PrimFloat.nan (order_totals !! k)) <$> labels.

(** Lines 148 to 178: everything before the assignment to
    [orders_df["total_amount"]]. Returns [order_items] and [order_totals]. *)
Definition allocate_items (orders_df : list Order.t)
    (products_df : list Product.t) (count : Z)
    : Py World (list OrderItem.t * gmap Z float) :=
  products ← set_index products_df;
  orders ← set_index orders_df;
  let index := Order.order_id <$> orders in
  let order_totals : gmap Z float := list_to_map ((λ k, (k, 0%float)) <$> index) in
  let record_id := 1 in
  '(seeded, order_totals, record_id) ←
    seed_items products_df products index order_totals record_id;
  '(filled, order_totals) ←
    fill_items (Z.to_nat (count + 1 - record_id)) products_df products
      (Order.order_id <$> orders_df) count order_totals record_id;
  ret (seeded ++ filled, order_totals).

Definition generate_order_items (orders_df : nat) (products_df : list Product.t)
    (count : Z) : Py World (list OrderItem.t) :=
  orders ← read_frame orders_df;
  '(order_items, order_totals) ← allocate_items orders products_df count;
  orders ← read_frame orders_df;
  setitem_total_amount orders_df
    (series_round2 <$> series_map order_totals (Order.order_id <$> orders));;
  ret order_items.

(** *** [generate_reviews] *)

(** [df.sample(n=n, replace=True, random_state=seed)]: [n] rows, at the
    positions NumPy's generator seeded with [seed] picks. *)
Definition sample {A} (df : list A) (n : Z) (random_state : Z) : Py World (list A) :=
  if n <? 0 then raise ValueError
  else match df with
       | [] => if n =? 0 then ret [] else raise ValueError
       | x :: _ =>
           ret ((λ i, nth i df x) <$> np_choice random_state (length df) (Z.to_nat n))
       end.

(** [enumerate(xs, start=1)] *)
Definition enumerate1 {A} (xs : list A) : list (Z * A) :=
  zip (seqZ 1 (Z.of_nat (length xs))) xs.

(** [iterrows] yields each row as one Series, which has one dtype: float64
    for the frame of the items, whose ids and quantities are int64 and whose
    prices are float64. So [int(item["order_id"])] and
    [int(item["product_id"])] are [float64_int] of the ids. A row of the
    orders holds dates and text next to its numbers, its Series has dtype
    object, and [int(order["customer_id"])] is the id itself.

    [order_lookup.loc[order_id]] is a row when one order carries the label.
    When several do it is a frame, [order["order_date"]] is a Series, and
    Faker's parser of dates refuses it with [ParseError] before anything is
    drawn. *)
Definition generate_reviews (order_items_df : list OrderItem.t) (orders_df : nat)
    (count : Z) : Py World (list Review.t) :=
  orders ← read_frame orders_df;
  order_lookup ← set_index orders;
  selectable_items ← sample order_items_df count 42;
  for_each (enumerate1 selectable_items) (λ '(review_id, item),
    let order_id := float64_int (OrderItem.order_id item) in
    order ← loc_rows Order.order_id order_lookup order_id;
    order ← match order with
            | [order] => ret order
            | _ => raise ParseError
            end;
    let order_date := Order.order_date order in
    review_date ← date_between_dates order_date DATA_END_DATE;
    rating ← random_randint 1 5;
    review_text ← fake paragraph_3;
    ret (Review.mk review_id (float64_int (OrderItem.product_id item))
           (Order.customer_id order) rating review_text review_date)).

(** *** [save_dataframe] and [main] *)

(** The content of a CSV file: the frame it was written from
    ([to_csv(path, index=False)] is a function of the frame). *)
Inductive Csv :=
| CustomersCsv (rows : list Customer.t)
| ProductsCsv (rows : list Product.t)
| OrdersCsv (rows : list Order.t)
| OrderItemsCsv (rows : list OrderItem.t)
| ReviewsCsv (rows : list Review.t).

(** The process: the generators' world and the data directory, [None]
    while the path [data] does not exist and its files otherwise. The
    generators have no access to the files. *)
Definition Process : Type := World * option (gmap string Csv).

Definition lift {A} (c : Py World A) : Py Process A :=
  λ '(w, disk), let '(o, w') := c w in (o, (w', disk)).

(** [directory.mkdir(parents=True, exist_ok=True)]: the directory is made,
    without files, when it does not exist, and left as it is otherwise. The
    operating system is taken to accept the creation (the path is not that of
    a regular file). *)
Definition ensure_data_directory : Py Process unit :=
  λ '(w, disk), (Returns tt, (w, Some (default ∅ disk))).

(** [df.to_csv(path, index=False)] replaces the file; without the directory
    it raises [OSError]. In a directory that exists the operating system is
    taken to accept the write. *)
Definition to_csv (df : Csv) (filename : string) : Py Process unit :=
  λ '(w, disk), match disk with
                | Some files => (Returns tt, (w, Some (<[filename := df]> files)))
                | None => (Raises OSError, (w, disk))
                end.

Definition is_os_error (e : Exception) : bool :=
  match e with
  | OSError | FileNotFoundError => true
  | _ => false
  end.

Definition save_dataframe (df : Csv) (filename : string) : Py Process unit :=
  try_except (to_csv df filename) is_os_error
    (λ error, raise (RuntimeError "Unable to write" error)).

(** [random.seed(42); fake = Faker(); Faker.seed(42)]: both generators are
    reset, and the new Faker instance has a [unique] proxy that has returned
    nothing yet. *)
Definition seed_all (n : Z) : Py World unit :=
  w ← get;
  put (set_unique_seen ∅ (set_faker_random (seed n) (set_py_random (seed n) w))).

Definition generate_all
    : Py World (list Customer.t * list Product.t * nat * list OrderItem.t
                * list Review.t) :=
  customers_df ← generate_customers CUSTOMER_COUNT;
  products_df ← generate_products PRODUCT_COUNT;
  orders_df ← generate_orders customers_df ORDER_COUNT;
  order_items_df ← generate_order_items orders_df products_df ORDER_ITEM_COUNT;
  reviews_df ← generate_reviews order_items_df orders_df REVIEW_COUNT;
  ret (customers_df, products_df, orders_df, order_items_df, reviews_df).

Definition main : Py Process unit :=
  lift (seed_all 42);;
  ensure_data_directory;;
  '(customers_df, products_df, orders_df, order_items_df, reviews_df) ←
    try_except (lift generate_all) (λ _, true)
      (λ error, raise (RuntimeError "Data generation failed" error));
  save_dataframe (CustomersCsv customers_df) "customers.csv";;
  save_dataframe (ProductsCsv products_df) "products.csv";;
  orders ← lift (read_frame orders_df);
  save_dataframe (OrdersCsv orders) "orders.csv";;
  save_dataframe (OrderItemsCsv order_items_df) "order_items.csv";;
  save_dataframe (ReviewsCsv reviews_df) "reviews.csv".

(** *** Vocabulary of the properties *)

(** What [generate_orders] promises of the order numbered [order_id]. *)
Definition order_of (customers : list Customer.t) (order_id : Z) (o : Order.t)
    : Prop :=
  Order.order_id o = order_id ∧ Order.total_amount o = 0%float
  ∧ ∃ c, c ∈ customers ∧ Order.customer_id o = Customer.customer_id c
         ∧ Customer.registration_date c ≤ Order.order_date o ≤ DATA_END_DATE.

(** The running sum of the subtotals of the items of [items] that reference
    [order_id], taken in the order of [items] and started from [total]. *)
Definition accumulate (items : list OrderItem.t) (order_id : Z) (total : float)
    : float :=
  fold_left PrimFloat.add
    (OrderItem.subtotal <$> filter (λ it, OrderItem.order_id it = order_id) items)
    total.

Definition sum_subtotals (items : list OrderItem.t) (order_id : Z) : float :=
  accumulate items order_id 0.

(** The dictionary [order_totals] after [items] were built. *)
Definition credited (order_totals : gmap Z float) (items : list OrderItem.t)
    : gmap Z float :=
  fold_left (λ m it,
      match m !! OrderItem.order_id it with
      | Some total =>
          <[OrderItem.order_id it := (total + OrderItem.subtotal it)%float]> m
      | None => m
      end) items order_totals.

(** An item as [build_item] makes it from a product of the catalogue. *)
Definition item_ok (products : list Product.t) (it : OrderItem.t) : Prop :=
  ∃ p, p ∈ products
       ∧ OrderItem.product_id it = Product.product_id p
       ∧ OrderItem.unit_price it = Product.price p
       ∧ 1 ≤ OrderItem.quantity it ≤ 5
       ∧ OrderItem.subtotal it
         = round2 (float_of_int (OrderItem.quantity it) * OrderItem.unit_price it)%float.

(** The items [generate_order_items] returns for the orders [orders]: one
    item per order first, in the order of the rows, then the items of
    sampled orders up to [count]; numbered from 1. *)
Definition allocation (orders : list Order.t) (products : list Product.t)
    (count : Z) (items : list OrderItem.t) : Prop :=
  let n := length orders in
  length items = (n + Z.to_nat (count - Z.of_nat n))%nat
  ∧ OrderItem.order_id <$> take n items = Order.order_id <$> orders
  ∧ Forall (λ it, OrderItem.order_id it ∈ Order.order_id <$> orders) (drop n items)
  ∧ OrderItem.order_item_id <$> items = seqZ 1 (Z.of_nat (length items))
  ∧ Forall (item_ok products) items.

(** The row of an order once its total is written back. *)
Definition finalize (items : list OrderItem.t) (o : Order.t) : Order.t :=
  Order.with_total_amount o
    (series_round2 (sum_subtotals items (Order.order_id o))).

(** The generators that only draw leave the store of frames, the log of
    assignments and the values handed out by [fake.unique] as they were,
    whether they return or raise. *)
Definition draws_only {A} (c : Py World A) : Prop := ∀ w, drawn w (c w).2.

(** The state of a process that starts the script: the generators of
    [random] and of Faker are in whatever state the interpreter seeded them
    (from the clock or the operating system), and no frame exists yet. *)
Definition process_start (r f : rstate) (seen : gset string) : World :=
  mkWorld r f seen [] [].

Definition entity_files : list string :=
  ["customers.csv"; "products.csv"; "orders.csv"; "order_items.csv";
   "reviews.csv"]%string.

(** What a run leaves to be observed: the exception it ended with, or the
    content of the five entity files. *)
Definition observable (run : Outcome unit * Process)
    : Exception + list (option Csv) :=
  match run with
  | (Returns _, (_, disk)) => inr ((λ f, default ∅ disk !! f) <$> entity_files)
  | (Raises e, _) => inl e
  end.

Definition seeded (w : World) : World :=
  set_unique_seen ∅ (set_faker_random (seed 42) (set_py_random (seed 42) w)).

(** What [generate_customers] promises of the customer numbered
    [customer_id], and [generate_products] of the product numbered
    [product_id]. *)
Definition customer_of (customer_id : Z) (c : Customer.t) : Prop :=
  Customer.customer_id c = customer_id
  ∧ REGISTRATION_START ≤ Customer.registration_date c ≤ DATA_END_DATE.

Definition product_of (product_id : Z) (p : Product.t) : Prop :=
  Product.product_id p = product_id
  ∧ Product.category p ∈ categories
  ∧ 0 ≤ Product.stock_quantity p ≤ 1000
  ∧ REGISTRATION_START ≤ Product.created_date p ≤ DATA_END_DATE
  ∧ ∃ u, Product.price p = round2 (5 + (500 - 5) * u)%float.

(** The fields of an order that do not depend on the customer drawn. *)
Definition order_fields (order_id : Z) (o : Order.t) : Prop :=
  Order.order_id o = order_id ∧ Order.total_amount o = 0%float
  ∧ Order.status o ∈ statuses ∧ Order.payment_method o ∈ payment_methods.

(** The rows [df.sample(n=count, replace=True, random_state=42)] selects
    from a frame that has rows. *)
Definition sampled {A} (df : list A) (count : Z) : list A :=
  match df with
  | [] => []
  | x :: _ => (λ i, nth i df x) <$> np_choice 42 (length df) (Z.to_nat count)
  end.

(** The ids of the items are integers that float64 holds exactly, as are
    the ids of the script, which number the rows from 1. *)
Definition exact_ids (items : list OrderItem.t) : Prop :=
  Forall (λ it, Z.abs (OrderItem.order_id it) ≤ 2 ^ 53
                ∧ Z.abs (OrderItem.product_id it) ≤ 2 ^ 53) items.

(** The review made from the sampled item [x.2], numbered [x.1]. *)
Definition review_of (orders : list Order.t) (x : Z * OrderItem.t)
    (r : Review.t) : Prop :=
  Review.review_id r = x.1
  ∧ Review.product_id r = OrderItem.product_id x.2
  ∧ 1 ≤ Review.rating r ≤ 5
  ∧ ∃ o, o ∈ orders ∧ Order.order_id o = OrderItem.order_id x.2
         ∧ Review.customer_id r = Order.customer_id o
         ∧ Order.order_date o ≤ Review.review_date r ≤ DATA_END_DATE.

(** The constraints that the tables of [ingest_data_to_sqlite.py] declare
    on the five entity sets: the primary keys, [UNIQUE] on the email, the
    foreign keys, and [CHECK(rating BETWEEN 1 AND 5)]. *)
Definition satisfies_schema (customers : list Customer.t)
    (products : list Product.t) (orders : list Order.t)
    (items : list OrderItem.t) (reviews : list Review.t) : Prop :=
  NoDup (Customer.customer_id <$> customers)
  ∧ NoDup (Customer.email <$> customers)
  ∧ NoDup (Product.product_id <$> products)
  ∧ NoDup (Order.order_id <$> orders)
  ∧ Forall (λ o, Order.customer_id o ∈ Customer.customer_id <$> customers) orders
  ∧ NoDup (OrderItem.order_item_id <$> items)
  ∧ Forall (λ it, OrderItem.order_id it ∈ Order.order_id <$> orders
                  ∧ OrderItem.product_id it ∈ Product.product_id <$> products)
      items
  ∧ NoDup (Review.review_id <$> reviews)
  ∧ Forall (λ r, Review.product_id r ∈ Product.product_id <$> products
                 ∧ Review.customer_id r ∈ Customer.customer_id <$> customers
                 ∧ 1 ≤ Review.rating r ≤ 5)
      reviews.

End Generators.
End Generate.

(** * [ingest_data_to_sqlite.py] *)

Module Ingest.

Inductive Table := customers | products | orders | order_items | reviews.

(** A cell of a frame read from CSV, as bound to a [?] of a statement. *)
Inductive Value :=
| VInt (z : Z)
| VReal (x : float)
| VText (s : string)
| VNull.

Definition Row : Type := list Value.

(** The rows of each table. *)
Definition Database : Type := Table → list Row.

(** The SQLite engine decides whether [INSERT INTO table VALUES row] is
    accepted by the database as it stands (primary and foreign keys,
    [UNIQUE], [NOT NULL], [CHECK], number of bindings) or fails, and with
    which [sqlite3.DatabaseError]. *)
Class Engine := {
  check_insert : Database → Table → Row → option DatabaseErrorKind
}.

Inductive Statement :=
| BEGIN
| INSERT (table : Table) (row : Row)
| COMMIT
| ROLLBACK.

(** A [sqlite3.Connection]: what is committed, the database as the open
    transaction sees it (if one is open), and the statements the engine has
    executed on this connection. *)
Record Connection := mkConnection {
  committed : Database;
  transaction : option Database;
  journal : list Statement
}.

Global Instance Table_eq_dec : EqDecision Table.
Proof. solve_decision. Defined.

Definition insert_row (db : Database) (table : Table) (row : Row) : Database :=
  λ t, if decide (t = table) then db t ++ [row] else db t.

Section Store.
Context `{Engine}.

(** [cursor.execute("BEGIN;")]: SQLite refuses a transaction within a
    transaction. *)
Definition execute_begin : Py Connection unit :=
  λ c, match transaction c with
       | Some _ => (Raises (DatabaseError OperationalError), c)
       | None => (Returns tt,
                  mkConnection (committed c) (Some (committed c))
                    (journal c ++ [BEGIN]))
       end.

(** The number of [?] in the statement of each table. *)
Definition parameters (table : Table) : nat :=
  match table with
  | customers => 11
  | products => 8
  | orders | order_items | reviews => 6
  end.

(** A Python [int] is bound as SQLite's 64-bit INTEGER; the module raises
    [OverflowError] for one that does not fit. The other values bind as they
    are. *)
Definition binds (row : Row) : bool :=
  forallb (λ v, match v with
                | VInt z => (- 2 ^ 63 <=? z) && (z <? 2 ^ 63)
                | _ => true
                end) row.

(** One [INSERT] of [executemany]. The module opens a transaction before a
    data-modifying statement when none is open. It counts the values of the
    row (a wrong count is a [sqlite3.ProgrammingError], part of the engine's
    decision), binds them, which fails for an integer outside 64 bits, and
    hands the statement to the engine. *)
Definition execute_insert (table : Table) (row : Row) : Py Connection unit :=
  λ c, let '(db, jn) :=
         match transaction c with
         | Some db => (db, journal c)
         | None => (committed c, journal c ++ [BEGIN])
         end in
       if (length row =? parameters table)%nat && negb (binds row) then
         (Raises OverflowError, mkConnection (committed c) (Some db) jn)
       else
         match check_insert db table row with
         | Some kind =>
             (Raises (DatabaseError kind), mkConnection (committed c) (Some db) jn)
         | None =>
             (Returns tt,
              mkConnection (committed c) (Some (insert_row db table row))
                (jn ++ [INSERT table row]))
         end.

Definition executemany (table : Table) (rows : list Row) : Py Connection unit :=
  for_each rows (execute_insert table);; ret tt.

(** [connection.commit()] and [connection.rollback()]: nothing to do when
    no transaction is open. *)
Definition commit : Py Connection unit :=
  λ c, match transaction c with
       | Some db => (Returns tt, mkConnection db None (journal c ++ [COMMIT]))
       | None => (Returns tt, c)
       end.

Definition rollback : Py Connection unit :=
  λ c, match transaction c with
       | Some _ =>
           (Returns tt, mkConnection (committed c) None (journal c ++ [ROLLBACK]))
       | None => (Returns tt, c)
       end.

Definition is_database_error (e : Exception) : bool :=
  match e with
  | DatabaseError _ => true
  | _ => false
  end.

(** The keys of [insert_statements], in the order of the dictionary. *)
Definition insert_statements : list Table :=
  [customers; products; orders; order_items; reviews].

Definition insert_data (dataframes : Table → option (list Row))
    : Py Connection unit :=
  try_except
    (execute_begin;;
     for_each insert_statements (λ table_name,
       df ← match dataframes table_name with
            | Some df => ret df
            | None => raise KeyError
            end;
       let rows := df in
       executemany table_name rows);;
     commit)
    is_database_error
    (λ error, rollback;; raise (RuntimeError "Insertion failed" error)).

(** *** Vocabulary of the properties *)

(** The [INSERT] statements of a load, in the order [insert_data] issues
    them, and their effect on a database. *)
Definition statements_of (dataframes : Table → option (list Row))
    (tables : list Table) : list Statement :=
  tables ≫= λ t, INSERT t <$> default [] (dataframes t).

Definition run_statement (db : Database) (s : Statement) : Database :=
  match s with
  | INSERT table row => insert_row db table row
  | _ => db
  end.

Definition is_insert (s : Statement) : Prop :=
  match s with
  | INSERT _ _ => True
  | _ => False
  end.

(** Inside an open transaction: nothing is committed, the transaction stays
    open, and only [INSERT]s reach the journal, also when a statement
    fails. *)
Definition in_transaction (c c' : Connection) : Prop :=
  committed c' = committed c ∧ is_Some (transaction c')
  ∧ ∃ new, journal c' = journal c ++ new ∧ Forall is_insert new.

(** *** [read_csv] and [load_dataframes] *)

(** The data directory as the script reads it: for each file that exists,
    what [pd.read_csv] makes of it, a frame or the exception it raises. *)
Definition DataDir : Type := gmap string (Exception + list Row).

Definition csv_file (t : Table) : string :=
  match t with
  | customers => "customers.csv"
  | products => "products.csv"
  | orders => "orders.csv"
  | order_items => "order_items.csv"
  | reviews => "reviews.csv"
  end.

Definition read_csv (filename : string) : Py DataDir (list Row) :=
  λ dir, match dir !! filename with
         | None => (Raises FileNotFoundError, dir)
         | Some (inl error) => (Raises error, dir)
         | Some (inr df) => (Returns df, dir)
         end.

(** The dictionary has the five table names as keys. *)
Definition load_dataframes : Py DataDir (Table → option (list Row)) :=
  customers_df ← read_csv "customers.csv";
  products_df ← read_csv "products.csv";
  orders_df ← read_csv "orders.csv";
  order_items_df ← read_csv "order_items.csv";
  reviews_df ← read_csv "reviews.csv";
  ret (λ t, match t with
            | customers => Some customers_df
            | products => Some products_df
            | orders => Some orders_df
            | order_items => Some order_items_df
            | reviews => Some reviews_df
            end).

End Store.
End Ingest.

(** * [analyze_ecommerce.py] *)

Module Analyze.

(** The five queries of the battery, named as the functions that run them. *)
Inductive Query :=
| top_customers_by_revenue
| product_performance_with_reviews
| complete_order_details
| category_sales_summary
| customer_engagement_metrics.

Definition name (q : Query) : string :=
  match q with
  | top_customers_by_revenue => "top_customers_by_revenue"
  | product_performance_with_reviews => "product_performance_with_reviews"
  | complete_order_details => "complete_order_details"
  | category_sales_summary => "category_sales_summary"
  | customer_engagement_metrics => "customer_engagement_metrics"
  end.

Definition DataFrame : Type := list (list string).

(** What [pd.read_sql_query] does with the SQL of a query: it returns the
    result set, in the seconds [perf_counter] measures around the call, or
    raises. pandas reports a statement that fails to execute as
    [pandas.errors.DatabaseError]; an error of SQLite that reaches the caller
    as it is (met while the rows are fetched) is a [sqlite3.DatabaseError]. *)
Definition Connection : Type := Query → Exception + DataFrame * float.

(** [except sqlite3.DatabaseError] *)
Definition is_database_error (e : Exception) : bool :=
  match e with
  | DatabaseError _ => true
  | _ => false
  end.

Definition QueryResult : Type := string * nat * float.

Inductive Event :=
| Running (name : string)
| Rows (row_count : nat)
| Exported (name : string)
| Summary (results : list QueryResult)
| NoQueries
| Completed.

(** The console and the files of the results directory. *)
Record Session := mkSession {
  stdout : list Event;
  results_dir : gmap string DataFrame
}.

Definition print (e : Event) : Py Session unit :=
  λ s, (Returns tt, mkSession (stdout s ++ [e]) (results_dir s)).

Definition to_csv (name : string) (df : DataFrame) : Py Session unit :=
  λ s, (Returns tt, mkSession (stdout s) (<[(name +:+ ".csv")%string := df]> (results_dir s))).

Definition execute_and_report (connection : Connection) (q : Query)
    : Py Session QueryResult :=
  print (Running (name q));;
  '(dataframe, duration) ←
    try_except
      match connection q with
      | inl error => raise error
      | inr answer => ret answer
      end
      is_database_error
      (λ error, raise (RuntimeError "Query failed" error));
  let row_count := length dataframe in
  print (Rows row_count);;
  to_csv (name q) dataframe;;
  print (Exported (name q));;
  ret (name q, row_count, duration).

Definition summarize_runs (results : list QueryResult) : Py Session unit :=
  match results with
  | [] => print NoQueries
  | _ => print (Summary results)
  end.

Definition query_functions : list Query :=
  [top_customers_by_revenue; product_performance_with_reviews;
   complete_order_details; category_sales_summary;
   customer_engagement_metrics].

Definition main (database_exists : bool) (connection : Connection)
    : Py Session unit :=
  if negb database_exists then raise FileNotFoundError
  else
    results ←
      try_except (for_each query_functions (execute_and_report connection))
        (λ _, true)
        (λ error, raise (RuntimeError "Analysis failed" error));
    summarize_runs results;;
    print Completed.

(** *** Vocabulary of the properties *)

(** What a query that succeeds prints, and the file it exports. *)
Definition report (connection : Connection) (q : Query) : list Event :=
  match connection q with
  | inr (dataframe, _) =>
      [Running (name q); Rows (length dataframe); Exported (name q)]
  | inl _ => []
  end.

Definition export (connection : Connection) (dir : gmap string DataFrame)
    (q : Query) : gmap string DataFrame :=
  match connection q with
  | inr (dataframe, _) => <[(name q +:+ ".csv")%string := dataframe]> dir
  | inl _ => dir
  end.

(** The entry of the summary for a query that has an answer. *)
Definition result_of (connection : Connection) (q : Query) : QueryResult :=
  match connection q with
  | inr (dataframe, duration) => (name q, length dataframe, duration)
  | inl _ => (name q, 0%nat, 0%float)
  end.

Definition answers (connection : Connection) (q : Query) : Prop :=
  ∃ answer, connection q = inr answer.

(** The exception [execute_and_report] ends with when [pd.read_sql_query]
    raises [error]: its handler wraps a [sqlite3.DatabaseError] and lets any
    other exception through. *)
Definition surfaced (error : Exception) : Exception :=
  if is_database_error error then RuntimeError "Query failed" error else error.

End Analyze.

(** * A concrete set of libraries

    A small linear congruential generator stands for the Mersenne Twister,
    one-character strings for Faker's texts, and rounding to the nearest
    hundredth through the 2^52 trick for both roundings. It is used to run
    the scripts on small inputs. *)

Definition lcg_next (s : Z) : Z := (s * 1103515245 + 12345) mod 2147483648.

Definition lcg_randbelow (n s : Z) : Z * Z :=
  let s' := lcg_next s in ((s' / 65536) mod n, s').

Definition lcg_random (s : Z) : float * Z :=
  let s' := lcg_next s in
  ((float_of_int ((s' / 65536) mod 1000) / 1000)%float, s').

Definition lcg_provider (p : Provider) (s : Z) : string * Z :=
  let s' := lcg_next s in
  (String (Ascii.ascii_of_N (Z.to_N (97 + (s' / 65536) mod 26))) EmptyString, s').

Definition nearest_hundredth (x : float) : float :=
  ((x * 100 + 4503599627370496 - 4503599627370496) / 100)%float.

Fixpoint lcg_choice (s : Z) (n k : nat) : list nat :=
  match k with
  | O => []
  | S k' => let s' := lcg_next s in
            (Z.to_nat (s' / 65536) mod n)%nat :: lcg_choice s' n k'
  end.

#[refine] Instance lcg_libraries : Libraries := {|
  rstate := Z;
  seed := λ n, n;
  randbelow := lcg_randbelow;
  random_unit := lcg_random;
  provider := lcg_provider;
  round2 := nearest_hundredth;
  series_round2 := nearest_hundredth;
  np_choice := lcg_choice
|}.
Proof.
  - intros n s Hn. apply Z.mod_pos_bound, Hn.
  - intros sd n k. revert sd. induction k as [|k IH]; intros sd; simpl; [done|].
    by rewrite IH.
  - intros sd n k i Hn. revert sd.
    induction k as [|k IH]; intros sd; simpl; [by intros ?%elem_of_nil|].
    intros [->|Hin]%elem_of_cons; [|by eapply IH].
    apply Nat.mod_upper_bound. lia.
Defined.

(** The engine of the examples enforces the primary keys: a row without
    cells, or whose first cell is not an integer, or whose first cell is the
    first cell of a row already in the table, is refused. *)
Definition primary_key (row : Ingest.Row) : option Z :=
  match row with
  | Ingest.VInt k :: _ => Some k
  | _ => None
  end.

Definition primary_key_engine : Ingest.Engine := {|
  Ingest.check_insert := λ db table row,
    match primary_key row with
    | None => Some ProgrammingError
    | Some k =>
        if bool_decide (Some k ∈ primary_key <$> db table)
        then Some IntegrityError else None
    end
|}.

(** ** Small inputs *)

Definition demo_customers : list Customer.t :=
  [Customer.mk 1 "Ada" "King" "ada@example.org" "555-0100" "1 Main St" "Turin"
     "Piedmont" "10100" "Italy" (mkdate 2023 3 1);
   Customer.mk 2 "Bo" "Lund" "bo@example.org" "555-0101" "2 Side St" "Lund"
     "Scania" "22100" "Sweden" (mkdate 2024 6 15)].

Definition demo_products : list Product.t :=
  [Product.mk 1 "Lamp" "Home & Garden" "A lamp" 19.5 10 "Acme" (mkdate 2023 1 2);
   Product.mk 2 "Ball" "Sports" "A ball" 5.25 0 "Acme" (mkdate 2023 1 3)].

Definition demo_orders : list Order.t :=
  [Order.mk 1 1 (mkdate 2023 4 1) 0 "Pending" "PayPal";
   Order.mk 2 2 (mkdate 2024 7 1) 0 "Shipped" "Credit Card";
   Order.mk 3 1 (mkdate 2023 5 9) 0 "Delivered" "Debit Card";
   Order.mk 4 1 (mkdate 2024 1 1) 0 "Cancelled" "PayPal";
   Order.mk 5 2 (mkdate 2024 11 30) 0 "Processing" "Cash on Delivery"].

Definition demo_items : list OrderItem.t :=
  [OrderItem.mk 1 1 2 2 5.25 10.5;
   OrderItem.mk 2 2 1 1 19.5 19.5;
   OrderItem.mk 3 2 2 4 5.25 21].

(** A process that has made no frame yet, and one that holds the five
    orders in its first frame. *)
Definition demo_start : Generate.World :=
  Generate.mkWorld (H := lcg_libraries) 42 42 ∅ [] [].

Definition demo_world : Generate.World :=
  Generate.mkWorld (H := lcg_libraries) 7 7 ∅ [demo_orders] [].

(** Every text the example provider can return, and a process in which
    [fake.unique] has handed all of them out. *)
Definition alphabet : list string :=
  (λ k, String (Ascii.ascii_of_N (Z.to_N (97 + k))) EmptyString) <$> seqZ 0 26.

Definition exhausted_world : Generate.World :=
  Generate.mkWorld (H := lcg_libraries) 42 42 (list_to_set alphabet) [] [].

(** A database in which the second query of the battery fails (a table is
    missing, which pandas reports) and the others have an answer. *)
Definition demo_connection : Analyze.Connection :=
  λ q, match q with
       | Analyze.product_performance_with_reviews => inl PandasDatabaseError
       | Analyze.top_customers_by_revenue =>
           inr ([["1"; "Ada King"; "ada@example.org"; "2"; "31.5"]]%string,
                0.5%float)
       | _ => inr ([], 0.25%float)
       end.

(** The same orders in a process whose generators are elsewhere. *)
Definition demo_world' : Generate.World :=
  Generate.mkWorld (H := lcg_libraries) 99 5 ∅ [[]; demo_orders] [].

(** Items whose orders are not in [demo_orders]. *)
Definition dangling_items : list OrderItem.t :=
  [OrderItem.mk 1 8 2 2 5.25 10.5; OrderItem.mk 2 9 1 1 19.5 19.5].

(** A data directory with the five files, two customers and one order; a
    dictionary of frames in which the second customer repeats the key of the
    first; one without the frame of the products. *)
Definition demo_dir : Ingest.DataDir :=
  {[ "customers.csv"%string :=
       inr [[Ingest.VInt 1; Ingest.VText "Ada"]; [Ingest.VInt 2; Ingest.VText "Bo"]];
     "products.csv"%string := inr [[Ingest.VInt 1; Ingest.VText "Lamp"]];
     "orders.csv"%string := inr [[Ingest.VInt 1; Ingest.VInt 2]];
     "order_items.csv"%string := inr [];
     "reviews.csv"%string := inr [] ]}.

Definition demo_frames : Ingest.Table → option (list Ingest.Row) :=
  λ t, match t with
       | Ingest.customers =>
           Some [[Ingest.VInt 1; Ingest.VText "Ada"]; [Ingest.VInt 2; Ingest.VText "Bo"]]
       | Ingest.products => Some [[Ingest.VInt 1; Ingest.VText "Lamp"]]
       | _ => Some []
       end.

Definition repeated_key_frames : Ingest.Table → option (list Ingest.Row) :=
  λ t, match t with
       | Ingest.customers =>
           Some [[Ingest.VInt 1; Ingest.VText "Ada"]; [Ingest.VInt 1; Ingest.VText "Bo"]]
       | _ => Some []
       end.

Definition frames_without_products : Ingest.Table → option (list Ingest.Row) :=
  λ t, match t with
       | Ingest.customers => Some [[Ingest.VInt 1; Ingest.VText "Ada"]]
       | Ingest.products => None
       | _ => Some []
       end.

(** A directory whose second customer has an id that does not fit 64 bits,
    in rows of the eleven columns of the table, and the frames read from
    it. *)
Definition wide_customer (id : Z) (first_name : string) : Ingest.Row :=
  [Ingest.VInt id; Ingest.VText first_name; Ingest.VText "King";
   Ingest.VText (first_name +:+ "@example.org"); Ingest.VNull; Ingest.VNull;
   Ingest.VNull; Ingest.VNull; Ingest.VNull; Ingest.VNull;
   Ingest.VText "2023-03-01"].

Definition overflow_dir : Ingest.DataDir :=
  {[ "customers.csv"%string :=
       inr [wide_customer 1 "Ada"; wide_customer (2 ^ 63) "Bo"];
     "products.csv"%string := inr [];
     "orders.csv"%string := inr [];
     "order_items.csv"%string := inr [];
     "reviews.csv"%string := inr [] ]}.

Definition overflow_frames : Ingest.Table → option (list Ingest.Row) :=
  λ t, match t with
       | Ingest.customers =>
           Some [wide_customer 1 "Ada"; wide_customer (2 ^ 63) "Bo"]
       | _ => Some []
       end.

(** Two orders and an item whose ids are beyond [2 ^ 53]. *)
Definition big_orders : list Order.t :=
  [Order.mk (2 ^ 53) 1 (mkdate 2023 4 1) 0 "Pending" "PayPal";
   Order.mk (2 ^ 53 + 1) 2 (mkdate 2024 7 1) 0 "Shipped" "Credit Card"].

Definition big_items : list OrderItem.t :=
  [OrderItem.mk 1 (2 ^ 53 + 1) (2 ^ 53 + 1) 1 19.5 19.5].

Definition big_world : Generate.World :=
  Generate.mkWorld (H := lcg_libraries) 7 7 ∅ [big_orders] [].

Definition empty_connection : Ingest.Connection :=
  Ingest.mkConnection (λ _, []) None [].

Definition busy_connection : Ingest.Connection :=
  Ingest.mkConnection (λ _, []) (Some (λ _, [[Ingest.VInt 7]])) [Ingest.BEGIN].

(** A database that answers the five queries, one of them with a row. *)
Definition answering_connection : Analyze.Connection :=
  λ q, match q with
       | Analyze.top_customers_by_revenue =>
           inr ([["1"; "Ada King"; "ada@example.org"; "2"; "31.5"]]%string,
                0.5%float)
       | _ => inr ([], 0.25%float)
       end.

(** * Properties *)

(** ** Rules of the state-and-exception monad *)

Section Rules.
Context {S : Type}.
Implicit Types s : S.

Lemma run_bind {A B} (c : Py S A) (k : A → Py S B) s :
  (c ≫= k) s = match c s with
               | (Returns a, s') => k a s'
               | (Raises e, s') => (Raises e, s')
               end.
Proof. reflexivity. Qed.

Lemma wpx_ret {A} (a : A) s Q E : Q a s → wpx (mret a : Py S A) s Q E.
Proof. done. Qed.

Lemma wpx_raise {A} e s (Q : A → S → Prop) E : E e s → wpx (raise e) s Q E.
Proof. done. Qed.

Lemma wpx_bind {A B} (c : Py S A) (k : A → Py S B) s Q E :
  wpx c s (λ a s', wpx (k a) s' Q E) E → wpx (c ≫= k) s Q E.
Proof. unfold wpx. rewrite run_bind. by destruct (c s) as [[a|e] s']. Qed.

Lemma wpx_mono {A} (c : Py S A) s (Q Q' : A → S → Prop) (E E' : Exception → S → Prop) :
  wpx c s Q E → (∀ a s', Q a s' → Q' a s') → (∀ e s', E e s' → E' e s') →
  wpx c s Q' E'.
Proof. unfold wpx. destruct (c s) as [[a|e] s']; eauto. Qed.

Lemma wpx_get s (Q : S → S → Prop) E : Q s s → wpx get s Q E.
Proof. done. Qed.

Lemma wpx_put s s0 (Q : unit → S → Prop) E : Q tt s0 → wpx (put s0) s Q E.
Proof. done. Qed.

Lemma wpx_returns {A} (c : Py S A) s Q :
  wpx c s Q never ↔ ∃ a s', c s = (Returns a, s') ∧ Q a s'.
Proof.
  unfold wpx, never. destruct (c s) as [[a|e] s']; split.
  - eauto.
  - by intros (? & ? & [= <- <-] & ?).
  - done.
  - by intros (? & ? & [=] & ?).
Qed.

(** The loop rule: [I] relates what the loop has appended so far to the
    state; [P] relates each element to what its turn appends. *)
Lemma wpx_for_each_acc {A B} (I : list B → S → Prop) (P : A → B → Prop) E
    (xs : list A) (body : A → Py S B) s :
  I [] s →
  (∀ x ys s, x ∈ xs → I ys s →
             wpx (body x) s (λ y s', P x y ∧ I (ys ++ [y]) s') E) →
  wpx (for_each xs body) s (λ ys s', Forall2 P xs ys ∧ I ys s') E.
Proof.
  intros HI Hbody.
  cut (∀ pre s, I pre s →
         wpx (for_each xs body) s
           (λ ys s', Forall2 P xs ys ∧ I (pre ++ ys) s') E).
  { intros Hgen. by apply (Hgen []). }
  clear HI. induction xs as [|x xs IH]; intros pre s0 Hpre; simpl.
  - apply wpx_ret. by rewrite app_nil_r.
  - apply wpx_bind.
    eapply wpx_mono; [apply (Hbody x pre s0); [left|done] | | done].
    intros y s1 [Hy Hs1]. apply wpx_bind.
    eapply wpx_mono; [apply (IH (λ x' ys' s' Hx', Hbody x' ys' s' (list_elem_of_further _ _ _ Hx')) (pre ++ [y]) s1 Hs1) | | done].
    intros ys s2 [Hys Hs2]. apply wpx_ret. split; [by constructor|].
    by rewrite <- app_assoc in Hs2.
Qed.

Lemma wpx_for_each {A B} (I : S → Prop) (P : A → B → Prop) E
    (xs : list A) (body : A → Py S B) s :
  I s →
  (∀ x s, x ∈ xs → I s → wpx (body x) s (λ y s', P x y ∧ I s') E) →
  wpx (for_each xs body) s (λ ys s', Forall2 P xs ys ∧ I s') E.
Proof.
  intros HI Hbody.
  apply (wpx_for_each_acc (λ _, I)); [done|]. intros x _ s0. apply Hbody.
Qed.

End Rules.

(** ** Rules of the generators' primitives *)

Section GeneratorRules.
Import Generate.
Context `{Libraries}.
Implicit Types w : World.

Lemma drawn_refl w : drawn w w.
Proof. done. Qed.

Lemma drawn_trans w1 w2 w3 : drawn w1 w2 → drawn w2 w3 → drawn w1 w3.
Proof. unfold drawn. intros (-> & -> & ->) (-> & -> & ->). done. Qed.

Lemma drawn_py w r : drawn w (set_py_random r w).
Proof. done. Qed.

Lemma drawn_faker w r : drawn w (set_faker_random r w).
Proof. done. Qed.

Lemma wpx_random_randbelow n w (Q : Z → World → Prop) E :
  (∀ i w', (0 < n → 0 ≤ i < n) → drawn w w' → Q i w') →
  wpx (random_randbelow n) w Q E.
Proof.
  intros HQ. unfold wpx, random_randbelow.
  pose proof (randbelow_bound n (py_random w)) as Hb.
  destruct (randbelow n (py_random w)) as [i r]. apply HQ; [done|apply drawn_py].
Qed.

Lemma wpx_random_choice {A} (seq : list A) w (Q : A → World → Prop) E :
  (seq = [] → E IndexError w) →
  (∀ x w', x ∈ seq → drawn w w' → Q x w') →
  wpx (random_choice seq) w Q E.
Proof.
  intros HE HQ. destruct seq as [|a seq]; [by apply wpx_raise, HE|].
  unfold random_choice. apply wpx_bind, wpx_random_randbelow.
  intros i w' Hi Hw'. apply wpx_ret, HQ; [|done].
  apply list_elem_of_In, nth_In. simpl in *. lia.
Qed.

Lemma wpx_random_randint a b w (Q : Z → World → Prop) E :
  (b < a → E ValueError w) →
  (∀ i w', a ≤ i ≤ b → drawn w w' → Q i w') →
  wpx (random_randint a b) w Q E.
Proof.
  intros HE HQ. unfold random_randint. destruct (Z.ltb_spec b a) as [Hlt|Hle].
  - by apply wpx_raise, HE.
  - apply wpx_bind, wpx_random_randbelow. intros i w' Hi Hw'.
    apply wpx_ret, HQ; [lia|done].
Qed.

Lemma wpx_random_uniform a b w (Q : float → World → Prop) E :
  (∀ x w', drawn w w' → Q x w') → wpx (random_uniform a b) w Q E.
Proof.
  intros HQ. unfold random_uniform. apply wpx_bind.
  unfold wpx at 1, random_random.
  destruct (random_unit (py_random w)) as [x r]. apply wpx_ret, HQ, drawn_py.
Qed.

Lemma wpx_fake p w (Q : string → World → Prop) E :
  (∀ v w', drawn w w' → Q v w') → wpx (fake p) w Q E.
Proof.
  intros HQ. unfold wpx, fake.
  destruct (provider p (faker_random w)) as [v r]. apply HQ, drawn_faker.
Qed.

Lemma wpx_date_between_dates a b w (Q : date → World → Prop) E :
  (b < a → E ValueError w) →
  (∀ d w', a ≤ d ≤ b → drawn w w' → Q d w') →
  wpx (date_between_dates a b) w Q E.
Proof.
  intros HE HQ. unfold date_between_dates. destruct (Z.ltb_spec b a) as [Hlt|Hle].
  - by apply wpx_raise, HE.
  - apply wpx_bind. unfold wpx at 1, faker_randbelow.
    pose proof (randbelow_bound (b - a + 1) (faker_random w)) as Hb.
    destruct (randbelow (b - a + 1) (faker_random w)) as [i r].
    apply wpx_ret, HQ; [simpl in Hb; lia|apply drawn_faker].
Qed.

Lemma wpx_set_index {A} (df : list A) w (Q : list A → World → Prop) E :
  (df = [] → E KeyError w) → (df ≠ [] → Q df w) →
  wpx (set_index df) w Q E.
Proof.
  intros HE HQ. destruct df; [by apply wpx_raise, HE|]. by apply wpx_ret, HQ.
Qed.

Lemma new_frame_run records w :
  new_frame records w
  = (Returns (length (frames w)), set_frames (frames w ++ [records]) w).
Proof. reflexivity. Qed.

Lemma read_frame_run l w :
  read_frame l w = (Returns (default [] (frames w !! l)), w).
Proof. reflexivity. Qed.

(** Rows with distinct labels: a label names one row. *)
Lemma same_key_same_row {A} (key : A → Z) (df : list A) x y :
  NoDup (key <$> df) → x ∈ df → y ∈ df → key x = key y → x = y.
Proof.
  induction df as [|r df IH]; simpl; [by intros _ ?%elem_of_nil|].
  intros [Hr Hnd]%NoDup_cons [->|Hx]%elem_of_cons [->|Hy]%elem_of_cons Hk;
    [done| | |by apply IH].
  - destruct Hr. rewrite Hk. by apply list_elem_of_fmap_2.
  - destruct Hr. rewrite <- Hk. by apply list_elem_of_fmap_2.
Qed.

Lemma filter_key_unique {A} (key : A → Z) (df : list A) r :
  NoDup (key <$> df) → r ∈ df → filter (λ x, key x = key r) df = [r].
Proof.
  induction df as [|a df IH]; simpl; [by intros _ ?%elem_of_nil|].
  intros [Ha Hnd]%NoDup_cons [->|Hr]%elem_of_cons.
  - rewrite filter_cons_True by done. f_equal.
    destruct (filter (λ x, key x = key a) df) as [|y l] eqn:Hf; [done|].
    assert (y ∈ filter (λ x, key x = key a) df) as [Hy Hin]%list_elem_of_filter
      by (rewrite Hf; left).
    destruct Ha. rewrite <- Hy. by apply list_elem_of_fmap_2.
  - rewrite filter_cons_False; [by apply IH|].
    intros Hk. destruct Ha. rewrite Hk. by apply list_elem_of_fmap_2.
Qed.

Lemma filter_key_missing {A} (key : A → Z) (df : list A) k :
  k ∉ key <$> df → filter (λ x, key x = k) df = [].
Proof.
  intros Hk. destruct (filter (λ x, key x = k) df) as [|y l] eqn:Hf; [done|].
  assert (y ∈ filter (λ x, key x = k) df) as [Hy Hin]%list_elem_of_filter
    by (rewrite Hf; left).
  destruct Hk. rewrite <- Hy. by apply list_elem_of_fmap_2.
Qed.

Lemma float64_int_exact z : Z.abs z ≤ 2 ^ 53 → float64_int z = z.
Proof.
  intros Hz. unfold float64_int.
  destruct (Z.ltb_spec (Z.abs z) (2 ^ 53)) as [_|Hge]; [done|].
  assert (z = 2 ^ 53 ∨ z = - 2 ^ 53) as [-> | ->] by lia; by vm_compute.
Qed.

(** On sample integers beyond [2 ^ 53], [float64_int z] converts to the
    binary64 number that [z] converts to: it is the value of that float. *)
Example float64_int_rounds_as_binary64 :
  Forall (λ z, float_of_int (float64_int z) = float_of_int z
               ∧ float64_int (float64_int z) = float64_int z)
    [2 ^ 53 + 1; 2 ^ 53 + 3; 2 ^ 60 + 129; 2 ^ 62 + 1023; - (2 ^ 53 + 1)].
Proof. repeat constructor; by vm_compute. Qed.

Lemma wpx_loc_rows {A} (key : A → Z) (df : list A) k w
    (Q : list A → World → Prop) E :
  NoDup (key <$> df) →
  (k ∉ key <$> df → E KeyError w) →
  (∀ r, r ∈ df → key r = k → Q [r] w) →
  wpx (loc_rows key df k) w Q E.
Proof.
  intros Hnd HE HQ. unfold loc_rows.
  destruct (decide (k ∈ key <$> df)) as [Hin|Hout].
  - apply list_elem_of_fmap in Hin as (r & -> & Hr).
    rewrite filter_key_unique by done. by apply wpx_ret, HQ.
  - rewrite filter_key_missing by done. by apply wpx_raise, HE.
Qed.

Lemma wpx_loc {A} (key : A → Z) (df : list A) k w (Q : A → World → Prop) E :
  NoDup (key <$> df) →
  (k ∉ key <$> df → E KeyError w) →
  (∀ r, r ∈ df → key r = k → Q r w) →
  wpx (loc key df k) w Q E.
Proof.
  intros Hnd HE HQ. unfold loc.
  destruct (decide (k ∈ key <$> df)) as [Hin|Hout].
  - apply list_elem_of_fmap in Hin as (r & -> & Hr).
    rewrite filter_key_unique by done. by apply wpx_ret, HQ.
  - rewrite filter_key_missing by done. by apply wpx_raise, HE.
Qed.

(** ** [generate_orders] *)

Lemma generate_orders_spec customers count w :
  customers ≠ [] →
  Forall (λ c, Customer.registration_date c ≤ DATA_END_DATE) customers →
  wpx (generate_orders customers count) w
    (λ l w', ∃ orders,
       Forall2 (order_of customers) (seqZ 1 count) orders
       ∧ l = length (frames w) ∧ frames w' = frames w ++ [orders]
       ∧ setitem_log w' = setitem_log w ∧ unique_seen w' = unique_seen w)
    never.
Proof.
  intros Hne Hreg. unfold generate_orders. apply wpx_bind.
  eapply wpx_mono;
    [apply (wpx_for_each (drawn w) (order_of customers)); [apply drawn_refl|] | |done].
  - intros order_id w0 _ Hw0.
    apply wpx_bind, wpx_random_choice; [done|]. intros c w1 Hc Hw1.
    apply wpx_bind, wpx_date_between_dates.
    { rewrite Forall_forall in Hreg. intros Hlt. specialize (Hreg c Hc). lia. }
    intros d w2 Hd Hw2.
    apply wpx_bind, wpx_random_choice; [done|]. intros st w3 _ Hw3.
    apply wpx_bind, wpx_random_choice; [done|]. intros pm w4 _ Hw4.
    apply wpx_ret. split.
    + repeat split; simpl; eauto.
    + repeat (eapply drawn_trans; [|eassumption]). done.
  - intros orders w' [Horders (Hseen & Hframes & Hlog)].
    unfold wpx. rewrite new_frame_run. exists orders. simpl.
    by rewrite Hframes, Hlog, Hseen.
Qed.

(** **** Claim C4 *)

(** C4. Every order produced by [generate_orders] references a customer
    sampled from the supplied customer set, and its [order_date] lies between
    that customer's [registration_date] and [DATA_END_DATE], both included: a
    customer never orders before registering. The customer set is the one
    the data model describes: not empty and registered by the end date. The
    frame is returned with [count] rows, numbered from 1. *)
Theorem generate_orders_after_registration customers count w :
  customers ≠ [] →
  Forall (λ c, Customer.registration_date c ≤ DATA_END_DATE) customers →
  ∃ l orders w',
    generate_orders customers count w = (Returns l, w')
    ∧ frames w' !! l = Some orders
    ∧ length orders = Z.to_nat count
    ∧ ∀ o, o ∈ orders →
        (∃ c, c ∈ customers
              ∧ Customer.customer_id c = Order.customer_id o
              ∧ Customer.registration_date c ≤ Order.order_date o ≤ DATA_END_DATE)
        ∧ (NoDup (Customer.customer_id <$> customers) →
           ∀ c, c ∈ customers →
                Customer.customer_id c = Order.customer_id o →
                Customer.registration_date c ≤ Order.order_date o).
Proof.
  intros Hne Hreg.
  destruct (proj1 (wpx_returns _ _ _) (generate_orders_spec customers count w Hne Hreg))
    as (l & w' & Hrun & orders & Horders & -> & Hframes & _).
  exists (length (frames w)), orders, w'. split; [done|]. split.
  { rewrite Hframes. by apply list_lookup_middle. }
  split.
  { rewrite <- (Forall2_length _ _ _ Horders). apply length_seqZ. }
  intros o [i Hi]%list_elem_of_lookup.
  destruct (Forall2_lookup_r _ _ _ _ _ Horders Hi)
    as (order_id & _ & _ & _ & c & Hc & Hid & Hdate).
  split; [by exists c|].
  intros Hnd c' Hc' Hid'.
  assert (c' = c) as ->; [|lia].
  apply (same_key_same_row Customer.customer_id customers); [done..|congruence].
Qed.

(** ** [generate_order_items] *)

Local Arguments credited : simpl never.
Local Arguments accumulate : simpl never.

Lemma accumulate_app a b order_id total :
  accumulate (a ++ b) order_id total
  = accumulate b order_id (accumulate a order_id total).
Proof. unfold accumulate. by rewrite filter_app, fmap_app, fold_left_app. Qed.

Lemma credited_app totals a b :
  credited totals (a ++ b) = credited (credited totals a) b.
Proof. apply fold_left_app. Qed.

Lemma credited_lookup items : ∀ (totals : gmap Z float) order_id,
  credited totals items !! order_id
  = accumulate items order_id <$> totals !! order_id.
Proof.
  induction items as [|it items IH]; intros totals order_id.
  { unfold credited, accumulate. simpl. by destruct (totals !! order_id). }
  change (credited totals (it :: items)) with (credited (credited totals [it]) items).
  rewrite IH. unfold accumulate, credited. simpl.
  destruct (decide (OrderItem.order_id it = order_id)) as [<-|Hne].
  - rewrite filter_cons_True by done. simpl.
    destruct (totals !! OrderItem.order_id it) as [t|] eqn:Ht.
    + by rewrite lookup_insert_eq.
    + by rewrite Ht.
  - rewrite filter_cons_False by done.
    destruct (totals !! OrderItem.order_id it) as [t|] eqn:Ht; [|done].
    by rewrite lookup_insert_ne.
Qed.

Lemma credited_is_Some (totals : gmap Z float) items order_id :
  is_Some (totals !! order_id) → is_Some (credited totals items !! order_id).
Proof. intros Hs. rewrite credited_lookup. by apply fmap_is_Some. Qed.

Lemma zeros_lookup (index : list Z) order_id :
  order_id ∈ index →
  (list_to_map ((λ k, (k, 0%float)) <$> index) : gmap Z float) !! order_id
  = Some 0%float.
Proof.
  induction index as [|k index IH]; [by intros ?%elem_of_nil|].
  intros Hin. simpl. destruct (decide (k = order_id)) as [->|Hne].
  - by rewrite lookup_insert_eq.
  - rewrite lookup_insert_ne by done. apply IH.
    apply elem_of_cons in Hin as [?|?]; [congruence|done].
Qed.

Lemma build_item_spec products totals record_id order_id w :
  products ≠ [] → NoDup (Product.product_id <$> products) →
  is_Some (totals !! order_id) →
  wpx (build_item products products totals record_id order_id) w
    (λ r w', drawn w w'
             ∧ OrderItem.order_item_id r.1 = record_id
             ∧ OrderItem.order_id r.1 = order_id
             ∧ item_ok products r.1
             ∧ r.2 = credited totals [r.1])
    never.
Proof.
  intros Hne Hnd [t Ht]. unfold build_item.
  apply wpx_bind, wpx_random_choice.
  { intros Hnil. by destruct products. }
  intros product_id w1 Hpid Hw1.
  apply wpx_bind, wpx_loc; [done|done|]. intros p Hp Hkey.
  apply wpx_bind, wpx_random_randint; [lia|]. intros q w2 Hq Hw2.
  apply wpx_bind. unfold add_to_total. rewrite Ht. apply wpx_ret, wpx_ret.
  simpl. split; [by eapply drawn_trans|]. repeat split.
  - by exists p.
  - unfold credited. simpl. by rewrite Ht.
Qed.

Lemma seed_items_spec products index : ∀ totals record_id w,
  products ≠ [] → NoDup (Product.product_id <$> products) →
  (∀ k, k ∈ index → is_Some (totals !! k)) →
  wpx (seed_items products products index totals record_id) w
    (λ r w', drawn w w'
             ∧ r.2 = record_id + Z.of_nat (length index)
             ∧ OrderItem.order_id <$> r.1.1 = index
             ∧ OrderItem.order_item_id <$> r.1.1
               = seqZ record_id (Z.of_nat (length index))
             ∧ Forall (item_ok products) r.1.1
             ∧ r.1.2 = credited totals r.1.1)
    never.
Proof.
  induction index as [|order_id index IH]; intros totals record_id w Hne Hnd Hdom; simpl.
  { apply wpx_ret. simpl. repeat split; [lia|constructor]. }
  apply wpx_bind.
  eapply wpx_mono; [apply build_item_spec; [done|done|apply Hdom; left] | |done].
  intros [item totals1] w1 (Hw1 & Hrid & Hoid & Hok & Htot). simpl in *.
  apply wpx_bind.
  eapply wpx_mono; [apply (IH totals1 (record_id + 1)); [done|done|] | |done].
  { intros k Hk. rewrite Htot. apply credited_is_Some, Hdom. by right. }
  intros [[items totals2] rid'] w2 (Hw2 & Hrid' & Hoids & Hrids & Hoks & Htot2).
  simpl in *. apply wpx_ret. cbn [fst snd length]. rewrite !fmap_cons.
  split; [by eapply drawn_trans|]. split; [lia|]. split; [by rewrite Hoid, Hoids|].
  split.
  { rewrite Hrid, Hrids, (seqZ_cons record_id) by lia.
    do 2 f_equal; lia. }
  split; [by constructor|].
  by rewrite Htot2, Htot.
Qed.

Lemma fill_items_spec products order_ids count : ∀ turns totals record_id w,
  products ≠ [] → NoDup (Product.product_id <$> products) →
  order_ids ≠ [] →
  (∀ k, k ∈ order_ids → is_Some (totals !! k)) →
  turns = Z.to_nat (count + 1 - record_id) →
  wpx (fill_items turns products products order_ids count totals record_id) w
    (λ r w', drawn w w'
             ∧ length r.1 = turns
             ∧ Forall (λ it, OrderItem.order_id it ∈ order_ids) r.1
             ∧ OrderItem.order_item_id <$> r.1
               = seqZ record_id (Z.of_nat turns)
             ∧ Forall (item_ok products) r.1
             ∧ r.2 = credited totals r.1)
    never.
Proof.
  induction turns as [|turns IH];
    intros totals record_id w Hne Hnd Hids Hdom Hturns; simpl.
  { apply wpx_ret. simpl. repeat split; constructor. }
  destruct (Z.leb_spec record_id count) as [Hle|Hgt]; [|lia].
  apply wpx_bind, wpx_random_choice; [done|]. intros order_id w0 Hoid0 Hw0.
  apply wpx_bind.
  eapply wpx_mono; [apply build_item_spec; [done|done|by apply Hdom] | |done].
  intros [item totals1] w1 (Hw1 & Hrid & Hoid & Hok & Htot). simpl in *.
  apply wpx_bind.
  eapply wpx_mono; [apply (IH totals1 (record_id + 1)); [done|done|done| |lia] | |done].
  { intros k Hk. rewrite Htot. by apply credited_is_Some, Hdom. }
  intros [items totals2] w2 (Hw2 & Hlen & Hoids & Hrids & Hoks & Htot2).
  simpl in *. apply wpx_ret. cbn [fst snd length]. rewrite !fmap_cons.
  split; [by repeat (eapply drawn_trans; [eassumption|])|].
  split; [by rewrite Hlen|]. split; [constructor; [by rewrite Hoid|done]|].
  split.
  { rewrite Hrid, Hrids, (seqZ_cons record_id) by lia.
    do 2 f_equal; lia. }
  split; [by constructor|].
  by rewrite Htot2, Htot.
Qed.

Lemma allocate_items_spec orders products count w :
  orders ≠ [] → products ≠ [] → NoDup (Product.product_id <$> products) →
  wpx (allocate_items orders products count) w
    (λ r w', drawn w w'
             ∧ allocation orders products count r.1
             ∧ ∀ o, o ∈ orders →
                    r.2 !! Order.order_id o
                    = Some (sum_subtotals r.1 (Order.order_id o)))
    never.
Proof.
  intros Horders Hproducts Hnd. unfold allocate_items.
  apply wpx_bind, wpx_set_index; [done|intros _].
  apply wpx_bind, wpx_set_index; [done|intros _].
  set (index := Order.order_id <$> orders).
  set (zeros := list_to_map ((λ k, (k, 0%float)) <$> index) : gmap Z float).
  assert (∀ k, k ∈ index → is_Some (zeros !! k)) as Hzeros.
  { intros k Hk. exists 0%float. by apply zeros_lookup. }
  apply wpx_bind.
  eapply wpx_mono; [by apply seed_items_spec | |done].
  intros [[seeded totals1] rid] w1 (Hw1 & Hrid & Hoids & Hrids & Hoks & Htot1).
  simpl in *. apply wpx_bind.
  assert (length seeded = length orders) as Hlen.
  { rewrite <- (length_fmap OrderItem.order_id), Hoids. apply length_fmap. }
  assert (length index = length orders) as Hlenidx by apply length_fmap.
  eapply wpx_mono;
    [apply (fill_items_spec products index count
              (Z.to_nat (count + 1 - rid)) totals1 rid w1); try done | |done].
  { intros Hnil. by destruct orders. }
  { intros k Hk. rewrite Htot1. by apply credited_is_Some, Hzeros. }
  intros [filled totals2] w2 (Hw2 & Hlen2 & Hoids2 & Hrids2 & Hoks2 & Htot2).
  simpl in *. apply wpx_ret. cbn [fst snd].
  split; [by eapply drawn_trans|]. split.
  - unfold allocation. rewrite <- Hlen.
    rewrite take_app_length, drop_app_length, length_app, Hlen2, Hlen.
    split; [f_equal; lia|]. split; [done|]. split; [done|]. split.
    + rewrite fmap_app, Hrids, Hrids2, Hrid, Hlenidx, Nat2Z.inj_add.
      rewrite <- seqZ_app by lia. done.
    + by apply Forall_app.
  - intros o Ho. rewrite Htot2, Htot1, <- credited_app, credited_lookup.
    unfold zeros. rewrite zeros_lookup; [done|].
    by apply list_elem_of_fmap_2.
Qed.

Lemma zip_finalize (totals : gmap Z float) items (orders : list Order.t) :
  (∀ o, o ∈ orders →
        totals !! Order.order_id o = Some (sum_subtotals items (Order.order_id o))) →
  zip_with Order.with_total_amount orders
    (series_round2 <$> series_map totals (Order.order_id <$> orders))
  = finalize items <$> orders.
Proof.
  unfold series_map.
  induction orders as [|o orders IH]; intros Htot; [done|].
  rewrite !fmap_cons. cbn [zip_with]. rewrite IH.
  - unfold finalize at 2. by rewrite (Htot o) by left.
  - intros o' Ho'. apply Htot. by right.
Qed.

(** The function in one step: the allocation, then the one assignment. *)
Lemma generate_order_items_run l products count w :
  generate_order_items l products count w
  = match allocate_items (default [] (frames w !! l)) products count w with
    | (Returns (items, totals), w1) =>
        let orders := default [] (frames w1 !! l) in
        (Returns items,
         set_setitem_log (setitem_log w1 ++ [(l, "total_amount"%string)])
           (set_frames
              (<[l := zip_with Order.with_total_amount orders
                        (series_round2 <$>
                           series_map totals (Order.order_id <$> orders))]>
                 (frames w1)) w1))
    | (Raises e, w1) => (Raises e, w1)
    end.
Proof.
  unfold generate_order_items. rewrite run_bind, read_frame_run.
  rewrite run_bind.
  by destruct (allocate_items _ products count w) as [[[items totals]|e] w1].
Qed.

Lemma generate_order_items_spec l orders products count w :
  frames w !! l = Some orders →
  orders ≠ [] → products ≠ [] → NoDup (Product.product_id <$> products) →
  ∃ items totals w1 w',
    allocate_items orders products count w = (Returns (items, totals), w1)
    ∧ drawn w w1
    ∧ generate_order_items l products count w = (Returns items, w')
    ∧ allocation orders products count items
    ∧ frames w' = <[l := finalize items <$> orders]> (frames w)
    ∧ setitem_log w' = setitem_log w ++ [(l, "total_amount"%string)]
    ∧ unique_seen w' = unique_seen w.
Proof.
  intros Hl Horders Hproducts Hnd.
  destruct (proj1 (wpx_returns _ _ _)
              (allocate_items_spec orders products count w Horders Hproducts Hnd))
    as ([items totals] & w1 & Hrun & Hw1 & Halloc & Htot).
  cbn [fst snd] in *. pose proof Hw1 as (Hseen & Hframes & Hlog).
  exists items, totals, w1. eexists. split; [done|]. split; [done|].
  rewrite generate_order_items_run, Hl. cbn [from_option id]. rewrite Hrun.
  split; [reflexivity|]. split; [done|]. cbn [frames setitem_log unique_seen
    set_setitem_log set_frames].
  rewrite Hframes, Hl, Hlog, Hseen. cbn [from_option id].
  by rewrite (zip_finalize totals items).
Qed.

Lemma draws_only_ret {A} (a : A) : draws_only (ret a).
Proof. intros w. apply drawn_refl. Qed.

Lemma draws_only_raise {A} e : draws_only (raise e : Py World A).
Proof. intros w. apply drawn_refl. Qed.

Lemma draws_only_bind {A B} (c : Py World A) (k : A → Py World B) :
  draws_only c → (∀ a, draws_only (k a)) → draws_only (c ≫= k).
Proof.
  intros Hc Hk w. rewrite run_bind. specialize (Hc w).
  destruct (c w) as [[a|e] w1]; [|done].
  eapply drawn_trans; [exact Hc|apply Hk].
Qed.

Lemma draws_only_random_randbelow n : draws_only (random_randbelow n).
Proof.
  intros w. unfold random_randbelow.
  destruct (randbelow n (py_random w)). apply drawn_py.
Qed.

Lemma draws_only_random_choice {A} (seq : list A) : draws_only (random_choice seq).
Proof.
  destruct seq; [apply draws_only_raise|].
  apply draws_only_bind; [apply draws_only_random_randbelow|].
  intros i. apply draws_only_ret.
Qed.

Lemma draws_only_random_randint a b : draws_only (random_randint a b).
Proof.
  unfold random_randint. destruct (b <? a); [apply draws_only_raise|].
  apply draws_only_bind; [apply draws_only_random_randbelow|].
  intros i. apply draws_only_ret.
Qed.

Lemma draws_only_loc {A} (key : A → Z) df k : draws_only (loc (S:=World) key df k).
Proof.
  unfold loc. destruct (filter _ df) as [|r [|]];
    [apply draws_only_raise|apply draws_only_ret|apply draws_only_raise].
Qed.

Lemma draws_only_set_index {A} (df : list A) : draws_only (set_index df).
Proof. destruct df; [apply draws_only_raise|apply draws_only_ret]. Qed.

Lemma draws_only_add_to_total totals order_id subtotal :
  draws_only (add_to_total totals order_id subtotal).
Proof.
  unfold add_to_total. destruct (totals !! order_id);
    [apply draws_only_ret|apply draws_only_raise].
Qed.

Create HintDb draws discriminated.
#[local] Hint Resolve draws_only_ret draws_only_raise draws_only_random_randbelow
  draws_only_random_choice draws_only_random_randint draws_only_loc
  draws_only_set_index draws_only_add_to_total : draws.

Ltac draws_bind := apply draws_only_bind; [auto with draws|].

Lemma draws_only_build_item products_df products totals record_id order_id :
  draws_only (build_item products_df products totals record_id order_id).
Proof.
  unfold build_item.
  draws_bind; intros product_id. draws_bind; intros product. cbv zeta.
  draws_bind; intros quantity. draws_bind; intros totals'.
  apply draws_only_ret.
Qed.

Lemma draws_only_seed_items products_df products index : ∀ totals record_id,
  draws_only (seed_items products_df products index totals record_id).
Proof.
  induction index as [|order_id index IH]; intros totals record_id; simpl.
  - apply draws_only_ret.
  - apply draws_only_bind; [apply draws_only_build_item|]. intros [item totals1].
    apply draws_only_bind; [apply IH|]. intros [[items totals2] rid].
    apply draws_only_ret.
Qed.

Lemma draws_only_fill_items products_df products order_ids count :
  ∀ turns totals record_id,
  draws_only (fill_items turns products_df products order_ids count totals record_id).
Proof.
  induction turns as [|turns IH]; intros totals record_id; simpl.
  - apply draws_only_ret.
  - destruct (record_id <=? count); [|apply draws_only_ret].
    apply draws_only_bind; [apply draws_only_random_choice|]. intros order_id.
    apply draws_only_bind; [apply draws_only_build_item|]. intros [item totals1].
    apply draws_only_bind; [apply IH|]. intros [items totals2].
    apply draws_only_ret.
Qed.

Lemma draws_only_allocate_items orders products count :
  draws_only (allocate_items orders products count).
Proof.
  unfold allocate_items.
  apply draws_only_bind; [apply draws_only_set_index|]. intros products'.
  apply draws_only_bind; [apply draws_only_set_index|]. intros orders'.
  apply draws_only_bind; [apply draws_only_seed_items|]. intros [[seeded totals] rid].
  apply draws_only_bind; [apply draws_only_fill_items|]. intros [filled totals'].
  apply draws_only_ret.
Qed.

Lemma take_seqZ m (n len : nat) :
  (n ≤ len)%nat → take n (seqZ m (Z.of_nat len)) = seqZ m (Z.of_nat n).
Proof.
  intros Hle. replace (Z.of_nat len) with (Z.of_nat n + Z.of_nat (len - n)) by lia.
  rewrite seqZ_app by lia. apply take_app_length'.
  rewrite length_seqZ. lia.
Qed.

(** **** Claim C1 *)

(** C1, as the code has it. A target count below the number of orders is
    not an error: [generate_order_items] has no check of the count, the loop
    that fills up to the count does not run, and the function returns exactly
    one item per order, in the order of the rows (here for a catalogue that is
    not empty and has distinct product ids). *)
Theorem generate_order_items_below_order_count l orders products count w :
  frames w !! l = Some orders →
  products ≠ [] → NoDup (Product.product_id <$> products) →
  0 ≤ count < Z.of_nat (length orders) →
  ∃ items w',
    generate_order_items l products count w = (Returns items, w')
    ∧ length items = length orders
    ∧ OrderItem.order_id <$> items = Order.order_id <$> orders.
Proof.
  intros Hl Hproducts Hnd Hcount.
  assert (orders ≠ []) as Horders by (intros ->; simpl in *; lia).
  destruct (generate_order_items_spec l orders products count w)
    as (items & totals & w1 & w' & _ & _ & Hrun & Halloc & _); [done..|].
  destruct Halloc as (Hlen & Hseed & _).
  assert (length items = length orders) as Hlen' by lia.
  exists items, w'. split; [done|]. split; [done|].
  by rewrite take_ge in Hseed by lia.
Qed.

(** **** Claim C3 *)

(** C3. For a frame of N orders (N at least 1), a catalogue that is not
    empty with distinct product ids, and a target count M with M ≥ N,
    [generate_order_items] returns M items; every order id appears in one of
    them; the first N items, numbered 1 to N, are one per order in the order
    of the rows whatever the generator draws, which is the ascending order
    1, ..., N of the ids [generate_orders] assigns; the M − N items that
    follow each reference an order of the frame. *)
Theorem generate_order_items_covers_orders l orders products count w :
  frames w !! l = Some orders →
  orders ≠ [] → products ≠ [] → NoDup (Product.product_id <$> products) →
  Z.of_nat (length orders) ≤ count →
  let n := length orders in
  ∃ items w',
    generate_order_items l products count w = (Returns items, w')
    ∧ length items = Z.to_nat count
    ∧ (∀ o, o ∈ orders →
            ∃ it, it ∈ items ∧ OrderItem.order_id it = Order.order_id o)
    ∧ OrderItem.order_id <$> take n items = Order.order_id <$> orders
    ∧ (Order.order_id <$> orders = seqZ 1 (Z.of_nat n) →
       OrderItem.order_id <$> take n items = seqZ 1 (Z.of_nat n))
    ∧ OrderItem.order_item_id <$> take n items = seqZ 1 (Z.of_nat n)
    ∧ length (drop n items) = Z.to_nat (count - Z.of_nat n)
    ∧ Forall (λ it, ∃ o, o ∈ orders ∧ OrderItem.order_id it = Order.order_id o)
        (drop n items).
Proof.
  intros Hl Horders Hproducts Hnd Hcount n.
  destruct (generate_order_items_spec l orders products count w)
    as (items & totals & w1 & w' & _ & _ & Hrun & Halloc & _); [done..|].
  destruct Halloc as (Hlen & Hseed & Hfill & Hids & _). fold n in Hlen, Hseed, Hfill.
  exists items, w'. split; [done|]. split; [lia|]. split.
  { intros o Ho.
    assert (Order.order_id o ∈ OrderItem.order_id <$> take n items)
      as (it & Hit & Hin)%list_elem_of_fmap
      by (rewrite Hseed; by apply list_elem_of_fmap_2).
    exists it. split; [|done].
    rewrite <- (take_drop n items). apply elem_of_app. by left. }
  split; [done|]. split; [by intros <-|]. split.
  { rewrite fmap_take, Hids. apply take_seqZ. lia. }
  split; [rewrite length_drop; lia|].
  eapply Forall_impl; [exact Hfill|]. intros it Hit. simpl in Hit.
  apply list_elem_of_fmap in Hit as (o & Ho & Hin). by exists o.
Qed.

(** **** Claim C2 *)


(** **** Claim C10 *)

Lemma with_total_amount_rows (orders : list Order.t) (values : list float) :
  length values = length orders →
  Forall2 (λ o o', Order.order_id o' = Order.order_id o
                   ∧ Order.customer_id o' = Order.customer_id o
                   ∧ Order.order_date o' = Order.order_date o
                   ∧ Order.status o' = Order.status o
                   ∧ Order.payment_method o' = Order.payment_method o)
    orders (zip_with Order.with_total_amount orders values).
Proof.
  revert values. induction orders as [|o orders IH]; intros [|v values] Hlen;
    simplify_eq/=; constructor; [done|]. by apply IH.
Qed.

(** C10. [generate_order_items] works on the frame the caller passed: after
    the call, whether it returned or raised, the frame at the caller's
    reference has the same number of rows, and each row has the [order_id],
    [customer_id], [order_date], [status] and [payment_method] it had, at the
    same position; no frame is added to the store and the other frames are
    as they were. When the call returns, the frame is the old one with a
    value assigned to each cell of [total_amount], and that column
    assignment is the only one logged; when it raises, nothing was
    assigned. *)
Theorem generate_order_items_only_assigns_total_amount
    l orders products count w outcome w' :
  frames w !! l = Some orders →
  generate_order_items l products count w = (outcome, w') →
  ∃ orders',
    frames w' !! l = Some orders'
    ∧ length orders' = length orders
    ∧ Forall2 (λ o o', Order.order_id o' = Order.order_id o
                       ∧ Order.customer_id o' = Order.customer_id o
                       ∧ Order.order_date o' = Order.order_date o
                       ∧ Order.status o' = Order.status o
                       ∧ Order.payment_method o' = Order.payment_method o)
        orders orders'
    ∧ length (frames w') = length (frames w)
    ∧ (∀ l', l' ≠ l → frames w' !! l' = frames w !! l')
    ∧ match outcome with
      | Returns _ =>
          (∃ values, length values = length orders
                     ∧ orders' = zip_with Order.with_total_amount orders values)
          ∧ setitem_log w' = setitem_log w ++ [(l, "total_amount"%string)]
      | Raises _ => orders' = orders ∧ setitem_log w' = setitem_log w
      end.
Proof.
  intros Hl. rewrite generate_order_items_run, Hl. cbn [from_option id].
  pose proof (draws_only_allocate_items orders products count w) as Hdrawn.
  destruct (allocate_items orders products count w) as [[[items totals]|e] w1].
  - destruct Hdrawn as (_ & Hframes & Hlog). cbn [snd] in *.
    intros [= <- <-]. cbn [frames setitem_log set_setitem_log set_frames].
    rewrite Hframes, Hl, Hlog. cbn [from_option id].
    set (values := series_round2 <$> series_map totals (Order.order_id <$> orders)).
    assert (length values = length orders) as Hlen
      by (unfold values, series_map; by rewrite !length_fmap).
    exists (zip_with Order.with_total_amount orders values).
    split; [apply list_lookup_insert_eq; by eapply lookup_lt_Some|].
    split; [by rewrite length_zip_with_l_eq|].
    split; [by apply with_total_amount_rows|].
    split; [apply length_insert|].
    split; [intros l' Hl'; by apply list_lookup_insert_ne|].
    split; [by exists values|done].
  - destruct Hdrawn as (_ & Hframes & Hlog). cbn [snd] in *.
    intros [= <- <-]. exists orders. rewrite Hframes, Hl, Hlog.
    split; [done|]. split; [done|].
    split; [apply Forall2_same_length_lookup_2; [done|]; intros; by simplify_eq|].
    done.
Qed.

(** ** [generate_reviews] *)


(** **** Claim C5 *)


(** ** [generate_customers] *)

Lemma unique_attempts_spec p generated : ∀ attempts retval w,
  wpx (unique_attempts attempts (fake p) generated retval) w
    (λ v w', (v ∉ generated) ∧ drawn w w')
    (λ e w', e = UniquenessException ∧ drawn w w').
Proof.
  induction attempts as [|attempts IH]; intros retval w; simpl.
  { by apply wpx_raise. }
  assert (wpx (fake p ≫= λ v', unique_attempts attempts (fake p) generated (Some v')) w
            (λ v w', (v ∉ generated) ∧ drawn w w')
            (λ e w', e = UniquenessException ∧ drawn w w')) as Hdraw.
  { apply wpx_bind, wpx_fake. intros v' w1 Hw1.
    eapply wpx_mono; [apply IH| |]; simpl.
    - intros v w2 [Hv Hw2]. split; [done|by eapply drawn_trans].
    - intros e w2 [He Hw2]. split; [done|by eapply drawn_trans]. }
  destruct retval as [v|]; [|exact Hdraw].
  destruct (decide (v ∈ generated)); [exact Hdraw|by apply wpx_ret].
Qed.

Lemma wpx_fake_unique p w (Q : string → World → Prop) E :
  (∀ v w', v ∉ unique_seen w →
           unique_seen w' = {[v]} ∪ unique_seen w →
           frames w' = frames w → setitem_log w' = setitem_log w → Q v w') →
  (∀ w', drawn w w' → E UniquenessException w') →
  wpx (fake_unique p) w Q E.
Proof.
  intros HQ HE. unfold fake_unique. apply wpx_bind, wpx_get, wpx_bind.
  eapply wpx_mono; [apply unique_attempts_spec| |]; simpl.
  - intros v w1 [Hv (Hseen & Hframes & Hlog)].
    apply wpx_bind, wpx_get, wpx_bind, wpx_put, wpx_ret.
    apply HQ; simpl; [done|by rewrite Hseen|done|done].
  - intros e w1 [-> Hw1]. by apply HE.
Qed.

(** When the provider only has values that were handed out before, the
    attempts run out. *)
Lemma unique_attempts_exhausted p generated :
  (∀ s, (provider p s).1 ∈ generated) →
  ∀ attempts retval w,
    (∀ v, retval = Some v → v ∈ generated) →
    wpx (unique_attempts attempts (fake p) generated retval) w
      (λ _ _, False) (λ e _, e = UniquenessException).
Proof.
  intros Hall. induction attempts as [|attempts IH]; intros retval w Hret; simpl.
  { by apply wpx_raise. }
  assert (wpx (fake p ≫= λ v', unique_attempts attempts (fake p) generated (Some v')) w
            (λ _ _, False) (λ e _, e = UniquenessException)) as Hdraw.
  { apply wpx_bind. unfold wpx at 1, fake. specialize (Hall (faker_random w)).
    destruct (provider p (faker_random w)) as [v r]. apply IH.
    by intros ? [= <-]. }
  destruct retval as [v|]; [|exact Hdraw].
  destruct (decide (v ∈ generated)) as [|Hout]; [exact Hdraw|].
  destruct Hout. by apply Hret.
Qed.

Lemma registration_range : ¬ DATA_END_DATE < REGISTRATION_START.
Proof. by vm_compute. Qed.

(** **** Claim C8 *)

(** C8. For every count and every state of the generators,
    [generate_customers] either returns [count] customers, numbered from 1,
    whose emails are pairwise distinct (and distinct from the emails
    [fake.unique] handed out before), or raises [UniquenessException]: the
    set is never returned shortened or with a repeated email, and no other
    failure exists. When the email provider has no value left that was not
    handed out before, the call for the first customer raises. *)
Theorem generate_customers_unique_emails count w :
  match generate_customers count w with
  | (Returns customers, w') =>
      length customers = Z.to_nat count
      ∧ Customer.customer_id <$> customers = seqZ 1 count
      ∧ NoDup (Customer.email <$> customers)
      ∧ ∀ c, c ∈ customers → Customer.email c ∉ unique_seen w
  | (Raises e, _) => e = UniquenessException
  end
  ∧ (0 < count →
     (∀ s, (provider email s).1 ∈ unique_seen w) →
     (generate_customers count w).1 = Raises UniquenessException).
Proof.
  split.
  - set (I := λ (cs : list Customer.t) (w' : World),
           NoDup (Customer.email <$> cs)
           ∧ unique_seen w ⊆ unique_seen w'
           ∧ (∀ c, c ∈ cs → Customer.email c ∈ unique_seen w')
           ∧ (∀ c, c ∈ cs → Customer.email c ∉ unique_seen w)).
    set (P := λ (customer_id : Z) (c : Customer.t), Customer.customer_id c = customer_id).
    assert (wpx (generate_customers count) w
              (λ cs w', Forall2 P (seqZ 1 count) cs ∧ I cs w')
              (λ e _, e = UniquenessException)) as Hspec.
    { apply wpx_for_each_acc.
      { unfold I. simpl. split; [constructor|]. split; [done|].
        split; by intros ? ?%elem_of_nil. }
      intros customer_id cs w0 _ (Hnd & Hsub & Hseen & Hfresh).
      apply wpx_bind, wpx_date_between_dates; [by intros ?%registration_range|].
      intros d w1 _ (Hs1 & _).
      apply wpx_bind, wpx_fake. intros fn w2 (Hs2 & _).
      apply wpx_bind, wpx_fake. intros ln w3 (Hs3 & _).
      apply wpx_bind, wpx_fake_unique; [|done]. intros em w4 Hem Hs4 _ _.
      apply wpx_bind, wpx_fake. intros ph w5 (Hs5 & _).
      apply wpx_bind, wpx_fake. intros ad w6 (Hs6 & _).
      apply wpx_bind, wpx_fake. intros ci w7 (Hs7 & _).
      apply wpx_bind, wpx_fake. intros st w8 (Hs8 & _).
      apply wpx_bind, wpx_fake. intros zp w9 (Hs9 & _).
      apply wpx_bind, wpx_fake. intros co w10 (Hs10 & _).
      apply wpx_ret. split; [done|].
      assert (unique_seen w10 = {[em]} ∪ unique_seen w0) as Hs10' by congruence.
      assert (unique_seen w3 = unique_seen w0) as Hs3' by congruence.
      rewrite Hs3' in Hem. unfold I. rewrite Hs10', fmap_app. simpl.
      split.
      { apply NoDup_app. split; [done|]. split; [|apply NoDup_singleton].
        intros e (c & -> & Hc)%list_elem_of_fmap Heq%list_elem_of_singleton.
        apply Hem. rewrite <- Heq. by apply Hseen. }
      split; [by apply union_subseteq_r'|]. split.
      - intros c [Hc| ->%list_elem_of_singleton]%elem_of_app; simpl.
        + by apply elem_of_union_r, Hseen.
        + by apply elem_of_union_l, elem_of_singleton.
      - intros c [Hc| ->%list_elem_of_singleton]%elem_of_app; simpl; [by apply Hfresh|].
        intros Hin. by apply Hem, Hsub. }
    unfold wpx in Hspec.
    destruct (generate_customers count w) as [[cs|e] w']; [|done].
    destruct Hspec as (Hids & Hnd & _ & _ & Hfresh).
    split; [rewrite <- (Forall2_length _ _ _ Hids); apply length_seqZ|].
    split; [|done].
    clear -Hids. induction Hids as [|?????? IH]; [done|].
    rewrite fmap_cons. by f_equal.
  - intros Hcount Hall.
    assert (wpx (generate_customers count) w (λ _ _, False)
              (λ e _, e = UniquenessException)) as Hspec.
    { unfold generate_customers. rewrite seqZ_cons by done. simpl.
      apply wpx_bind, wpx_bind.
      apply wpx_date_between_dates; [by intros ?%registration_range|].
      intros d w1 _ (Hs1 & _).
      apply wpx_bind, wpx_fake. intros fn w2 (Hs2 & _).
      apply wpx_bind, wpx_fake. intros ln w3 (Hs3 & _).
      apply wpx_bind. unfold fake_unique. apply wpx_bind, wpx_get, wpx_bind.
      eapply wpx_mono; [apply unique_attempts_exhausted; [|done]|done|done].
      intros s. rewrite Hs3, Hs2, Hs1. apply Hall. }
    unfold wpx in Hspec.
    by destruct (generate_customers count w) as [[cs|e] w']; [|subst].
Qed.

(** ** [main] *)

Lemma main_run w (disk : option (gmap string Csv)) :
  main (w, disk)
  = match generate_all (seeded w) with
    | (Returns (customers_df, products_df, orders_df, order_items_df, reviews_df), w') =>
        (Returns tt,
         (w', Some
                (<["reviews.csv"%string := ReviewsCsv reviews_df]>
                   (<["order_items.csv"%string := OrderItemsCsv order_items_df]>
                      (<["orders.csv"%string :=
                           OrdersCsv (default [] (frames w' !! orders_df))]>
                         (<["products.csv"%string := ProductsCsv products_df]>
                            (<["customers.csv"%string := CustomersCsv customers_df]>
                               (default ∅ disk))))))))
    | (Raises e, w') =>
        (Raises (RuntimeError "Data generation failed" e),
         (w', Some (default ∅ disk)))
    end.
Proof.
  unfold main, save_dataframe, mbind, Py_bind, bind, try_except, lift,
    ensure_data_directory, to_csv.
  change (seed_all 42 w) with (Returns tt, seeded w). cbv iota beta.
  by destruct (generate_all (seeded w))
    as [[[[[[customers_df products_df] orders_df] order_items_df] reviews_df]|e] w'].
Qed.

(** **** Claim C9 *)

(** C9. Two runs of the script, started in processes whose generators are
    in any two states and whose data directories hold any files or do not
    exist yet, end alike:
    either both raise the same exception, or both return and the five entity
    files of one have the content of the five entity files of the other.
    Nothing but the seed 42 of [random.seed], [Faker.seed] and
    [random_state], and the counts, decides what is generated. *)
Theorem main_deterministic r1 f1 seen1 disk1 r2 f2 seen2 disk2 :
  observable (main (process_start r1 f1 seen1, disk1))
  = observable (main (process_start r2 f2 seen2, disk2)).
Proof.
  rewrite !main_run.
  change (seeded (process_start r2 f2 seen2)) with (seeded (process_start r1 f1 seen1)).
  destruct (generate_all (seeded (process_start r1 f1 seen1)))
    as [[[[[[customers_df products_df] orders_df] order_items_df] reviews_df]|e] w'];
    [|done].
  unfold observable, entity_files. cbn [fmap list_fmap from_option id].
  by repeat (rewrite lookup_insert; case_decide; try done).
Qed.

End GeneratorRules.

(** ** [insert_data] *)

Section IngestProperties.
Import Ingest.
Context `{Engine}.
Implicit Types c : Connection.

Lemma in_transaction_trans c1 c2 c3 :
  in_transaction c1 c2 → in_transaction c2 c3 → in_transaction c1 c3.
Proof.
  intros (Hc & _ & new1 & Hj1 & Hn1) (Hc' & Ht & new2 & Hj2 & Hn2).
  split; [congruence|]. split; [done|]. exists (new1 ++ new2).
  split; [by rewrite Hj2, Hj1, app_assoc|by apply Forall_app].
Qed.

Lemma inserts_spec table rows : ∀ c db,
  transaction c = Some db →
  wpx (for_each rows (execute_insert table)) c
    (λ _ c', committed c' = committed c
             ∧ transaction c' = Some (foldl run_statement db (INSERT table <$> rows))
             ∧ journal c' = journal c ++ (INSERT table <$> rows))
    (λ e c', ((∃ kind, e = DatabaseError kind)
              ∨ (e = OverflowError ∧ ∃ row, row ∈ rows ∧ binds row = false))
             ∧ in_transaction c c').
Proof.
  induction rows as [|row rows IH]; intros c db Hdb; simpl.
  { apply wpx_ret. by rewrite app_nil_r. }
  apply wpx_bind. unfold wpx at 1, execute_insert. rewrite Hdb.
  destruct ((length row =? parameters table)%nat && negb (binds row)) eqn:Hbind.
  { apply andb_true_iff in Hbind as [_ Hbind%negb_true_iff].
    split; [right; split; [done|]; exists row; split; [left|done]|].
    split; [done|]. split; [done|]. exists []. by rewrite app_nil_r. }
  destruct (check_insert db table row) as [kind|].
  { split; [left; by exists kind|]. split; [done|]. split; [done|].
    exists []. by rewrite app_nil_r. }
  apply wpx_bind.
  eapply wpx_mono; [by apply IH| |]; simpl.
  - intros units c' (Hc & Ht & Hj). apply wpx_ret.
    split; [done|]. split; [done|]. by rewrite Hj, <- app_assoc.
  - intros e c' (He & Hc & Ht & new & Hj & Hnew). split.
    { destruct He as [?|(-> & row' & Hin & Hrow')]; [by left|right].
      split; [done|]. exists row'. split; [by right|done]. }
    split; [done|]. split; [done|]. exists (INSERT table row :: new).
    split; [simpl in Hj; by rewrite Hj, <- app_assoc|by constructor].
Qed.

Lemma statements_of_cons dataframes t tables :
  statements_of dataframes (t :: tables)
  = (INSERT t <$> default [] (dataframes t)) ++ statements_of dataframes tables.
Proof. reflexivity. Qed.

Local Arguments statements_of : simpl never.

Lemma load_spec dataframes tables : ∀ c db,
  transaction c = Some db →
  wpx (for_each tables (λ table_name,
         df ← match dataframes table_name with
              | Some df => ret df
              | None => raise KeyError
              end;
         let rows := df in
         executemany table_name rows)) c
    (λ _ c', committed c' = committed c
             ∧ transaction c'
               = Some (foldl run_statement db (statements_of dataframes tables))
             ∧ journal c' = journal c ++ statements_of dataframes tables)
    (λ e c', ((∃ kind, e = DatabaseError kind)
              ∨ (e = KeyError ∧ ∃ t, dataframes t = None)
              ∨ (e = OverflowError
                 ∧ ∃ t rows row, dataframes t = Some rows ∧ row ∈ rows
                                 ∧ binds row = false))
             ∧ in_transaction c c').
Proof.
  induction tables as [|t tables IH]; intros c db Hdb; simpl.
  { apply wpx_ret. by rewrite app_nil_r. }
  assert (in_transaction c c) as Hrefl.
  { split; [done|]. split; [by rewrite Hdb|]. exists []. by rewrite app_nil_r. }
  apply wpx_bind, wpx_bind. destruct (dataframes t) as [rows|] eqn:Ht.
  2:{ apply wpx_raise. split; [right; left; eauto|done]. }
  apply wpx_ret. unfold executemany. apply wpx_bind.
  eapply wpx_mono; [by apply inserts_spec| |]; simpl.
  - intros units c1 (Hc1 & Ht1 & Hj1). apply wpx_ret, wpx_bind.
    eapply wpx_mono; [by apply IH| |]; simpl.
    + intros units' c2 (Hc2 & Ht2 & Hj2). apply wpx_ret.
      rewrite statements_of_cons, Ht, foldl_app. simpl.
      split; [congruence|]. split; [done|]. by rewrite Hj2, Hj1, <- app_assoc.
    + intros e c2 [He Hin]. split; [done|].
      eapply in_transaction_trans; [|exact Hin].
      split; [done|]. split; [by rewrite Ht1|]. eexists. split; [done|].
      apply Forall_fmap, Forall_forall. by intros.
  - intros e c1 [He Hin]. split; [|done].
    destruct He as [?|(-> & row & Hrow & Hbind)]; [by left|].
    right. right. split; [done|]. by exists t, rows, row.
Qed.

(** **** Claim C7 *)

(** C7. [insert_data] loads the five frames in one transaction and commits
    once: when it returns, one [BEGIN], the [INSERT]s of all the rows of the
    five tables in order and one [COMMIT] were executed, and all the rows are
    committed together. When it raises, what is committed is what was
    committed before the call and no [COMMIT] was executed: a failed
    statement ([sqlite3.DatabaseError], such as a constraint violation) makes
    it roll the transaction back and raise
    [RuntimeError("Insertion failed ...")]. The only other failures are not
    failures of the database and are not handled: a frame missing from the
    dictionary ([KeyError]) and an integer of a row that does not fit 64
    bits ([OverflowError]). *)
Theorem insert_data_all_or_nothing dataframes c :
  match insert_data dataframes c with
  | (Returns _, c') =>
      transaction c = None ∧ transaction c' = None
      ∧ journal c'
        = journal c ++ [BEGIN] ++ statements_of dataframes insert_statements
            ++ [COMMIT]
      ∧ committed c'
        = foldl run_statement (committed c)
            (statements_of dataframes insert_statements)
  | (Raises e, c') =>
      committed c' = committed c
      ∧ (∃ new, journal c' = journal c ++ new ∧ COMMIT ∉ new)
      ∧ ((∃ kind, e = RuntimeError "Insertion failed" (DatabaseError kind)
                  ∧ transaction c' = None)
         ∨ (e = KeyError ∧ ∃ t, dataframes t = None)
         ∨ (e = OverflowError
            ∧ ∃ t rows row, dataframes t = Some rows ∧ row ∈ rows
                            ∧ binds row = false))
  end.
Proof.
  unfold insert_data, try_except. rewrite run_bind. unfold execute_begin at 1.
  destruct (transaction c) as [open|] eqn:Hopen.
  { (* a transaction is open already: BEGIN fails *)
    cbn [is_database_error]. rewrite run_bind. unfold rollback. rewrite Hopen.
    cbn. split; [done|]. split.
    - exists [ROLLBACK]. split; [done|]. by intros [=]%list_elem_of_singleton.
    - left. by exists OperationalError. }
  set (c1 := mkConnection (committed c) (Some (committed c)) (journal c ++ [BEGIN])).
  rewrite run_bind.
  pose proof (load_spec dataframes insert_statements c1 (committed c) eq_refl) as Hload.
  unfold wpx in Hload.
  match type of Hload with
  | match ?run with _ => _ end => destruct run as [[u|e] c2]
  end.
  - destruct Hload as (Hc2 & Ht2 & Hj2). unfold commit. rewrite Ht2.
    split; [done|]. split; [done|]. split; [|done].
    cbn [journal]. rewrite Hj2. cbn [journal c1]. by rewrite <- !app_assoc.
  - destruct Hload as (He & Hc2 & [open Ht2] & new & Hj2 & Hnew).
    assert (COMMIT ∉ [BEGIN] ++ new) as Hnocommit.
    { intros [[=]%list_elem_of_singleton|Hin]%elem_of_app.
      rewrite Forall_forall in Hnew. by apply Hnew in Hin. }
    destruct He as [[kind ->]|[[-> Hmissing]|[-> Hbind]]]; cbn [is_database_error].
    + rewrite run_bind. unfold rollback. rewrite Ht2. cbn.
      split; [done|]. split.
      * exists (([BEGIN] ++ new) ++ [ROLLBACK]). rewrite Hj2. cbn [journal c1].
        split; [by rewrite <- !app_assoc|].
        intros [?|[=]%list_elem_of_singleton]%elem_of_app. done.
      * left. by exists kind.
    + split; [done|]. split; [|by right; left].
      exists ([BEGIN] ++ new). rewrite Hj2. cbn [journal c1].
      by rewrite <- app_assoc.
    + split; [done|]. split; [|by right; right].
      exists ([BEGIN] ++ new). rewrite Hj2. cbn [journal c1].
      by rewrite <- app_assoc.
Qed.

End IngestProperties.

(** ** The analysis run *)

Section AnalyzeProperties.
Import Analyze.
Implicit Types s : Session.

Lemma execute_and_report_fails connection q error s :
  connection q = inl error →
  execute_and_report connection q s
  = (Raises (surfaced error),
     mkSession (stdout s ++ [Running (name q)]) (results_dir s)).
Proof.
  intros Hq. unfold execute_and_report, surfaced.
  unfold mbind, Py_bind, bind, try_except, print, raise.
  rewrite Hq. by destruct (is_database_error error).
Qed.

Lemma execute_and_report_returns connection q dataframe duration s :
  connection q = inr (dataframe, duration) →
  execute_and_report connection q s
  = (Returns (name q, length dataframe, duration),
     mkSession (stdout s ++ report connection q)
       (export connection (results_dir s) q)).
Proof.
  intros Hq. unfold execute_and_report, report, export.
  unfold mbind, Py_bind, bind, try_except, print, to_csv, ret. rewrite Hq. cbn.
  by rewrite <- !app_assoc.
Qed.

Lemma battery_fails_at connection error q after : ∀ before s,
  (∀ p, p ∈ before → ∃ answer, connection p = inr answer) →
  connection q = inl error →
  for_each (before ++ q :: after) (execute_and_report connection) s
  = (Raises (surfaced error),
     mkSession
       (stdout s ++ (before ≫= report connection) ++ [Running (name q)])
       (foldl (export connection) (results_dir s) before)).
Proof.
  induction before as [|p before IH]; intros s Hbefore Hq; simpl.
  { rewrite run_bind. by rewrite (execute_and_report_fails _ _ error). }
  destruct (Hbefore p) as [[dataframe duration] Hp]; [left|].
  rewrite run_bind, (execute_and_report_returns _ _ dataframe duration) by done.
  rewrite run_bind, IH; [|intros; apply Hbefore; by right|done].
  cbn [stdout results_dir]. by rewrite <- !app_assoc.
Qed.

(** **** Claim C6 *)

(** C6, as the code has it. The battery runs inside one [try]: when
    [pd.read_sql_query] raises for a query, whatever the exception, the
    queries before it have run and exported their results, the failing query
    has only been announced, and the run ends there with
    [RuntimeError("Analysis failed ...")] caused by the exception that left
    [execute_and_report] (the error of pandas as it is, since the handler of
    [execute_and_report] is for [sqlite3.DatabaseError] only): the queries
    after it are not run, nothing is exported for them, and neither the
    summary nor the completion message is printed. *)
Theorem main_aborts_at_first_failing_query connection s before q after error :
  query_functions = before ++ q :: after →
  (∀ p, p ∈ before → ∃ answer, connection p = inr answer) →
  connection q = inl error →
  ∃ s',
    main true connection s
    = (Raises (RuntimeError "Analysis failed" (surfaced error)), s')
    ∧ stdout s'
      = stdout s ++ (before ≫= report connection) ++ [Running (name q)]
    ∧ results_dir s' = foldl (export connection) (results_dir s) before.
Proof.
  intros Hsplit Hbefore Hq. eexists. unfold main. cbn [negb].
  rewrite run_bind. unfold try_except.
  rewrite Hsplit, (battery_fails_at connection error q after before s Hbefore Hq).
  cbn. done.
Qed.

End AnalyzeProperties.

(** * The properties on small inputs *)

Section Examples.
Import Generate.

Lemma demo_customers_registered :
  Forall (λ c, Customer.registration_date c ≤ DATA_END_DATE) demo_customers.
Proof. repeat constructor; by vm_compute. Qed.

Lemma demo_products_distinct : NoDup (Product.product_id <$> demo_products).
Proof. apply (bool_decide_unpack _). by vm_compute. Qed.

Lemma demo_orders_distinct : NoDup (Order.order_id <$> demo_orders).
Proof. apply (bool_decide_unpack _). by vm_compute. Qed.

Lemma demo_orders_dated :
  Forall (λ o, Order.order_date o ≤ DATA_END_DATE) demo_orders.
Proof. repeat constructor; by vm_compute. Qed.

Lemma demo_items_reference_orders :
  Forall (λ it, OrderItem.order_id it ∈ Order.order_id <$> demo_orders) demo_items.
Proof. repeat constructor; apply (bool_decide_unpack _); by vm_compute. Qed.

Lemma demo_items_exact : exact_ids demo_items.
Proof. repeat constructor; by vm_compute. Qed.

Lemma generate_orders_after_registration_witness :
  demo_customers ≠ []
  ∧ ∃ l orders w',
      generate_orders (H := lcg_libraries) demo_customers 3 demo_start
      = (Returns l, w')
      ∧ frames w' !! l = Some orders ∧ length orders = 3%nat.
Proof.
  split; [done|].
  destruct (generate_orders_after_registration (H := lcg_libraries)
              demo_customers 3 demo_start)
    as (l & orders & w' & Hrun & Hl & Hlen & _);
    [done|exact demo_customers_registered|].
  exists l, orders, w'. split; [exact Hrun|]. split; [exact Hl|exact Hlen].
Defined.

(** C1, as the spec states it, fails: for the five orders of [demo_orders]
    and a target count of 3 no error is raised; five items are returned. *)
Lemma five_orders_target_3_returns_items :
  length demo_orders = 5%nat
  ∧ match (generate_order_items (H := lcg_libraries) 0 demo_products 3 demo_world).1 with
    | Returns items => length items = 5%nat
    | Raises _ => False
    end.
Proof. split; [done|]. by vm_compute. Qed.

Lemma generate_order_items_below_order_count_witness :
  0 ≤ 3 < Z.of_nat (length demo_orders)
  ∧ ∃ items w',
      generate_order_items (H := lcg_libraries) 0 demo_products 3 demo_world
      = (Returns items, w')
      ∧ length items = 5%nat.
Proof.
  split; [by vm_compute|].
  destruct (generate_order_items_below_order_count (H := lcg_libraries)
              0 demo_orders demo_products 3 demo_world)
    as (items & w' & Hrun & Hlen & _);
    [done|done|exact demo_products_distinct|by vm_compute|].
  exists items, w'. split; [exact Hrun|exact Hlen].
Defined.

Lemma generate_order_items_covers_orders_witness :
  Z.of_nat (length demo_orders) ≤ 7
  ∧ ∃ items w',
      generate_order_items (H := lcg_libraries) 0 demo_products 7 demo_world
      = (Returns items, w')
      ∧ length items = 7%nat
      ∧ OrderItem.order_id <$> take 5 items = [1; 2; 3; 4; 5].
Proof.
  split; [by vm_compute|].
  destruct (generate_order_items_covers_orders (H := lcg_libraries)
              0 demo_orders demo_products 7 demo_world)
    as (items & w' & Hrun & Hlen & _ & Hseed & _);
    [done|done|done|exact demo_products_distinct|by vm_compute|].
  exists items, w'. split; [exact Hrun|]. split; [exact Hlen|exact Hseed].
Defined.


Lemma generate_order_items_only_assigns_total_amount_witness :
  frames demo_world !! 0%nat = Some demo_orders
  ∧ ∃ orders',
      frames (generate_order_items (H := lcg_libraries) 0 demo_products 7
                demo_world).2 !! 0%nat = Some orders'
      ∧ Order.order_id <$> orders' = [1; 2; 3; 4; 5].
Proof.
  split; [done|].
  destruct (generate_order_items_only_assigns_total_amount (H := lcg_libraries)
              0 demo_orders demo_products 7 demo_world
              (generate_order_items 0 demo_products 7 demo_world).1
              (generate_order_items 0 demo_products 7 demo_world).2)
    as (orders' & Hl & _ & Hrows & _); [done|apply surjective_pairing|].
  exists orders'. split; [exact Hl|].
  clear Hl. change [1; 2; 3; 4; 5] with (Order.order_id <$> demo_orders).
  induction Hrows as [|o o' os os' (Hid & _) _ IH]; [done|].
  rewrite !fmap_cons. by f_equal.
Defined.


Lemma alphabet_exhausts_provider s :
  (provider (Libraries := lcg_libraries) email s).1 ∈ unique_seen exhausted_world.
Proof.
  cbn [unique_seen exhausted_world]. apply elem_of_list_to_set.
  unfold alphabet. cbn [provider lcg_libraries lcg_provider fst].
  apply list_elem_of_fmap. exists ((lcg_next s / 65536) mod 26).
  split; [done|]. apply elem_of_seqZ.
  pose proof (Z.mod_pos_bound (lcg_next s / 65536) 26). lia.
Qed.

Lemma generate_customers_unique_emails_witness :
  0 < 2
  ∧ (generate_customers (H := lcg_libraries) 2 exhausted_world).1
    = Raises UniquenessException.
Proof.
  split; [done|].
  destruct (generate_customers_unique_emails (H := lcg_libraries)
              2 exhausted_world) as [_ Hexhausted].
  exact (Hexhausted eq_refl alphabet_exhausts_provider).
Defined.

(** Three customers of the example libraries, with distinct emails. *)
Example three_customers_distinct_emails :
  match (generate_customers (H := lcg_libraries) 3 demo_start).1 with
  | Returns customers => Customer.email <$> customers = ["h"; "k"; "e"]%string
  | Raises _ => False
  end.
Proof. by vm_compute. Qed.

End Examples.

Section AnalyzeExamples.
Import Analyze.

(** C6, as the spec states it, fails: the second query fails, the run ends
    with the error, the three queries after it are not run and no summary is
    printed. *)
Lemma failing_query_aborts_the_battery :
  let run := main true demo_connection (mkSession [] ∅) in
  run.1 = Raises (RuntimeError "Analysis failed" PandasDatabaseError)
  ∧ stdout run.2
    = [Running "top_customers_by_revenue"; Rows 1;
       Exported "top_customers_by_revenue";
       Running "product_performance_with_reviews"].
Proof. split; by vm_compute. Qed.

Lemma main_aborts_at_first_failing_query_witness :
  query_functions
  = [top_customers_by_revenue] ++ product_performance_with_reviews
      :: [complete_order_details; category_sales_summary;
          customer_engagement_metrics]
  ∧ demo_connection product_performance_with_reviews = inl PandasDatabaseError
  ∧ ∃ s',
      main true demo_connection (mkSession [] ∅)
      = (Raises (RuntimeError "Analysis failed" PandasDatabaseError), s').
Proof.
  split; [done|]. split; [done|].
  destruct (main_aborts_at_first_failing_query demo_connection (mkSession [] ∅)
              [top_customers_by_revenue] product_performance_with_reviews
              [complete_order_details; category_sales_summary;
               customer_engagement_metrics] PandasDatabaseError)
    as (s' & Hrun & _); [done| |done|exists s'; exact Hrun].
  intros p ->%list_elem_of_singleton. by eexists.
Defined.

End AnalyzeExamples.

Section IngestExamples.
Import Ingest.

(** A load whose second customer repeats the primary key of the first:
    the statement fails, the transaction is rolled back and nothing of the
    load is committed. *)
Example duplicate_key_rolls_back :
  let dataframes := λ t,
    match t with
    | customers => Some [[VInt 1; VText "Ada"]; [VInt 1; VText "Bo"]]
    | _ => Some []
    end in
  let run := insert_data (H := primary_key_engine) dataframes
               (mkConnection (λ _, []) None []) in
  run.1 = Raises (RuntimeError "Insertion failed" (DatabaseError IntegrityError))
  ∧ committed run.2 customers = []
  ∧ transaction run.2 = None
  ∧ journal run.2 = [BEGIN; INSERT customers [VInt 1; VText "Ada"]; ROLLBACK].
Proof. by vm_compute. Qed.

End IngestExamples.

(** * Further properties of the generators *)

Section GeneratorExtras.
Import Generate.
Context `{Libraries}.
Implicit Types w : World.

Lemma Forall2_seqZ_ids {A} (P : Z → A → Prop) (key : A → Z) m n (xs : list A) :
  (∀ k x, P k x → key x = k) → Forall2 P (seqZ m n) xs → key <$> xs = seqZ m n.
Proof.
  intros Hkey Hall. induction Hall as [|k x ks xs Hx _ IH]; [done|].
  rewrite fmap_cons, IH. f_equal. by apply Hkey.
Qed.

Lemma Forall2_Forall_r {A B} (P : A → B → Prop) (Q : B → Prop)
    (xs : list A) (ys : list B) :
  (∀ x y, x ∈ xs → P x y → Q y) → Forall2 P xs ys → Forall Q ys.
Proof.
  intros HPQ Hall. induction Hall as [|x y xs ys Hxy _ IH]; constructor.
  - eapply HPQ; [left|done].
  - apply IH. intros x' y' Hx'. apply HPQ. by right.
Qed.

(** ** [generate_customers] *)

Lemma generate_customers_spec count w :
  wpx (generate_customers count) w
    (λ cs w', Forall2 customer_of (seqZ 1 count) cs
              ∧ NoDup (Customer.email <$> cs)
              ∧ (∀ c, c ∈ cs → Customer.email c ∉ unique_seen w)
              ∧ unique_seen w' = list_to_set (Customer.email <$> cs) ∪ unique_seen w
              ∧ frames w' = frames w ∧ setitem_log w' = setitem_log w)
    (λ e _, e = UniquenessException).
Proof.
  set (I := λ (cs : list Customer.t) (w' : World),
         NoDup (Customer.email <$> cs)
         ∧ (∀ c, c ∈ cs → Customer.email c ∉ unique_seen w)
         ∧ unique_seen w' = list_to_set (Customer.email <$> cs) ∪ unique_seen w
         ∧ frames w' = frames w ∧ setitem_log w' = setitem_log w).
  cut (wpx (generate_customers count) w
         (λ cs w', Forall2 customer_of (seqZ 1 count) cs ∧ I cs w')
         (λ e _, e = UniquenessException)).
  { intros Hw. eapply wpx_mono; [exact Hw| |done]. by intros cs w' [? ?]. }
  apply wpx_for_each_acc.
  { unfold I. cbn. split; [constructor|]. split; [by intros ? ?%elem_of_nil|].
    split; [|done]. by rewrite union_empty_l_L. }
  intros customer_id cs w0 _ (Hnd & Hfresh & Hseen & Hframes & Hlog).
  apply wpx_bind, wpx_date_between_dates; [by intros ?%registration_range|].
  intros d w1 Hd (Hs1 & Hf1 & Hl1).
  apply wpx_bind, wpx_fake. intros fn w2 (Hs2 & Hf2 & Hl2).
  apply wpx_bind, wpx_fake. intros ln w3 (Hs3 & Hf3 & Hl3).
  apply wpx_bind, wpx_fake_unique; [|done]. intros em w4 Hem Hs4 Hf4 Hl4.
  apply wpx_bind, wpx_fake. intros ph w5 (Hs5 & Hf5 & Hl5).
  apply wpx_bind, wpx_fake. intros ad w6 (Hs6 & Hf6 & Hl6).
  apply wpx_bind, wpx_fake. intros ci w7 (Hs7 & Hf7 & Hl7).
  apply wpx_bind, wpx_fake. intros st w8 (Hs8 & Hf8 & Hl8).
  apply wpx_bind, wpx_fake. intros zp w9 (Hs9 & Hf9 & Hl9).
  apply wpx_bind, wpx_fake. intros co w10 (Hs10 & Hf10 & Hl10).
  apply wpx_ret. split; [by split|].
  assert (unique_seen w3 = list_to_set (Customer.email <$> cs) ∪ unique_seen w)
    as Hs3' by congruence.
  rewrite Hs3' in Hem. apply not_elem_of_union in Hem as [Hem1 Hem2].
  rewrite elem_of_list_to_set in Hem1.
  unfold I. rewrite fmap_app. cbn [fmap list_fmap Customer.email].
  split.
  { apply NoDup_app. split; [done|]. split; [|apply NoDup_singleton].
    by intros e He ->%list_elem_of_singleton. }
  split.
  { intros c [Hc| ->%list_elem_of_singleton]%elem_of_app; [by apply Hfresh|done]. }
  split; [|split; congruence].
  assert (unique_seen w10 = {[em]} ∪ unique_seen w3) as -> by congruence.
  rewrite Hs3'. apply set_eq. intros x.
  rewrite !elem_of_union, !elem_of_list_to_set, elem_of_app,
    list_elem_of_singleton, elem_of_singleton. tauto.
Qed.

(** X1. When [generate_customers] returns, every customer has a
    registration date between [REGISTRATION_START] and [DATA_END_DATE], the
    customer ids are 1, ..., count without repetition, the [unique] proxy has
    recorded exactly the emails of the new customers on top of what it held,
    and no frame of the store was touched. *)
Theorem generate_customers_well_formed count w customers w' :
  generate_customers count w = (Returns customers, w') →
  Forall (λ c, REGISTRATION_START ≤ Customer.registration_date c ≤ DATA_END_DATE)
    customers
  ∧ Customer.customer_id <$> customers = seqZ 1 count
  ∧ NoDup (Customer.customer_id <$> customers)
  ∧ unique_seen w'
    = list_to_set (Customer.email <$> customers) ∪ unique_seen w
  ∧ frames w' = frames w ∧ setitem_log w' = setitem_log w.
Proof.
  intros Hrun. pose proof (generate_customers_spec count w) as Hspec.
  unfold wpx in Hspec. rewrite Hrun in Hspec.
  destruct Hspec as (Hall & _ & _ & Hseen & Hframes & Hlog).
  assert (Customer.customer_id <$> customers = seqZ 1 count) as Hids.
  { apply (Forall2_seqZ_ids customer_of); [|done]. by intros k c [? _]. }
  split; [|split; [done|]; split; [rewrite Hids; apply NoDup_seqZ|done]].
  eapply Forall2_Forall_r; [|exact Hall]. by intros k c _ [_ ?].
Qed.

(** X2. Two calls of [generate_customers] on the same Faker instance never
    share an email: the emails of the two batches together are pairwise
    distinct. *)
Theorem generate_customers_batches_disjoint n1 n2 w batch1 w1 batch2 w2 :
  generate_customers n1 w = (Returns batch1, w1) →
  generate_customers n2 w1 = (Returns batch2, w2) →
  NoDup (Customer.email <$> batch1 ++ batch2).
Proof.
  intros Hrun1 Hrun2.
  pose proof (generate_customers_spec n1 w) as Hspec1.
  pose proof (generate_customers_spec n2 w1) as Hspec2.
  unfold wpx in Hspec1, Hspec2. rewrite Hrun1 in Hspec1. rewrite Hrun2 in Hspec2.
  destruct Hspec1 as (_ & Hnd1 & _ & Hseen1 & _).
  destruct Hspec2 as (_ & Hnd2 & Hfresh2 & _).
  rewrite fmap_app. apply NoDup_app. split; [done|]. split; [|done].
  intros e He1 (c & -> & Hc)%list_elem_of_fmap.
  apply (Hfresh2 c Hc). rewrite Hseen1.
  by apply elem_of_union_l, elem_of_list_to_set.
Qed.

(** ** [generate_products] *)

Lemma wpx_random_uniform_draw a b w (Q : float → World → Prop) E :
  (∀ u w', drawn w w' → Q (a + (b - a) * u)%float w') →
  wpx (random_uniform a b) w Q E.
Proof.
  intros HQ. unfold random_uniform. apply wpx_bind.
  unfold wpx at 1, random_random.
  destruct (random_unit (py_random w)) as [u r]. apply wpx_ret, HQ, drawn_py.
Qed.

Lemma generate_products_spec count w :
  wpx (generate_products count) w
    (λ ps w', Forall2 product_of (seqZ 1 count) ps ∧ drawn w w') never.
Proof.
  apply (wpx_for_each (drawn w) product_of); [apply drawn_refl|].
  intros product_id w0 _ Hw0.
  apply wpx_bind, wpx_random_uniform_draw. intros u w1 Hw1. cbv zeta.
  apply wpx_bind, wpx_fake. intros product_name w2 Hw2.
  apply wpx_bind, wpx_random_choice; [done|]. intros category w3 Hcat Hw3.
  apply wpx_bind, wpx_fake. intros description w4 Hw4.
  apply wpx_bind, wpx_random_randint; [lia|]. intros stock w5 Hstock Hw5.
  apply wpx_bind, wpx_fake. intros supplier w6 Hw6.
  apply wpx_bind, wpx_date_between_dates; [by intros ?%registration_range|].
  intros created w7 Hcreated Hw7.
  apply wpx_ret. split.
  - repeat split; cbn; try done; try lia. by exists u.
  - repeat (eapply drawn_trans; [|eassumption]). done.
Qed.

(** X3. [generate_products] never raises. For every count and every state
    of the generators it returns [count] products (none when the count is
    not positive) whose ids are 1, ..., count without repetition; each has a
    category of the list of five, a stock between 0 and 1000, a creation date
    between [REGISTRATION_START] and [DATA_END_DATE], and for price the
    rounding of a draw [5 + (500 - 5) * random()]; the store of frames and
    the [unique] proxy are untouched. *)
Theorem generate_products_catalogue count w :
  ∃ products w',
    generate_products count w = (Returns products, w')
    ∧ length products = Z.to_nat count
    ∧ Product.product_id <$> products = seqZ 1 count
    ∧ NoDup (Product.product_id <$> products)
    ∧ Forall (λ p, Product.category p ∈ categories
                   ∧ 0 ≤ Product.stock_quantity p ≤ 1000
                   ∧ REGISTRATION_START ≤ Product.created_date p ≤ DATA_END_DATE
                   ∧ ∃ u, Product.price p = round2 (5 + (500 - 5) * u)%float)
        products
    ∧ drawn w w'.
Proof.
  destruct (proj1 (wpx_returns _ _ _) (generate_products_spec count w))
    as (products & w' & Hrun & Hall & Hw').
  exists products, w'. split; [done|].
  assert (Product.product_id <$> products = seqZ 1 count) as Hids.
  { apply (Forall2_seqZ_ids product_of); [|done]. by intros k c [? _]. }
  split; [by rewrite <- (length_fmap Product.product_id), Hids, length_seqZ|].
  split; [done|]. split; [rewrite Hids; apply NoDup_seqZ|]. split; [|done].
  eapply Forall2_Forall_r; [|exact Hall]. by intros k c _ [_ ?].
Qed.

(** ** [generate_orders] *)

Lemma generate_orders_rows customers count w :
  customers ≠ [] →
  Forall (λ c, Customer.registration_date c ≤ DATA_END_DATE) customers →
  wpx (generate_orders customers count) w
    (λ l w', ∃ orders,
       Forall2 (λ k o, order_of customers k o ∧ order_fields k o)
         (seqZ 1 count) orders
       ∧ l = length (frames w) ∧ frames w' = frames w ++ [orders]
       ∧ setitem_log w' = setitem_log w ∧ unique_seen w' = unique_seen w)
    never.
Proof.
  intros Hne Hreg. unfold generate_orders. apply wpx_bind.
  eapply wpx_mono;
    [apply (wpx_for_each (drawn w)
              (λ k o, order_of customers k o ∧ order_fields k o));
       [apply drawn_refl|] | |done].
  - intros order_id w0 _ Hw0.
    apply wpx_bind, wpx_random_choice; [done|]. intros c w1 Hc Hw1.
    apply wpx_bind, wpx_date_between_dates.
    { rewrite Forall_forall in Hreg. intros Hlt. specialize (Hreg c Hc). lia. }
    intros d w2 Hd Hw2.
    apply wpx_bind, wpx_random_choice; [done|]. intros st w3 Hst Hw3.
    apply wpx_bind, wpx_random_choice; [done|]. intros pm w4 Hpm Hw4.
    apply wpx_ret. split.
    + split; [|done]. repeat split; cbn; eauto.
    + repeat (eapply drawn_trans; [|eassumption]). done.
  - intros orders w' [Horders (Hseen & Hframes & Hlog)].
    unfold wpx. rewrite new_frame_run. exists orders. cbn.
    by rewrite Hframes, Hlog, Hseen.
Qed.

(** X4. [generate_orders] appends one frame to the store and leaves the
    frames that exist as they are. The orders are numbered 1, ..., count in
    row order, each starts with the total 0.0, has a status of the list of
    five and a payment method of the list of four, carries the id of a
    customer of the set and is dated no later than [DATA_END_DATE]. *)
Theorem generate_orders_frame customers count w :
  customers ≠ [] →
  Forall (λ c, Customer.registration_date c ≤ DATA_END_DATE) customers →
  ∃ orders w',
    generate_orders customers count w = (Returns (length (frames w)), w')
    ∧ frames w' = frames w ++ [orders]
    ∧ setitem_log w' = setitem_log w
    ∧ Order.order_id <$> orders = seqZ 1 count
    ∧ Forall (λ o, Order.total_amount o = 0%float
                   ∧ Order.status o ∈ statuses
                   ∧ Order.payment_method o ∈ payment_methods
                   ∧ Order.customer_id o ∈ Customer.customer_id <$> customers
                   ∧ Order.order_date o ≤ DATA_END_DATE)
        orders.
Proof.
  intros Hne Hreg.
  destruct (proj1 (wpx_returns _ _ _) (generate_orders_rows customers count w Hne Hreg))
    as (l & w' & Hrun & orders & Hall & -> & Hframes & Hlog & _).
  exists orders, w'. split; [done|]. split; [done|]. split; [done|]. split.
  { apply (Forall2_seqZ_ids (λ k o, order_of customers k o ∧ order_fields k o));
      [|done]. by intros k o [[? _] _]. }
  eapply Forall2_Forall_r; [|exact Hall].
  intros k o _ [(_ & _ & c & Hc & Hcid & Hdate) (_ & Htot & Hst & Hpm)].
  split; [done|]. split; [done|]. split; [done|]. split; [|lia].
  rewrite Hcid. by apply list_elem_of_fmap_2.
Qed.

(** X5. With no customer to choose from and at least one order asked for,
    [generate_orders] raises [IndexError] at the first order; nothing was
    drawn and no frame was made. *)
Theorem generate_orders_without_customers count w :
  0 < count → generate_orders [] count w = (Raises IndexError, w).
Proof.
  intros Hcount. unfold generate_orders. by rewrite seqZ_cons.
Qed.

(** X6. With a count of orders that is not positive, [generate_orders]
    draws nothing and returns a frame without rows, whatever the customers.
    That frame has no [order_id] column: [generate_order_items] and
    [generate_reviews] raise [KeyError] on it, whatever their other
    arguments, and leave the state as it is. *)
Theorem no_orders_fails_later_stages customers count w :
  count ≤ 0 →
  ∃ l w',
    generate_orders customers count w = (Returns l, w')
    ∧ frames w' !! l = Some [] ∧ py_random w' = py_random w
    ∧ faker_random w' = faker_random w
    ∧ (∀ products n, generate_order_items l products n w' = (Raises KeyError, w'))
    ∧ (∀ items n, generate_reviews items l n w' = (Raises KeyError, w')).
Proof.
  intros Hcount. unfold generate_orders. rewrite seqZ_nil by done.
  eexists _, _. split; [reflexivity|]. cbn [frames set_frames].
  assert ((frames w ++ [[]]) !! length (frames w) = Some ([] : list Order.t)) as Hl
    by (by apply list_lookup_middle).
  split; [done|]. split; [done|]. split; [done|]. split.
  - intros products n. rewrite generate_order_items_run.
    cbn [frames set_frames]. rewrite Hl. cbn [from_option id].
    unfold allocate_items. by destruct products.
  - intros items n. unfold generate_reviews.
    rewrite run_bind, read_frame_run. cbn [frames set_frames]. by rewrite Hl.
Qed.

(** ** [generate_order_items] *)

(** X7. For a frame of N orders (N at least 1), a catalogue that is not
    empty with distinct product ids and any count, the items returned are
    max(N, count) in number and numbered 1, 2, ... in the order of the list;
    every item, seed or not, references an order of the frame and a product
    of the catalogue, carries that product's price as [unit_price], a
    quantity between 1 and 5, and [round(quantity * unit_price, 2)] as
    subtotal. *)
Theorem generate_order_items_rows l orders products count w :
  frames w !! l = Some orders →
  orders ≠ [] → products ≠ [] → NoDup (Product.product_id <$> products) →
  ∃ items w',
    generate_order_items l products count w = (Returns items, w')
    ∧ Z.of_nat (length items) = Z.of_nat (length orders) `max` count
    ∧ OrderItem.order_item_id <$> items = seqZ 1 (Z.of_nat (length items))
    ∧ Forall (λ it,
        OrderItem.order_id it ∈ Order.order_id <$> orders
        ∧ (∃ p, p ∈ products
                ∧ OrderItem.product_id it = Product.product_id p
                ∧ OrderItem.unit_price it = Product.price p)
        ∧ 1 ≤ OrderItem.quantity it ≤ 5
        ∧ OrderItem.subtotal it
          = round2 (float_of_int (OrderItem.quantity it)
                    * OrderItem.unit_price it)%float)
        items.
Proof.
  intros Hl Horders Hproducts Hnd.
  destruct (generate_order_items_spec l orders products count w)
    as (items & totals & w1 & w' & _ & _ & Hrun & Halloc & _); [done..|].
  destruct Halloc as (Hlen & Hseed & Hfill & Hids & Hok).
  exists items, w'. split; [done|]. split; [lia|]. split; [done|].
  rewrite <- (take_drop (length orders) items).
  rewrite <- (take_drop (length orders) items) in Hok.
  apply Forall_app in Hok as [Hok1 Hok2]. apply Forall_app. split.
  - apply Forall_forall. intros it Hit. split.
    + rewrite <- Hseed. by apply list_elem_of_fmap_2.
    + rewrite Forall_forall in Hok1.
      destruct (Hok1 it Hit) as (p & Hp & Hpid & Hprice & Hq & Hsub).
      split; [by exists p|]. by split.
  - rewrite Forall_forall in Hfill. rewrite Forall_forall in Hok2.
    apply Forall_forall. intros it Hit. split; [by apply Hfill|].
    destruct (Hok2 it Hit) as (p & Hp & Hpid & Hprice & Hq & Hsub).
    split; [by exists p|]. by split.
Qed.

(** X8. On a frame without orders, or with a catalogue without products,
    [generate_order_items] raises [KeyError] (the frame has no column to
    index by) before it draws or assigns anything: the state is the one
    before the call. *)
Theorem generate_order_items_on_empty_frame l orders products count w :
  frames w !! l = Some orders →
  orders = [] ∨ products = [] →
  generate_order_items l products count w = (Raises KeyError, w).
Proof.
  intros Hl Hempty. rewrite generate_order_items_run, Hl. cbn [from_option id].
  unfold allocate_items. destruct products as [|p products]; [done|].
  by destruct Hempty as [->|?].
Qed.

(** ** [generate_reviews] *)

Lemma sample_sampled {A} (df : list A) n w :
  df ≠ [] → 0 ≤ n → sample df n 42 w = (Returns (sampled df n), w).
Proof.
  intros Hne Hn. unfold sample, sampled.
  destruct (Z.ltb_spec n 0) as [?|_]; [lia|]. by destruct df.
Qed.

Lemma sampled_elem_of {A} (df : list A) n x : x ∈ sampled df n → x ∈ df.
Proof.
  unfold sampled. destruct df as [|d df]; [done|].
  intros (i & -> & Hi)%list_elem_of_fmap.
  apply list_elem_of_In, nth_In. eapply np_choice_bound; [|exact Hi]. cbn. lia.
Qed.

Lemma length_sampled {A} (df : list A) n :
  df ≠ [] → length (sampled df n) = Z.to_nat n.
Proof.
  intros Hne. unfold sampled. destruct df; [done|].
  by rewrite length_fmap, np_choice_length.
Qed.

Lemma generate_reviews_spec items l orders count w :
  frames w !! l = Some orders →
  NoDup (Order.order_id <$> orders) →
  Forall (λ o, Order.order_date o ≤ DATA_END_DATE) orders →
  items ≠ [] →
  Forall (λ it, OrderItem.order_id it ∈ Order.order_id <$> orders) items →
  exact_ids items →
  0 ≤ count →
  wpx (generate_reviews items l count) w
    (λ reviews w',
       Forall2 (review_of orders) (enumerate1 (sampled items count)) reviews
       ∧ drawn w w')
    never.
Proof.
  intros Hl Hnd Hdates Hitems Hrefs Hexact Hcount.
  rewrite Forall_forall in Hdates. rewrite Forall_forall in Hrefs.
  unfold exact_ids in Hexact. rewrite Forall_forall in Hexact.
  assert (orders ≠ []) as Horders.
  { destruct items as [|it items]; [done|]. intros ->.
    specialize (Hrefs it (list_elem_of_here _ _)). by apply elem_of_nil in Hrefs. }
  unfold generate_reviews. apply wpx_bind. unfold wpx at 1.
  rewrite read_frame_run, Hl. cbn [from_option id].
  apply wpx_bind, wpx_set_index; [done|intros _].
  apply wpx_bind. unfold wpx at 1. rewrite sample_sampled by done.
  apply (wpx_for_each (drawn w) (review_of orders)); [apply drawn_refl|].
  intros [rid it] w0 Hin Hw0.
  assert (it ∈ items) as Hit
    by (apply (sampled_elem_of items count); by apply elem_of_zip_r in Hin).
  destruct (Hexact it Hit) as [Hoid Hpid]. cbv zeta.
  rewrite (float64_int_exact _ Hoid), (float64_int_exact _ Hpid).
  apply wpx_bind, wpx_loc_rows; [done|by intros []; apply Hrefs|]. intros o Ho Hkey.
  apply wpx_bind, wpx_ret.
  apply wpx_bind, wpx_date_between_dates; [intros Hlt; specialize (Hdates o Ho); lia|].
  intros d w1 Hd Hw1.
  apply wpx_bind, wpx_random_randint; [lia|]. intros rating w2 Hrating Hw2.
  apply wpx_bind, wpx_fake. intros text w3 Hw3.
  apply wpx_ret. split.
  - split; [done|]. split; [done|]. split; [done|]. by exists o.
  - repeat (eapply drawn_trans; [|eassumption]). done.
Qed.

Lemma enumerate1_ids {A} (xs : list A) :
  (enumerate1 xs).*1 = seqZ 1 (Z.of_nat (length xs)).
Proof.
  unfold enumerate1. apply fst_zip. rewrite length_seqZ. lia.
Qed.

Lemma enumerate1_rows {A} (xs : list A) : (enumerate1 xs).*2 = xs.
Proof.
  unfold enumerate1. apply snd_zip. rewrite length_seqZ. lia.
Qed.

Lemma Forall2_fmap_eq {A B C} (P : A → B → Prop) (f : B → C) (g : A → C)
    (xs : list A) (ys : list B) :
  (∀ x y, P x y → f y = g x) → Forall2 P xs ys → f <$> ys = g <$> xs.
Proof.
  intros Hfg Hall. induction Hall as [|x y xs ys Hxy _ IH]; [done|].
  rewrite !fmap_cons, IH. f_equal. by apply Hfg.
Qed.

Lemma Forall2_join {A B} (P : A → B → Prop) (R : B → B → Prop)
    (xs : list A) (ys zs : list B) :
  (∀ x y z, P x y → P x z → R y z) →
  Forall2 P xs ys → Forall2 P xs zs → Forall2 R ys zs.
Proof.
  intros HR Hys. revert zs. induction Hys as [|x y xs ys Hxy _ IH];
    intros zs Hzs; inversion Hzs; subst; constructor; eauto.
Qed.

(** X9. Under the conditions of the pipeline (order ids distinct, order
    dates not after [DATA_END_DATE], at least one item, items referencing
    orders of the frame, ids up to [2 ^ 53] in absolute value, which float64
    holds exactly), [generate_reviews] numbers the reviews 1, ..., count,
    gives each a rating between 1 and 5 and the product of the item sampled
    at its position, and leaves the store of frames, the log of assignments
    and the [unique] proxy as they were. As rows are sampled with
    replacement, the count may exceed the number of items. *)
Theorem generate_reviews_rows items l orders count w :
  frames w !! l = Some orders →
  NoDup (Order.order_id <$> orders) →
  Forall (λ o, Order.order_date o ≤ DATA_END_DATE) orders →
  items ≠ [] →
  Forall (λ it, OrderItem.order_id it ∈ Order.order_id <$> orders) items →
  exact_ids items →
  0 ≤ count →
  ∃ reviews w',
    generate_reviews items l count w = (Returns reviews, w')
    ∧ Review.review_id <$> reviews = seqZ 1 count
    ∧ Forall (λ r, 1 ≤ Review.rating r ≤ 5) reviews
    ∧ Review.product_id <$> reviews
      = OrderItem.product_id <$> sampled items count
    ∧ drawn w w'.
Proof.
  intros Hl Hnd Hdates Hitems Hrefs Hexact Hcount.
  destruct (proj1 (wpx_returns _ _ _)
              (generate_reviews_spec items l orders count w
                 Hl Hnd Hdates Hitems Hrefs Hexact Hcount))
    as (reviews & w' & Hrun & Hall & Hw').
  exists reviews, w'. split; [done|]. split.
  { rewrite (Forall2_fmap_eq _ Review.review_id fst _ _
               (λ x r (Hxr : review_of orders x r), proj1 Hxr) Hall).
    rewrite enumerate1_ids, length_sampled by done. f_equal. lia. }
  split.
  { eapply Forall2_Forall_r; [|exact Hall]. by intros x r _ (_ & _ & ? & _). }
  split; [|done].
  rewrite (Forall2_fmap_eq _ Review.product_id (OrderItem.product_id ∘ snd) _ _
             (λ x r (Hxr : review_of orders x r), proj1 (proj2 Hxr)) Hall).
  by rewrite list_fmap_compose, enumerate1_rows.
Qed.

(** X10. Which purchases are reviewed does not depend on the state of the
    generators: the rows are sampled with the constant [random_state=42].
    Two calls on the same items and the same orders (under the conditions
    of X9), from any two states, both return, and their reviews agree,
    position by position, on [review_id], [product_id] and [customer_id]. *)
Theorem generate_reviews_same_purchases items orders count l1 w1 l2 w2 :
  frames w1 !! l1 = Some orders →
  frames w2 !! l2 = Some orders →
  NoDup (Order.order_id <$> orders) →
  Forall (λ o, Order.order_date o ≤ DATA_END_DATE) orders →
  items ≠ [] →
  Forall (λ it, OrderItem.order_id it ∈ Order.order_id <$> orders) items →
  exact_ids items →
  0 ≤ count →
  ∃ reviews1 w1' reviews2 w2',
    generate_reviews items l1 count w1 = (Returns reviews1, w1')
    ∧ generate_reviews items l2 count w2 = (Returns reviews2, w2')
    ∧ Forall2 (λ r1 r2, Review.review_id r1 = Review.review_id r2
                        ∧ Review.product_id r1 = Review.product_id r2
                        ∧ Review.customer_id r1 = Review.customer_id r2)
        reviews1 reviews2.
Proof.
  intros Hl1 Hl2 Hnd Hdates Hitems Hrefs Hexact Hcount.
  destruct (proj1 (wpx_returns _ _ _)
              (generate_reviews_spec items l1 orders count w1
                 Hl1 Hnd Hdates Hitems Hrefs Hexact Hcount))
    as (reviews1 & w1' & Hrun1 & Hall1 & _).
  destruct (proj1 (wpx_returns _ _ _)
              (generate_reviews_spec items l2 orders count w2
                 Hl2 Hnd Hdates Hitems Hrefs Hexact Hcount))
    as (reviews2 & w2' & Hrun2 & Hall2 & _).
  exists reviews1, w1', reviews2, w2'. split; [done|]. split; [done|].
  eapply Forall2_join; [|exact Hall1|exact Hall2].
  intros x r1 r2 (Hid1 & Hp1 & _ & o1 & Ho1 & Hk1 & Hc1 & _)
    (Hid2 & Hp2 & _ & o2 & Ho2 & Hk2 & Hc2 & _).
  split; [congruence|]. split; [congruence|].
  assert (o1 = o2) as ->; [|congruence].
  apply (same_key_same_row Order.order_id orders); [done..|congruence].
Qed.

(** X11. The edge cases of sampling, on a frame that has orders: a negative
    count raises [ValueError]; a positive count with no item to sample from
    raises [ValueError]; a count of 0 returns no review, with or without
    items. In the three cases nothing is drawn and nothing is written. *)
Theorem generate_reviews_edge_counts items l orders count w :
  frames w !! l = Some orders → orders ≠ [] →
  (count < 0 → generate_reviews items l count w = (Raises ValueError, w))
  ∧ (items = [] → 0 < count →
     generate_reviews items l count w = (Raises ValueError, w))
  ∧ (count = 0 → generate_reviews items l count w = (Returns [], w)).
Proof.
  intros Hl Horders. unfold generate_reviews.
  rewrite run_bind, read_frame_run, Hl. cbn [from_option id].
  rewrite run_bind. destruct orders as [|o orders]; [done|].
  change (set_index (o :: orders) w) with (Returns (o :: orders), w).
  cbv iota beta. rewrite run_bind. unfold sample.
  split; [|split].
  - intros Hneg. by destruct (Z.ltb_spec count 0) as [_|?]; [|lia].
  - intros -> Hpos. destruct (Z.ltb_spec count 0) as [?|_]; [lia|].
    by destruct (Z.eqb_spec count 0) as [?|_]; [lia|].
  - intros ->. cbn [Z.ltb Z.compare Z.eqb]. destruct items as [|it items]; [done|].
    pose proof (np_choice_length 42 (length (it :: items)) (Z.to_nat 0)) as Hlen.
    destruct (np_choice 42 (length (it :: items)) (Z.to_nat 0)); [done|done].
Qed.

(** X12. No review is made for an item without its order: when none of the
    items references an order of the frame (the ids being integers that
    float64 holds exactly), the first lookup raises [KeyError], before
    anything is drawn. *)
Theorem generate_reviews_dangling_items items l orders count w :
  frames w !! l = Some orders → orders ≠ [] →
  items ≠ [] → 0 < count →
  exact_ids items →
  Forall (λ it, OrderItem.order_id it ∉ Order.order_id <$> orders) items →
  generate_reviews items l count w = (Raises KeyError, w).
Proof.
  intros Hl Horders Hitems Hcount Hexact Hdangling.
  rewrite Forall_forall in Hdangling.
  unfold exact_ids in Hexact. rewrite Forall_forall in Hexact.
  unfold generate_reviews.
  rewrite run_bind, read_frame_run, Hl. cbn [from_option id].
  rewrite run_bind. destruct orders as [|o orders]; [done|].
  change (set_index (o :: orders) w) with (Returns (o :: orders), w).
  cbv iota beta. rewrite run_bind, sample_sampled by (done || lia). cbv iota beta.
  pose proof (length_sampled items count Hitems) as Hlen.
  pose proof (sampled_elem_of items count) as Hin.
  destruct (sampled items count) as [|it sel]; [cbn in Hlen; lia|].
  unfold enumerate1. rewrite seqZ_cons by (cbn [length]; lia).
  cbn [zip zip_with for_each]. rewrite !run_bind. cbv zeta.
  destruct (Hexact it (Hin it (list_elem_of_here _ _))) as [Hoid _].
  rewrite (float64_int_exact _ Hoid). unfold loc_rows.
  rewrite filter_key_missing; [done|]. apply Hdangling, Hin. left.
Qed.

(** ** The pipeline *)

Lemma finalize_order_ids items (orders : list Order.t) :
  Order.order_id <$> (finalize items <$> orders) = Order.order_id <$> orders.
Proof. rewrite <- list_fmap_compose. by apply list_fmap_ext. Qed.

Lemma allocation_references orders products count items :
  allocation orders products count items →
  Forall (λ it, OrderItem.order_id it ∈ Order.order_id <$> orders) items.
Proof.
  intros (_ & Hseed & Hfill & _).
  rewrite <- (take_drop (length orders) items). apply Forall_app. split; [|done].
  apply Forall_forall. intros it Hit. rewrite <- Hseed.
  by apply list_elem_of_fmap_2.
Qed.

(** Items allocated to orders and products that are numbered from 1 have
    ids that float64 holds exactly, as long as there are at most [2 ^ 53]
    orders and products. *)
Lemma allocation_exact_ids orders products count items n m :
  allocation orders products count items →
  Order.order_id <$> orders = seqZ 1 n →
  Product.product_id <$> products = seqZ 1 m →
  n ≤ 2 ^ 53 → m ≤ 2 ^ 53 →
  exact_ids items.
Proof.
  intros Halloc Hoids Hpids Hn Hm.
  pose proof (allocation_references _ _ _ _ Halloc) as Hrefs.
  destruct Halloc as (_ & _ & _ & _ & Hok).
  rewrite Forall_forall in Hrefs. rewrite Forall_forall in Hok.
  apply Forall_forall. intros it Hit. split.
  - specialize (Hrefs it Hit). rewrite Hoids in Hrefs.
    apply elem_of_seqZ in Hrefs. lia.
  - destruct (Hok it Hit) as (p & Hp & -> & _).
    assert (Product.product_id p ∈ Product.product_id <$> products) as Hin
      by (by apply list_elem_of_fmap_2).
    rewrite Hpids in Hin. apply elem_of_seqZ in Hin. lia.
Qed.

(** What the five generators promise, put together, is what the schema of
    the database asks. *)
Lemma dataset_satisfies_schema customers products placed items reviews
    customer_count product_count order_count item_count review_count :
  Forall2 customer_of (seqZ 1 customer_count) customers →
  NoDup (Customer.email <$> customers) →
  Forall2 product_of (seqZ 1 product_count) products →
  Forall2 (λ k o, order_of customers k o ∧ order_fields k o)
    (seqZ 1 order_count) placed →
  allocation placed products item_count items →
  Forall2 (review_of (finalize items <$> placed))
    (enumerate1 (sampled items review_count)) reviews →
  satisfies_schema customers products (finalize items <$> placed) items reviews.
Proof.
  intros Hcs Hemails Hps Horders Halloc Hreviews.
  assert (Customer.customer_id <$> customers = seqZ 1 customer_count) as Hcids
    by (apply (Forall2_seqZ_ids customer_of); [by intros k c [? _]|done]).
  assert (Product.product_id <$> products = seqZ 1 product_count) as Hpids
    by (apply (Forall2_seqZ_ids product_of); [by intros k c [? _]|done]).
  assert (Order.order_id <$> placed = seqZ 1 order_count) as Hoids.
  { apply (Forall2_seqZ_ids (λ k o, order_of customers k o ∧ order_fields k o));
      [|done]. by intros k o [[? _] _]. }
  pose proof (allocation_references _ _ _ _ Halloc) as Hrefs.
  destruct Halloc as (_ & _ & _ & Hiids & Hok).
  assert (Forall (λ it, OrderItem.product_id it ∈ Product.product_id <$> products)
            items) as Hprods.
  { eapply Forall_impl; [exact Hok|]. intros it (p & Hp & -> & _).
    by apply list_elem_of_fmap_2. }
  assert (Forall (λ o, Order.customer_id o ∈ Customer.customer_id <$> customers)
            (finalize items <$> placed)) as Hcust.
  { apply Forall_fmap. eapply Forall2_Forall_r; [|exact Horders].
    intros k o _ [(_ & _ & c & Hc & Hcid & _) _]. cbn. rewrite Hcid.
    by apply list_elem_of_fmap_2. }
  rewrite Forall_forall in Hprods. rewrite Forall_forall in Hcust.
  split; [rewrite Hcids; apply NoDup_seqZ|]. split; [done|].
  split; [rewrite Hpids; apply NoDup_seqZ|].
  split; [rewrite finalize_order_ids, Hoids; apply NoDup_seqZ|].
  split; [by apply Forall_forall|].
  split; [rewrite Hiids; apply NoDup_seqZ|].
  split.
  { rewrite finalize_order_ids. rewrite Forall_forall in Hrefs.
    apply Forall_forall. intros it Hit. split; [by apply Hrefs|by apply Hprods]. }
  split.
  { rewrite (Forall2_fmap_eq _ Review.review_id fst _ _
               (λ x r (Hxr : review_of _ x r), proj1 Hxr) Hreviews).
    rewrite enumerate1_ids. apply NoDup_seqZ. }
  eapply Forall2_Forall_r; [|exact Hreviews].
  intros [rid it] r Hin (_ & Hpid & Hrating & o & Ho & _ & Hcid & _).
  apply elem_of_zip_r, sampled_elem_of in Hin. cbn in Hpid.
  split; [rewrite Hpid; by apply Hprods|]. split; [|done].
  rewrite Hcid. by apply Hcust.
Qed.

Lemma generate_all_spec w :
  wpx generate_all w
    (λ r w',
       let '(customers, products, l, items, reviews) := r in
       ∃ orders,
         frames w' !! l = Some orders
         ∧ satisfies_schema customers products orders items reviews
         ∧ length customers = 1000%nat ∧ length products = 500%nat
         ∧ length orders = 2000%nat ∧ length items = 5000%nat
         ∧ length reviews = 1500%nat)
    (λ e _, e = UniquenessException).
Proof.
  unfold generate_all. apply wpx_bind.
  eapply wpx_mono; [apply generate_customers_spec| |done].
  intros customers w1 (Hcs & Hemails & _ & _ & Hf1 & Hl1).
  assert (length customers = 1000%nat) as Hnc
    by (rewrite <- (Forall2_length _ _ _ Hcs); apply length_seqZ).
  apply wpx_bind.
  eapply wpx_mono; [apply generate_products_spec| |by intros ?? []].
  intros products w2 (Hps & _).
  assert (length products = 500%nat) as Hnp
    by (rewrite <- (Forall2_length _ _ _ Hps); apply length_seqZ).
  assert (Product.product_id <$> products = seqZ 1 PRODUCT_COUNT) as Hpids
    by (apply (Forall2_seqZ_ids product_of); [by intros k c [? _]|done]).
  apply wpx_bind.
  eapply wpx_mono; [apply generate_orders_rows| |by intros ?? []].
  { intros ->. done. }
  { eapply Forall2_Forall_r; [|exact Hcs]. intros k c _ [_ ?]. lia. }
  intros l w3 (placed & Hplaced & -> & Hf3 & _).
  assert (length placed = 2000%nat) as Hno
    by (rewrite <- (Forall2_length _ _ _ Hplaced); apply length_seqZ).
  assert (frames w3 !! length (frames w2) = Some placed) as Hl
    by (rewrite Hf3; by apply list_lookup_middle).
  apply wpx_bind.
  destruct (generate_order_items_spec (length (frames w2)) placed products
              ORDER_ITEM_COUNT w3)
    as (items & totals & w3' & w4 & _ & _ & Hrun4 & Halloc & Hf4 & _);
    [done|by intros ->|by intros ->|rewrite Hpids; apply NoDup_seqZ|].
  unfold wpx at 1. rewrite Hrun4.
  assert (length items = 5000%nat) as Hni.
  { destruct Halloc as (Hlen & _). rewrite Hlen, Hno. done. }
  assert (frames w4 !! length (frames w2) = Some (finalize items <$> placed)) as Hl4.
  { rewrite Hf4. apply list_lookup_insert_eq. by eapply lookup_lt_Some. }
  assert (Order.order_id <$> placed = seqZ 1 ORDER_COUNT) as Hoids.
  { apply (Forall2_seqZ_ids (λ k o, order_of customers k o ∧ order_fields k o));
      [|done]. by intros k o [[? _] _]. }
  apply wpx_bind.
  eapply wpx_mono;
    [apply (generate_reviews_spec items _ (finalize items <$> placed)); try done
    | |by intros ?? []].
  { rewrite finalize_order_ids, Hoids. apply NoDup_seqZ. }
  { apply Forall_fmap. eapply Forall2_Forall_r; [|exact Hplaced].
    intros k o _ [(_ & _ & c & _ & _ & Hdate) _]. cbn. lia. }
  { by intros ->. }
  { rewrite finalize_order_ids. by eapply allocation_references. }
  { eapply (allocation_exact_ids placed products); [exact Halloc|exact Hoids
    |exact Hpids|by vm_compute|by vm_compute]. }
  intros reviews w5 (Hreviews & _ & Hf5 & _). apply wpx_ret.
  exists (finalize items <$> placed). split; [by rewrite Hf5|].
  split; [by eapply dataset_satisfies_schema|].
  split; [done|]. split; [done|]. split; [by rewrite length_fmap|].
  split; [done|].
  rewrite <- (Forall2_length _ _ _ Hreviews). unfold enumerate1.
  rewrite length_zip_with, length_seqZ, length_sampled by (by intros ->).
  rewrite Nat2Z.id. by vm_compute.
Qed.

(** X13. The five generators in sequence, with the counts of the script,
    from any state: the only exception is [UniquenessException] (from the
    customers' emails); otherwise the run returns 1000 customers, 500
    products, 2000 orders, 5000 items and 1500 reviews that satisfy every
    constraint of the database schema: primary keys without repetition,
    distinct emails, every order with the id of a customer, every item with
    the ids of an order and of a product, every review with the ids of a
    product and of a customer and a rating from 1 to 5. *)
Theorem generate_all_satisfies_schema w :
  match generate_all w with
  | (Returns (customers, products, l, items, reviews), w') =>
      ∃ orders,
        frames w' !! l = Some orders
        ∧ satisfies_schema customers products orders items reviews
        ∧ length customers = 1000%nat ∧ length products = 500%nat
        ∧ length orders = 2000%nat ∧ length items = 5000%nat
        ∧ length reviews = 1500%nat
  | (Raises e, _) => e = UniquenessException
  end.
Proof.
  pose proof (generate_all_spec w) as Hspec. unfold wpx in Hspec.
  by destruct (generate_all w)
    as [[[[[[customers products] l] items] reviews]|e] w'].
Qed.

(** X14. [main] makes the data directory, and then writes no file before
    the five data sets are generated. From any state, whether the directory
    exists or not and whatever files it holds, either generation fails:
    [main] raises [RuntimeError("Data generation failed ...")] caused by
    [UniquenessException], and the directory exists with the files it had
    (none when it did not exist); or, the operating system accepting the
    five writes, it returns, the five entity files hold a data set that
    satisfies the schema of the database, and every other file is as it
    was. *)
Theorem main_writes_after_generation w (disk : option (gmap string Csv)) :
  match main (w, disk) with
  | (Returns _, (_, disk')) =>
      ∃ files,
        disk' = Some files
        ∧ (∃ customers products orders items reviews,
             files !! "customers.csv"%string = Some (CustomersCsv customers)
             ∧ files !! "products.csv"%string = Some (ProductsCsv products)
             ∧ files !! "orders.csv"%string = Some (OrdersCsv orders)
             ∧ files !! "order_items.csv"%string = Some (OrderItemsCsv items)
             ∧ files !! "reviews.csv"%string = Some (ReviewsCsv reviews)
             ∧ satisfies_schema customers products orders items reviews)
        ∧ ∀ f, f ∉ entity_files → files !! f = default ∅ disk !! f
  | (Raises e, (_, disk')) =>
      e = RuntimeError "Data generation failed" UniquenessException
      ∧ disk' = Some (default ∅ disk)
  end.
Proof.
  rewrite main_run. pose proof (generate_all_spec (seeded w)) as Hspec.
  unfold wpx in Hspec.
  destruct (generate_all (seeded w))
    as [[[[[[customers products] l] items] reviews]|e] w']; [|by subst].
  destruct Hspec as (orders & Hl & Hschema & _). rewrite Hl. cbn [from_option id].
  eexists. split; [reflexivity|]. split.
  - exists customers, products, orders, items, reviews.
    repeat (split; [by repeat (rewrite lookup_insert; case_decide; try done)|]).
    done.
  - intros f Hf. unfold entity_files in Hf.
    repeat (rewrite lookup_insert_ne; [|intros <-; apply Hf; set_unfold; tauto]).
    done.
Qed.

(** [save_dataframe] called before the directory is made turns the [OSError]
    of [to_csv] into a [RuntimeError] and writes nothing; in a directory that
    exists it replaces the one file and leaves the others. *)
Lemma save_dataframe_run df filename w (disk : option (gmap string Csv)) :
  save_dataframe df filename (w, disk)
  = match disk with
    | Some files => (Returns tt, (w, Some (<[filename := df]> files)))
    | None => (Raises (RuntimeError "Unable to write" OSError), (w, None))
    end.
Proof. unfold save_dataframe, try_except, to_csv. by destruct disk. Qed.

End GeneratorExtras.

(** * Further properties of the load *)

Section IngestExtras.
Import Ingest.
Context `{Engine}.
Implicit Types c : Connection.

Local Arguments statements_of : simpl never.

(** X15. [load_dataframes] returns the five frames, keyed by the five table
    names, exactly when the five files exist and are read; otherwise it raises
    for a file that is missing ([FileNotFoundError]) or that [pd.read_csv]
    rejects. It never changes the directory. *)
Theorem load_dataframes_all_or_error (dir : DataDir) :
  match load_dataframes dir with
  | (Returns dataframes, dir') =>
      dir' = dir
      ∧ ∀ t, ∃ df, dataframes t = Some df ∧ dir !! csv_file t = Some (inr df)
  | (Raises e, dir') =>
      dir' = dir
      ∧ ∃ t, (dir !! csv_file t = None ∧ e = FileNotFoundError)
             ∨ dir !! csv_file t = Some (inl e)
  end.
Proof.
  unfold load_dataframes, mbind, Py_bind, bind, read_csv.
  destruct (dir !! "customers.csv"%string) as [[e|df1]|] eqn:H1;
    [split; [done|]; exists customers; by right| |
     split; [done|]; exists customers; by left].
  destruct (dir !! "products.csv"%string) as [[e|df2]|] eqn:H2;
    [split; [done|]; exists products; by right| |
     split; [done|]; exists products; by left].
  destruct (dir !! "orders.csv"%string) as [[e|df3]|] eqn:H3;
    [split; [done|]; exists orders; by right| |
     split; [done|]; exists orders; by left].
  destruct (dir !! "order_items.csv"%string) as [[e|df4]|] eqn:H4;
    [split; [done|]; exists order_items; by right| |
     split; [done|]; exists order_items; by left].
  destruct (dir !! "reviews.csv"%string) as [[e|df5]|] eqn:H5;
    [split; [done|]; exists reviews; by right| |
     split; [done|]; exists reviews; by left].
  split; [done|]. intros []; eexists; split; done.
Qed.

(** What becomes of one table through a sequence of statements. *)
Lemma foldl_inserts_table (db : Database) table rows t :
  foldl run_statement db (INSERT table <$> rows) t
  = if decide (t = table) then db t ++ rows else db t.
Proof.
  revert db. induction rows as [|row rows IH]; intros db; cbn [fmap list_fmap foldl].
  { case_decide; [by rewrite app_nil_r|done]. }
  rewrite IH. unfold run_statement, insert_row.
  case_decide; [by rewrite <- app_assoc|done].
Qed.

Lemma foldl_statements_table dataframes (db : Database) t :
  foldl run_statement db (statements_of dataframes insert_statements) t
  = db t ++ default [] (dataframes t).
Proof.
  unfold insert_statements. rewrite !statements_of_cons, !foldl_app.
  change (statements_of dataframes []) with (@nil Statement). cbn [foldl].
  rewrite !foldl_inserts_table.
  destruct t; repeat case_decide; try done; by rewrite ?app_nil_r.
Qed.

(** The load inside its transaction, with the place where it stops. *)
Lemma inserts_trace table rows : ∀ c db,
  transaction c = Some db →
  wpx (for_each rows (execute_insert table)) c
    (λ _ c', committed c' = committed c
             ∧ transaction c' = Some (foldl run_statement db (INSERT table <$> rows))
             ∧ journal c' = journal c ++ (INSERT table <$> rows))
    (λ e c', ∃ done row rest,
       rows = done ++ row :: rest
       ∧ committed c' = committed c
       ∧ transaction c' = Some (foldl run_statement db (INSERT table <$> done))
       ∧ journal c' = journal c ++ (INSERT table <$> done)
       ∧ ((∃ kind,
             check_insert (foldl run_statement db (INSERT table <$> done)) table row
             = Some kind
             ∧ e = DatabaseError kind)
          ∨ (binds row = false ∧ e = OverflowError))).
Proof.
  induction rows as [|row rows IH]; intros c db Hdb; simpl.
  { apply wpx_ret. by rewrite app_nil_r. }
  apply wpx_bind. unfold wpx at 1, execute_insert. rewrite Hdb.
  destruct ((length row =? parameters table)%nat && negb (binds row)) eqn:Hbind.
  { apply andb_true_iff in Hbind as [_ Hbind%negb_true_iff].
    exists [], row, rows. cbn. rewrite app_nil_r.
    split; [done|]. split; [done|]. split; [done|]. split; [done|]. by right. }
  destruct (check_insert db table row) as [kind|] eqn:Hcheck.
  { exists [], row, rows. cbn. rewrite app_nil_r.
    split; [done|]. split; [done|]. split; [done|]. split; [done|].
    left. by exists kind. }
  apply wpx_bind.
  eapply wpx_mono; [by apply IH| |]; simpl.
  - intros units c' (Hc & Ht & Hj). apply wpx_ret.
    split; [done|]. split; [done|]. by rewrite Hj, <- app_assoc.
  - intros e c' (done & row' & rest & -> & Hc & Ht & Hj & Hwhy).
    exists (row :: done), row', rest. cbn in *.
    split; [done|]. split; [done|]. split; [done|].
    split; [by rewrite Hj, <- app_assoc|done].
Qed.

Lemma load_trace dataframes tables : ∀ c db,
  transaction c = Some db →
  wpx (for_each tables (λ table_name,
         df ← match dataframes table_name with
              | Some df => ret df
              | None => raise KeyError
              end;
         let rows := df in
         executemany table_name rows)) c
    (λ _ c', (∀ t, t ∈ tables → is_Some (dataframes t))
             ∧ committed c' = committed c
             ∧ transaction c'
               = Some (foldl run_statement db (statements_of dataframes tables))
             ∧ journal c' = journal c ++ statements_of dataframes tables)
    (λ e c', ∃ done,
       committed c' = committed c
       ∧ transaction c' = Some (foldl run_statement db done)
       ∧ journal c' = journal c ++ done
       ∧ ((∃ t row rest kind,
             statements_of dataframes tables = done ++ INSERT t row :: rest
             ∧ check_insert (foldl run_statement db done) t row = Some kind
             ∧ e = DatabaseError kind)
          ∨ (∃ before t after,
               tables = before ++ t :: after ∧ dataframes t = None
               ∧ done = statements_of dataframes before ∧ e = KeyError)
          ∨ (∃ t row rest,
               statements_of dataframes tables = done ++ INSERT t row :: rest
               ∧ binds row = false ∧ e = OverflowError))).
Proof.
  induction tables as [|t tables IH]; intros c db Hdb; simpl.
  { apply wpx_ret. split; [by intros ? ?%elem_of_nil|]. by rewrite app_nil_r. }
  apply wpx_bind, wpx_bind. destruct (dataframes t) as [rows|] eqn:Ht.
  2:{ apply wpx_raise. exists []. rewrite app_nil_r. split; [done|].
      split; [done|]. split; [done|]. right. left. by exists [], t, tables. }
  apply wpx_ret. unfold executemany. apply wpx_bind.
  eapply wpx_mono; [by apply inserts_trace| |]; simpl.
  - intros units c1 (Hc1 & Ht1 & Hj1). apply wpx_ret, wpx_bind.
    eapply wpx_mono; [by apply IH| |]; simpl.
    + intros units' c2 (Hall & Hc2 & Ht2 & Hj2). apply wpx_ret.
      rewrite statements_of_cons, Ht, foldl_app. cbn [from_option id].
      split.
      { intros t' [->|?]%elem_of_cons; [by rewrite Ht|by apply Hall]. }
      split; [congruence|]. split; [done|]. by rewrite Hj2, Hj1, <- app_assoc.
    + intros e c2 (done & Hc2 & Ht2 & Hj2 & Hwhere).
      exists ((INSERT t <$> rows) ++ done). rewrite foldl_app.
      split; [congruence|]. split; [done|].
      split; [by rewrite Hj2, Hj1, <- app_assoc|].
      destruct Hwhere as [(t' & row & rest & kind & Hsplit & Hcheck & ->)
                         |[(before & t' & after & -> & Hmissing & -> & ->)
                          |(t' & row & rest & Hsplit & Hbind & ->)]].
      * left. exists t', row, rest, kind.
        rewrite statements_of_cons, Ht, Hsplit. cbn [from_option id].
        by rewrite <- app_assoc.
      * right. left. exists (t :: before), t', after.
        by rewrite statements_of_cons, Ht.
      * right. right. exists t', row, rest.
        rewrite statements_of_cons, Ht, Hsplit. cbn [from_option id].
        by rewrite <- app_assoc.
  - intros e c1 (done & row & rest & -> & Hc1 & Ht1 & Hj1 & Hwhy).
    exists (INSERT t <$> done). split; [done|]. split; [done|]. split; [done|].
    assert (statements_of dataframes (t :: tables)
            = (INSERT t <$> done)
                ++ INSERT t row
                   :: ((INSERT t <$> rest) ++ statements_of dataframes tables))
      as Hsplit.
    { rewrite statements_of_cons, Ht. cbn [from_option id].
      by rewrite fmap_app, fmap_cons, <- app_assoc. }
    destruct Hwhy as [(kind & Hcheck & ->)|[Hbind ->]].
    + left. by exists t, row, ((INSERT t <$> rest) ++ statements_of dataframes tables), kind.
    + right. right.
      by exists t, row, ((INSERT t <$> rest) ++ statements_of dataframes tables).
Qed.

(** [insert_data] from a connection without open transaction, in one
    step. *)
Lemma insert_data_run dataframes c :
  transaction c = None →
  insert_data dataframes c
  = match for_each insert_statements (λ table_name,
            df ← match dataframes table_name with
                 | Some df => ret df
                 | None => raise KeyError
                 end;
            let rows := df in
            executemany table_name rows)
          (mkConnection (committed c) (Some (committed c)) (journal c ++ [BEGIN]))
    with
    | (Returns _, c1) => commit c1
    | (Raises e, c1) =>
        if is_database_error e
        then (Raises (RuntimeError "Insertion failed" e), (rollback c1).2)
        else (Raises e, c1)
    end.
Proof.
  intros Hnone. unfold insert_data, try_except.
  rewrite run_bind. unfold execute_begin at 1. rewrite Hnone. rewrite run_bind.
  match goal with
  | |- context [for_each ?ts ?body ?c1] => destruct (for_each ts body c1) as [[u|e] c2]
  end.
  - unfold commit. by destruct (transaction c2).
  - destruct (is_database_error e); [|done]. rewrite run_bind.
    unfold rollback. by destruct (transaction c2).
Qed.

Lemma insert_data_open dataframes c pending :
  transaction c = Some pending →
  insert_data dataframes c
  = (Raises (RuntimeError "Insertion failed" (DatabaseError OperationalError)),
     mkConnection (committed c) None (journal c ++ [ROLLBACK])).
Proof.
  intros Hopen. unfold insert_data, try_except.
  rewrite run_bind. unfold execute_begin at 1. rewrite Hopen.
  cbn [is_database_error]. rewrite run_bind. unfold rollback. by rewrite Hopen.
Qed.

Lemma load_dataframes_keys (dir dir' : DataDir) dataframes :
  load_dataframes dir = (Returns dataframes, dir') →
  ∀ t, is_Some (dataframes t).
Proof.
  unfold load_dataframes, mbind, Py_bind, bind, read_csv.
  destruct (dir !! "customers.csv"%string) as [[?|?]|]; [done| |done].
  destruct (dir !! "products.csv"%string) as [[?|?]|]; [done| |done].
  destruct (dir !! "orders.csv"%string) as [[?|?]|]; [done| |done].
  destruct (dir !! "order_items.csv"%string) as [[?|?]|]; [done| |done].
  destruct (dir !! "reviews.csv"%string) as [[?|?]|]; [done| |done].
  intros [= <- <-]. by intros [].
Qed.

(** X16. The frames [load_dataframes] returns are all there: loading them
    with [insert_data] never raises [KeyError]. When the load fails, nothing
    of it is committed, and it fails in one of two ways: with
    [RuntimeError("Insertion failed ...")] caused by a database error, the
    transaction rolled back; or with [OverflowError] for a row that holds an
    integer outside 64 bits, which is not handled, so that the transaction is
    left open. *)
Theorem loaded_frames_failures (dir dir' : DataDir) dataframes c :
  load_dataframes dir = (Returns dataframes, dir') →
  match insert_data dataframes c with
  | (Returns _, _) => True
  | (Raises e, c') =>
      committed c' = committed c
      ∧ (((∃ kind, e = RuntimeError "Insertion failed" (DatabaseError kind))
          ∧ transaction c' = None)
         ∨ (e = OverflowError ∧ is_Some (transaction c')
            ∧ ∃ t row, INSERT t row ∈ statements_of dataframes insert_statements
                       ∧ binds row = false))
  end.
Proof.
  intros Hload. pose proof (load_dataframes_keys _ _ _ Hload) as Hkeys.
  destruct (transaction c) as [pending|] eqn:Hopen.
  { rewrite (insert_data_open _ _ pending Hopen). split; [done|].
    left. split; [by eexists|done]. }
  rewrite insert_data_run by done.
  pose proof (load_trace dataframes insert_statements
                (mkConnection (committed c) (Some (committed c))
                   (journal c ++ [BEGIN])) (committed c) eq_refl) as Htrace.
  unfold wpx in Htrace.
  match type of Htrace with
  | match ?run with _ => _ end => destruct run as [[u|e] c1]
  end.
  - destruct Htrace as (_ & _ & Ht1 & _). unfold commit. by rewrite Ht1.
  - destruct Htrace as (done & Hc1 & Ht1 & Hj1 & Hwhere).
    destruct Hwhere as [(t & row & rest & kind & _ & _ & ->)
                       |[(before & t & after & _ & Hmissing & _)
                        |(t & row & rest & Hsplit & Hbind & ->)]].
    + cbn [is_database_error]. unfold rollback. rewrite Ht1.
      split; [done|]. left. split; [by eexists|done].
    + destruct (Hkeys t) as [df Hdf]. congruence.
    + cbn [is_database_error]. split; [done|]. right. split; [done|].
      split; [by rewrite Ht1|]. exists t, row. split; [|done].
      rewrite Hsplit. apply elem_of_app. right. left.
Qed.

(** X17. When [insert_data] returns, no transaction was open before the
    call, all five frames were in the dictionary, and every table holds the
    rows it held followed by the rows of its frame, in their order: the
    number of rows announced for a table is the number of rows added. *)
Theorem insert_data_appends_frames dataframes c u c' :
  insert_data dataframes c = (Returns u, c') →
  transaction c = None
  ∧ ∀ t, ∃ rows, dataframes t = Some rows
                 ∧ committed c' t = committed c t ++ rows.
Proof.
  intros Hrun. destruct (transaction c) as [pending|] eqn:Hopen.
  { by rewrite (insert_data_open _ _ pending Hopen) in Hrun. }
  split; [done|]. rewrite insert_data_run in Hrun by done.
  pose proof (load_trace dataframes insert_statements
                (mkConnection (committed c) (Some (committed c))
                   (journal c ++ [BEGIN])) (committed c) eq_refl) as Htrace.
  unfold wpx in Htrace.
  match type of Htrace with
  | match ?run with _ => _ end => destruct run as [[v|e] c1]
  end; [|by destruct (is_database_error e)].
  destruct Htrace as (Hall & _ & Ht1 & _). unfold commit in Hrun.
  rewrite Ht1 in Hrun. injection Hrun as _ <-. intros t.
  destruct (Hall t) as [rows Hrows]; [destruct t; set_unfold; tauto|].
  exists rows. split; [done|]. cbn [committed].
  by rewrite foldl_statements_table, Hrows.
Qed.

(** X18. [insert_data] stops at the first row the engine refuses. When it
    raises for a database error on a connection that had no transaction
    open, the statements of the load split into those executed, the [INSERT]
    that the engine refused in the database they had built, and those never
    sent; the journal shows [BEGIN], the executed statements and [ROLLBACK];
    nothing is committed. *)
Theorem insert_data_stops_at_first_refusal dataframes c message kind c' :
  transaction c = None →
  insert_data dataframes c
  = (Raises (RuntimeError message (DatabaseError kind)), c') →
  ∃ done t row rest,
    statements_of dataframes insert_statements = done ++ INSERT t row :: rest
    ∧ check_insert (foldl run_statement (committed c) done) t row = Some kind
    ∧ journal c' = journal c ++ [BEGIN] ++ done ++ [ROLLBACK]
    ∧ committed c' = committed c ∧ transaction c' = None.
Proof.
  intros Hopen Hrun. rewrite insert_data_run in Hrun by done.
  pose proof (load_trace dataframes insert_statements
                (mkConnection (committed c) (Some (committed c))
                   (journal c ++ [BEGIN])) (committed c) eq_refl) as Htrace.
  unfold wpx in Htrace.
  match type of Htrace with
  | match ?run with _ => _ end => destruct run as [[v|e] c1]
  end.
  { destruct Htrace as (_ & _ & Ht1 & _). unfold commit in Hrun.
    by rewrite Ht1 in Hrun. }
  destruct Htrace as (done & Hc1 & Ht1 & Hj1 & Hwhere).
  destruct Hwhere as [(t & row & rest & kind' & Hsplit & Hcheck & ->)
                     |[(before & t & after & _ & _ & _ & ->)
                      |(t & row & rest & _ & _ & ->)]]; [|done|done].
  cbn [is_database_error] in Hrun. unfold rollback in Hrun. rewrite Ht1 in Hrun.
  injection Hrun as _ <- <-. exists done, t, row, rest.
  split; [done|]. split; [done|]. cbn [journal committed transaction].
  split; [|done]. rewrite Hj1. cbn [journal]. by rewrite <- !app_assoc.
Qed.

(** X19. [insert_data] handles database errors only. When a frame is
    missing from the dictionary it raises [KeyError] and does not roll back:
    the transaction it began stays open and holds the rows of the frames that
    come before the missing one; nothing is committed. *)
Theorem insert_data_missing_frame_leaves_transaction_open dataframes c c' :
  insert_data dataframes c = (Raises KeyError, c') →
  ∃ before t after,
    insert_statements = before ++ t :: after
    ∧ dataframes t = None
    ∧ committed c' = committed c
    ∧ transaction c'
      = Some (foldl run_statement (committed c) (statements_of dataframes before))
    ∧ journal c' = journal c ++ [BEGIN] ++ statements_of dataframes before.
Proof.
  intros Hrun. destruct (transaction c) as [pending|] eqn:Hopen.
  { by rewrite (insert_data_open _ _ pending Hopen) in Hrun. }
  rewrite insert_data_run in Hrun by done.
  pose proof (load_trace dataframes insert_statements
                (mkConnection (committed c) (Some (committed c))
                   (journal c ++ [BEGIN])) (committed c) eq_refl) as Htrace.
  unfold wpx in Htrace.
  match type of Htrace with
  | match ?run with _ => _ end => destruct run as [[v|e] c1]
  end.
  { destruct Htrace as (_ & _ & Ht1 & _). unfold commit in Hrun.
    by rewrite Ht1 in Hrun. }
  destruct Htrace as (done & Hc1 & Ht1 & Hj1 & Hwhere).
  destruct Hwhere as [(t & row & rest & kind' & _ & _ & ->)
                     |[(before & t & after & Hsplit & Hmissing & -> & ->)
                      |(t & row & rest & _ & _ & ->)]]; [|
                      |by cbn [is_database_error] in Hrun].
  { cbn [is_database_error] in Hrun. done. }
  cbn [is_database_error] in Hrun. injection Hrun as <-.
  exists before, t, after. split; [done|]. split; [done|]. split; [done|].
  split; [done|]. rewrite Hj1. cbn [journal]. by rewrite <- app_assoc.
Qed.

(** X20. Called on a connection that has a transaction open, [insert_data]
    inserts nothing: [BEGIN] is refused, the handler rolls back the open
    transaction, whose pending changes are lost, and [RuntimeError] is
    raised. *)
Theorem insert_data_discards_open_transaction dataframes c pending :
  transaction c = Some pending →
  ∃ c',
    insert_data dataframes c
    = (Raises (RuntimeError "Insertion failed" (DatabaseError OperationalError)),
       c')
    ∧ transaction c' = None ∧ committed c' = committed c
    ∧ journal c' = journal c ++ [ROLLBACK].
Proof.
  intros Hopen. eexists. by rewrite (insert_data_open _ _ pending Hopen).
Qed.

End IngestExtras.

(** * Further properties of the analysis run *)

Section AnalyzeExtras.
Import Analyze.
Implicit Types s : Session.

Lemma battery_succeeds connection : ∀ queries s,
  (∀ q, q ∈ queries → answers connection q) →
  for_each queries (execute_and_report connection) s
  = (Returns (result_of connection <$> queries),
     mkSession (stdout s ++ (queries ≫= report connection))
       (foldl (export connection) (results_dir s) queries)).
Proof.
  induction queries as [|q queries IH]; intros s Hall.
  { cbn. rewrite app_nil_r. by destruct s. }
  destruct (Hall q) as [[dataframe duration] Hq]; [left|].
  cbn [for_each]. rewrite run_bind.
  rewrite (execute_and_report_returns _ _ dataframe duration) by done.
  rewrite run_bind, IH by (intros; apply Hall; by right).
  cbn [stdout results_dir foldl]. rewrite fmap_cons, bind_cons, <- app_assoc.
  unfold result_of at 2. by rewrite Hq.
Qed.

(** Either every query of a list has an answer, or there is a first one
    that fails. *)
Lemma battery_cases connection queries :
  (∀ q, q ∈ queries → answers connection q)
  ∨ ∃ before q after error,
      queries = before ++ q :: after
      ∧ (∀ p, p ∈ before → answers connection p)
      ∧ connection q = inl error.
Proof.
  induction queries as [|q queries IH].
  { left. by intros ? ?%elem_of_nil. }
  destruct (connection q) as [error|answer] eqn:Hq.
  { right. exists [], q, queries, error. split; [done|]. split; [|done].
    by intros ? ?%elem_of_nil. }
  destruct IH as [Hall|(before & q' & after & error & -> & Hbefore & Hq')].
  - left. intros p [->|?]%elem_of_cons; [by exists answer|by apply Hall].
  - right. exists (q :: before), q', after, error. split; [done|]. split; [|done].
    intros p [->|?]%elem_of_cons; [by exists answer|by apply Hbefore].
Qed.

(** A report of queries only announces, counts and exports. *)
Lemma report_events connection queries e :
  e ∈ queries ≫= report connection →
  (∃ n, e = Running n) ∨ (∃ k, e = Rows k) ∨ (∃ n, e = Exported n).
Proof.
  intros (q & Hq & _)%list_elem_of_bind. unfold report in Hq.
  destruct (connection q) as [kind|[dataframe duration]]; [by apply elem_of_nil in Hq|].
  apply elem_of_cons in Hq as [->|Hq]; [eauto|].
  apply elem_of_cons in Hq as [->|Hq]; [eauto|].
  apply list_elem_of_singleton in Hq as ->. eauto.
Qed.

Lemma main_answered_run connection s :
  (∀ q, q ∈ query_functions → answers connection q) →
  main true connection s
  = (Returns tt,
     mkSession
       (stdout s ++ (query_functions ≫= report connection)
          ++ [Summary (result_of connection <$> query_functions); Completed])
       (foldl (export connection) (results_dir s) query_functions)).
Proof.
  intros Hall. unfold main. cbn [negb]. rewrite run_bind. unfold try_except.
  rewrite (battery_succeeds connection query_functions s Hall).
  rewrite run_bind. cbn. unfold print. cbn [stdout results_dir].
  by rewrite <- !app_assoc.
Qed.

Lemma main_failed_run connection s before q after error :
  query_functions = before ++ q :: after →
  (∀ p, p ∈ before → answers connection p) →
  connection q = inl error →
  main true connection s
  = (Raises (RuntimeError "Analysis failed" (surfaced error)),
     mkSession
       (stdout s ++ (before ≫= report connection) ++ [Running (name q)])
       (foldl (export connection) (results_dir s) before)).
Proof.
  intros Hsplit Hbefore Hq. unfold main. cbn [negb].
  rewrite run_bind. unfold try_except.
  by rewrite Hsplit, (battery_fails_at connection error q after before s Hbefore Hq).
Qed.

(** X21. When the five queries have an answer, [main] returns; it has
    printed the report of each query in the order of the battery (the line
    that names the query, the line with the number of rows, the line of the
    export), then the summary with one entry per query (its name, the number
    of rows, the seconds measured) in that order, then the completion
    message, and no other of these messages. *)
Theorem all_queries_answered connection s :
  (∀ q, q ∈ query_functions → answers connection q) →
  ∃ s',
    main true connection s = (Returns tt, s')
    ∧ stdout s'
      = stdout s ++ (query_functions ≫= report connection)
          ++ [Summary (result_of connection <$> query_functions); Completed]
    ∧ (result_of connection <$> query_functions).*1.*1 = name <$> query_functions.
Proof.
  intros Hall. eexists. split; [by apply main_answered_run|]. split; [done|].
  assert (∀ q, (result_of connection q).1.1 = name q) as Hname.
  { intros q. unfold result_of. by destruct (connection q) as [?|[? ?]]. }
  unfold query_functions. cbn [fmap list_fmap]. by rewrite !Hname.
Qed.

(** X22. After a run in which the five queries have an answer, the file
    [<name>.csv] of each query holds the result set of that query, also when
    it has no row, whatever the file held before: the five names are
    distinct, so no query writes over the export of another. *)
Theorem each_export_holds_its_query connection s :
  (∀ q, q ∈ query_functions → answers connection q) →
  ∀ q, ∃ dataframe duration,
    connection q = inr (dataframe, duration)
    ∧ results_dir (main true connection s).2 !! (name q +:+ ".csv")%string
      = Some dataframe.
Proof.
  intros Hall q. rewrite (main_answered_run connection s Hall).
  assert (∀ p, answers connection p) as Hany.
  { intros p. apply Hall. unfold query_functions. destruct p; set_unfold; tauto. }
  destruct (Hany top_customers_by_revenue) as [[df1 d1] H1].
  destruct (Hany product_performance_with_reviews) as [[df2 d2] H2].
  destruct (Hany complete_order_details) as [[df3 d3] H3].
  destruct (Hany category_sales_summary) as [[df4 d4] H4].
  destruct (Hany customer_engagement_metrics) as [[df5 d5] H5].
  cbn [snd results_dir]. unfold query_functions. cbn [foldl]. unfold export.
  rewrite H1, H2, H3, H4, H5.
  destruct q; cbn [name]; eexists _, _; (split; [eassumption|]);
    by repeat (rewrite lookup_insert; case_decide; try done).
Qed.

(** X23. Whatever the database answers, [main] only adds to the console;
    it never prints that no query was executed; and it returns, prints a
    summary and prints the completion message in exactly one case: when the
    five queries have an answer. *)
Theorem completion_only_when_all_answered connection s :
  ∃ new,
    stdout (main true connection s).2 = stdout s ++ new
    ∧ (NoQueries ∉ new)
    ∧ (returned (main true connection s)
       ↔ ∀ q, q ∈ query_functions → answers connection q)
    ∧ (Completed ∈ new ↔ ∀ q, q ∈ query_functions → answers connection q)
    ∧ ((∃ results, Summary results ∈ new)
       ↔ ∀ q, q ∈ query_functions → answers connection q).
Proof.
  destruct (battery_cases connection query_functions)
    as [Hall|(before & q & after & error & Hsplit & Hbefore & Hq)].
  - rewrite (main_answered_run connection s Hall). eexists. split; [done|].
    split.
    { intros [Hin|Hin]%elem_of_app.
      - apply report_events in Hin as [[? ?]|[[? ?]|[? ?]]]; done.
      - apply elem_of_cons in Hin as [?|Hin]; [done|].
        by apply list_elem_of_singleton in Hin. }
    split; [done|]. split.
    + split; [done|]. intros _. apply elem_of_app. right. set_unfold. tauto.
    + split; [done|]. intros _. eexists. apply elem_of_app. right. left.
  - rewrite (main_failed_run connection s before q after error Hsplit Hbefore Hq).
    assert (¬ ∀ p, p ∈ query_functions → answers connection p) as Hnot.
    { intros Hall. destruct (Hall q) as [answer Hanswer]; [|congruence].
      rewrite Hsplit. apply elem_of_app. right. left. }
    assert (∀ e, e ∈ (before ≫= report connection) ++ [Running (name q)] →
                 (∃ n, e = Running n) ∨ (∃ k, e = Rows k) ∨ (∃ n, e = Exported n))
      as Hevents.
    { intros e [Hin| ->%list_elem_of_singleton]%elem_of_app; [|eauto].
      by eapply report_events. }
    eexists. split; [done|]. split.
    { intros Hin. apply Hevents in Hin as [[? ?]|[[? ?]|[? ?]]]; done. }
    split; [by split|]. split.
    + split; [|done]. intros Hin.
      apply Hevents in Hin as [[? ?]|[[? ?]|[? ?]]]; done.
    + split; [|done]. intros [results Hin].
      apply Hevents in Hin as [[? ?]|[[? ?]|[? ?]]]; done.
Qed.

End AnalyzeExtras.

(** * The further properties on small inputs *)

Lemma returned_run {S A} (run : Outcome A * S) :
  returned run → ∃ a s', run = (Returns a, s').
Proof. destruct run as [[a|e] s]; [eauto|done]. Qed.

Section GeneratorExtraExamples.
Import Generate.

Lemma generate_customers_well_formed_witness :
  ∃ customers w',
    generate_customers (H := lcg_libraries) 3 demo_start = (Returns customers, w')
    ∧ Customer.customer_id <$> customers = seqZ 1 3.
Proof.
  assert (returned (generate_customers (H := lcg_libraries) 3 demo_start)) as Hr
    by (by vm_compute).
  destruct (returned_run _ Hr) as (customers & w' & Hrun).
  exists customers, w'. split; [exact Hrun|].
  destruct (generate_customers_well_formed (H := lcg_libraries)
              3 demo_start customers w' Hrun) as (_ & Hids & _).
  exact Hids.
Defined.

Lemma generate_customers_batches_disjoint_witness :
  ∃ batch1 w1 batch2 w2,
    generate_customers (H := lcg_libraries) 2 demo_start = (Returns batch1, w1)
    ∧ generate_customers 3 w1 = (Returns batch2, w2)
    ∧ NoDup (Customer.email <$> batch1 ++ batch2).
Proof.
  assert (returned (generate_customers (H := lcg_libraries) 2 demo_start)) as Hr1
    by (by vm_compute).
  destruct (returned_run _ Hr1) as (batch1 & w1 & Hrun1).
  assert (returned (generate_customers 3 w1)) as Hr2.
  { replace w1 with (generate_customers (H := lcg_libraries) 2 demo_start).2
      by (by rewrite Hrun1). by vm_compute. }
  destruct (returned_run _ Hr2) as (batch2 & w2 & Hrun2).
  exists batch1, w1, batch2, w2. split; [exact Hrun1|]. split; [exact Hrun2|].
  exact (generate_customers_batches_disjoint (H := lcg_libraries)
           2 3 demo_start batch1 w1 batch2 w2 Hrun1 Hrun2).
Defined.

Lemma generate_orders_frame_witness :
  demo_customers ≠ []
  ∧ ∃ orders w',
      generate_orders (H := lcg_libraries) demo_customers 3 demo_world
      = (Returns 1%nat, w')
      ∧ frames w' = [demo_orders; orders]
      ∧ Order.order_id <$> orders = seqZ 1 3.
Proof.
  split; [done|].
  destruct (generate_orders_frame (H := lcg_libraries) demo_customers 3 demo_world)
    as (orders & w' & Hrun & Hframes & _ & Hids & _);
    [done|exact demo_customers_registered|].
  exists orders, w'. split; [exact Hrun|]. split; [exact Hframes|exact Hids].
Defined.

Lemma generate_orders_without_customers_witness :
  0 < 2
  ∧ generate_orders (H := lcg_libraries) [] 2 demo_start
    = (Raises IndexError, demo_start).
Proof.
  split; [done|].
  exact (generate_orders_without_customers (H := lcg_libraries) 2 demo_start eq_refl).
Defined.

Lemma no_orders_fails_later_stages_witness :
  0 ≤ 0
  ∧ ∃ l w',
      generate_orders (H := lcg_libraries) demo_customers 0 demo_start
      = (Returns l, w')
      ∧ generate_order_items l demo_products 5 w' = (Raises KeyError, w').
Proof.
  split; [done|].
  destruct (no_orders_fails_later_stages (H := lcg_libraries)
              demo_customers 0 demo_start)
    as (l & w' & Hrun & _ & _ & _ & Hitems & _); [done|].
  exists l, w'. split; [exact Hrun|exact (Hitems demo_products 5)].
Defined.

Lemma generate_order_items_rows_witness :
  frames demo_world !! 0%nat = Some demo_orders
  ∧ ∃ items w',
      generate_order_items (H := lcg_libraries) 0 demo_products 7 demo_world
      = (Returns items, w')
      ∧ Z.of_nat (length items) = 7.
Proof.
  split; [done|].
  destruct (generate_order_items_rows (H := lcg_libraries)
              0 demo_orders demo_products 7 demo_world)
    as (items & w' & Hrun & Hlen & _);
    [done|done|done|exact demo_products_distinct|].
  exists items, w'. split; [exact Hrun|exact Hlen].
Defined.

Lemma generate_order_items_on_empty_frame_witness :
  frames demo_world !! 0%nat = Some demo_orders
  ∧ generate_order_items (H := lcg_libraries) 0 [] 7 demo_world
    = (Raises KeyError, demo_world).
Proof.
  split; [done|].
  exact (generate_order_items_on_empty_frame (H := lcg_libraries)
           0 demo_orders [] 7 demo_world eq_refl (or_intror eq_refl)).
Defined.

Lemma generate_reviews_rows_witness :
  demo_items ≠ [] ∧ 0 ≤ 5
  ∧ ∃ reviews w',
      generate_reviews (H := lcg_libraries) demo_items 0 5 demo_world
      = (Returns reviews, w')
      ∧ Review.review_id <$> reviews = seqZ 1 5.
Proof.
  split; [done|]. split; [done|].
  destruct (generate_reviews_rows (H := lcg_libraries)
              demo_items 0 demo_orders 5 demo_world)
    as (reviews & w' & Hrun & Hids & _);
    [done|exact demo_orders_distinct|exact demo_orders_dated|done
    |exact demo_items_reference_orders|exact demo_items_exact|done|].
  exists reviews, w'. split; [exact Hrun|exact Hids].
Defined.

Lemma generate_reviews_same_purchases_witness :
  frames demo_world !! 0%nat = Some demo_orders
  ∧ frames demo_world' !! 1%nat = Some demo_orders
  ∧ ∃ reviews1 w1' reviews2 w2',
      generate_reviews (H := lcg_libraries) demo_items 0 4 demo_world
      = (Returns reviews1, w1')
      ∧ generate_reviews (H := lcg_libraries) demo_items 1 4 demo_world'
        = (Returns reviews2, w2')
      ∧ Forall2 (λ r1 r2, Review.review_id r1 = Review.review_id r2
                          ∧ Review.product_id r1 = Review.product_id r2
                          ∧ Review.customer_id r1 = Review.customer_id r2)
          reviews1 reviews2.
Proof.
  split; [done|]. split; [done|].
  destruct (generate_reviews_same_purchases (H := lcg_libraries)
              demo_items demo_orders 4 0 demo_world 1 demo_world')
    as (reviews1 & w1' & reviews2 & w2' & Hrun1 & Hrun2 & Hsame);
    [done|done|exact demo_orders_distinct|exact demo_orders_dated|done
    |exact demo_items_reference_orders|exact demo_items_exact|done|].
  exists reviews1, w1', reviews2, w2'.
  split; [exact Hrun1|]. split; [exact Hrun2|exact Hsame].
Defined.

Lemma generate_reviews_edge_counts_witness :
  frames demo_world !! 0%nat = Some demo_orders
  ∧ generate_reviews (H := lcg_libraries) [] 0 3 demo_world
    = (Raises ValueError, demo_world)
  ∧ generate_reviews (H := lcg_libraries) demo_items 0 0 demo_world
    = (Returns [], demo_world).
Proof.
  split; [done|].
  destruct (generate_reviews_edge_counts (H := lcg_libraries)
              [] 0 demo_orders 3 demo_world) as (_ & Hempty & _); [done|done|].
  destruct (generate_reviews_edge_counts (H := lcg_libraries)
              demo_items 0 demo_orders 0 demo_world) as (_ & _ & Hzero); [done|done|].
  split; [exact (Hempty eq_refl eq_refl)|exact (Hzero eq_refl)].
Defined.

Lemma dangling_items_reference_nothing :
  Forall (λ it, OrderItem.order_id it ∉ Order.order_id <$> demo_orders)
    dangling_items.
Proof. repeat constructor; apply (bool_decide_unpack _); by vm_compute. Qed.

Lemma dangling_items_exact : exact_ids dangling_items.
Proof. repeat constructor; by vm_compute. Qed.

Lemma generate_reviews_dangling_items_witness :
  dangling_items ≠ [] ∧ 0 < 2
  ∧ generate_reviews (H := lcg_libraries) dangling_items 0 2 demo_world
    = (Raises KeyError, demo_world).
Proof.
  split; [done|]. split; [done|].
  apply (generate_reviews_dangling_items (H := lcg_libraries)
           dangling_items 0 demo_orders 2 demo_world);
    [done|done|done|done|exact dangling_items_exact
    |exact dangling_items_reference_nothing].
Defined.

(** Beyond [2 ^ 53] the ids of a sampled item are rounded on their way
    through the row that [iterrows] yields: the review of the item of order
    and product [2 ^ 53 + 1] carries the product [2 ^ 53] and the customer of
    order [2 ^ 53]. *)
Example ids_beyond_float64_are_rounded :
  let run := generate_reviews (H := lcg_libraries) big_items 0 1 big_world in
  match run.1 with
  | Returns reviews =>
      (λ r, (Review.product_id r, Review.customer_id r)) <$> reviews
      = [(2 ^ 53, 1)]
  | Raises _ => False
  end.
Proof. by vm_compute. Qed.

End GeneratorExtraExamples.

Section IngestExtraExamples.
Import Ingest.

Lemma overflow_run :
  ∃ c',
    insert_data (H := primary_key_engine) overflow_frames empty_connection
    = (Raises OverflowError, c').
Proof.
  destruct (insert_data (H := primary_key_engine) overflow_frames
              empty_connection) as [outcome c'] eqn:Hrun.
  exists c'. f_equal.
  change outcome with (outcome, c').1. rewrite <- Hrun. by vm_compute.
Qed.

Lemma loaded_frames_failures_witness :
  load_dataframes overflow_dir = (Returns overflow_frames, overflow_dir)
  ∧ ∃ c',
      insert_data (H := primary_key_engine) overflow_frames empty_connection
      = (Raises OverflowError, c')
      ∧ committed c' = committed empty_connection
      ∧ is_Some (transaction c').
Proof.
  assert (load_dataframes overflow_dir = (Returns overflow_frames, overflow_dir))
    as Hload by (by vm_compute).
  split; [exact Hload|].
  pose proof (loaded_frames_failures (H := primary_key_engine)
                overflow_dir overflow_dir overflow_frames empty_connection Hload)
    as Hfail.
  destruct overflow_run as [c' Hrun]. rewrite Hrun in Hfail.
  exists c'. split; [exact Hrun|].
  destruct Hfail as [Hcommitted [[[kind Hkind] _]|(_ & Hopen & _)]];
    [discriminate Hkind|].
  split; [exact Hcommitted|exact Hopen].
Defined.

Lemma insert_data_appends_frames_witness :
  ∃ u c',
    insert_data (H := primary_key_engine) demo_frames empty_connection
    = (Returns u, c')
    ∧ ∀ t, ∃ rows, demo_frames t = Some rows
                   ∧ committed c' t = committed empty_connection t ++ rows.
Proof.
  assert (returned (insert_data (H := primary_key_engine) demo_frames
                      empty_connection)) as Hr by (by vm_compute).
  destruct (returned_run _ Hr) as (u & c' & Hrun).
  exists u, c'. split; [exact Hrun|].
  destruct (insert_data_appends_frames (H := primary_key_engine)
              demo_frames empty_connection u c' Hrun) as [_ Hrows].
  exact Hrows.
Defined.

Lemma repeated_key_run :
  ∃ c',
    insert_data (H := primary_key_engine) repeated_key_frames empty_connection
    = (Raises (RuntimeError "Insertion failed" (DatabaseError IntegrityError)), c').
Proof.
  destruct (insert_data (H := primary_key_engine) repeated_key_frames
              empty_connection) as [outcome c'] eqn:Hrun.
  exists c'. f_equal.
  change outcome with (outcome, c').1. rewrite <- Hrun. by vm_compute.
Qed.

Lemma insert_data_stops_at_first_refusal_witness :
  transaction empty_connection = None
  ∧ ∃ c',
      insert_data (H := primary_key_engine) repeated_key_frames empty_connection
      = (Raises (RuntimeError "Insertion failed" (DatabaseError IntegrityError)),
         c')
      ∧ committed c' = committed empty_connection ∧ transaction c' = None.
Proof.
  split; [done|]. destruct repeated_key_run as [c' Hrun].
  exists c'. split; [exact Hrun|].
  destruct (insert_data_stops_at_first_refusal (H := primary_key_engine)
              repeated_key_frames empty_connection "Insertion failed"
              IntegrityError c' eq_refl Hrun)
    as (done & t & row & rest & _ & _ & _ & Hcommitted & Hclosed).
  split; [exact Hcommitted|exact Hclosed].
Defined.

Lemma missing_frame_run :
  ∃ c',
    insert_data (H := primary_key_engine) frames_without_products empty_connection
    = (Raises KeyError, c').
Proof.
  destruct (insert_data (H := primary_key_engine) frames_without_products
              empty_connection) as [outcome c'] eqn:Hrun.
  exists c'. f_equal.
  change outcome with (outcome, c').1. rewrite <- Hrun. by vm_compute.
Qed.

Lemma insert_data_missing_frame_leaves_transaction_open_witness :
  ∃ c' before t after,
    insert_data (H := primary_key_engine) frames_without_products empty_connection
    = (Raises KeyError, c')
    ∧ insert_statements = before ++ t :: after
    ∧ frames_without_products t = None
    ∧ committed c' = committed empty_connection
    ∧ transaction c'
      = Some (foldl run_statement (committed empty_connection)
                (statements_of frames_without_products before)).
Proof.
  destruct missing_frame_run as [c' Hrun].
  destruct (insert_data_missing_frame_leaves_transaction_open
              (H := primary_key_engine) frames_without_products empty_connection
              c' Hrun)
    as (before & t & after & Hsplit & Hmissing & Hcommitted & Hopen & _).
  exists c', before, t, after. split; [exact Hrun|]. split; [exact Hsplit|].
  split; [exact Hmissing|]. split; [exact Hcommitted|exact Hopen].
Defined.

Lemma insert_data_discards_open_transaction_witness :
  transaction busy_connection = Some (λ _, [[VInt 7]])
  ∧ ∃ c',
      insert_data (H := primary_key_engine) demo_frames busy_connection
      = (Raises (RuntimeError "Insertion failed" (DatabaseError OperationalError)),
         c')
      ∧ transaction c' = None ∧ committed c' = committed busy_connection
      ∧ journal c' = journal busy_connection ++ [ROLLBACK].
Proof.
  split; [done|].
  exact (insert_data_discards_open_transaction (H := primary_key_engine)
           demo_frames busy_connection (λ _, [[VInt 7]]) eq_refl).
Defined.

End IngestExtraExamples.

Section AnalyzeExtraExamples.
Import Analyze.

Lemma answering_connection_answers :
  ∀ q, q ∈ query_functions → answers answering_connection q.
Proof. intros q _. destruct q; by eexists. Qed.

Lemma all_queries_answered_witness :
  (∀ q, q ∈ query_functions → answers answering_connection q)
  ∧ ∃ s',
      main true answering_connection (mkSession [] ∅) = (Returns tt, s')
      ∧ stdout s'
        = stdout (mkSession [] ∅)
            ++ (query_functions ≫= report answering_connection)
            ++ [Summary (result_of answering_connection <$> query_functions);
                Completed].
Proof.
  split; [exact answering_connection_answers|].
  destruct (all_queries_answered answering_connection (mkSession [] ∅)
              answering_connection_answers) as (s' & Hrun & Hout & _).
  exists s'. split; [exact Hrun|exact Hout].
Defined.

Lemma each_export_holds_its_query_witness :
  (∀ q, q ∈ query_functions → answers answering_connection q)
  ∧ ∃ dataframe duration,
      answering_connection top_customers_by_revenue = inr (dataframe, duration)
      ∧ results_dir (main true answering_connection (mkSession [] ∅)).2
          !! (name top_customers_by_revenue +:+ ".csv")%string
        = Some dataframe.
Proof.
  split; [exact answering_connection_answers|].
  exact (each_export_holds_its_query answering_connection (mkSession [] ∅)
           answering_connection_answers top_customers_by_revenue).
Defined.

End AnalyzeExtraExamples.
